(** * Anoncoin netbase: address abstraction, resolver, SOCKS5 dialer

    A shallow embedding of [netbase.cpp] (the unnamed source file of the
    repository) and the properties its specification states about it.

    Build configuration modelled: [ENABLE_I2PSAM], [HAVE_GETADDRINFO_A] and
    [HAVE_INET_PTON] defined, not [WIN32]; LP64 data model ([int] 32 bits,
    [long] and [size_t] 64 bits); plain [char] signed.

    Conventions: a C++ [std::string] is a [list ascii]; a byte is a [Z] in
    [0, 256); fixed-width integers are [Z] with the wrap-around written out. *)

From Stdlib Require Import String.
From Stdlib Require Import ZArith List Ascii Bool Lia.
Import ListNotations.
Local Open Scope char_scope.
Local Open Scope Z_scope.
Local Open Scope bool_scope.

(** ** Strings and machine integers *)

Definition str := list ascii.

(** A string literal as a [std::string]. *)
Definition L (s : String.string) : str := String.list_ascii_of_string s.
Arguments L s%_string.

Definition byte_of_char (a : ascii) : Z := Z.of_nat (nat_of_ascii a).
Definition char_of_byte (b : Z) : ascii := ascii_of_nat (Z.to_nat b).

Definition size (s : str) : Z := Z.of_nat (length s).

(** [s[i]]; reading at [size()] yields the terminating NUL. *)
Definition at_ (s : str) (i : Z) : ascii :=
  if i <? 0 then zero else nth (Z.to_nat i) s zero.

(** [s.substr(pos, n)]. *)
Definition substr (s : str) (pos n : Z) : str :=
  firstn (Z.to_nat n) (skipn (Z.to_nat pos) s).

Fixpoint str_eqb (a b : str) : bool :=
  match a, b with
  | [], [] => true
  | x :: a', y :: b' => Ascii.eqb x y && str_eqb a' b'
  | _, _ => false
  end.

(** [s.c_str()] seen as a C string: the characters before the first NUL. *)
Fixpoint c_str (s : str) : str :=
  match s with
  | [] => []
  | a :: r => if Ascii.eqb a zero then [] else a :: c_str r
  end.

Definition SIZE_MAX : Z := 2 ^ 64 - 1.
Definition npos : Z := SIZE_MAX.
Definition to_size_t (z : Z) : Z := z mod 2 ^ 64.

Definition LONG_MAX : Z := 2 ^ 63 - 1.
Definition LONG_MIN : Z := - 2 ^ 63.

(** Conversion to a 32-bit [int] (modulo 2^32, as gcc and clang do). *)
Definition to_int (z : Z) : Z := (z + 2 ^ 31) mod 2 ^ 32 - 2 ^ 31.

(** Conversion to [unsigned short]. *)
Definition to_ushort (z : Z) : Z := z mod 2 ^ 16.

(** Conversion of a byte to (signed) [char]. *)
Definition to_schar (b : Z) : Z := if b <? 128 then b else b - 256.

(** Index of the last occurrence of [c] in [s]. *)
Fixpoint last_index (c : ascii) (s : str) : option nat :=
  match s with
  | [] => None
  | a :: r =>
      match last_index c r with
      | Some k => Some (S k)
      | None => if Ascii.eqb a c then Some O else None
      end
  end.

(** [s.find_last_of(c, pos)]: the last index [<= pos] holding [c], or [npos]. *)
Definition find_last_of (s : str) (c : ascii) (pos : Z) : Z :=
  let upto := Z.min (pos + 1) (size s) in
  match last_index c (firstn (Z.to_nat upto) s) with
  | Some k => Z.of_nat k
  | None => npos
  end.

(** *** [strtol(p, &endp, 10)] of the C library *)

Definition isspace (a : ascii) : bool :=
  let n := byte_of_char a in (n =? 32) || ((9 <=? n) && (n <=? 13)).

Definition digit_val (a : ascii) : option Z :=
  let n := byte_of_char a in
  if (48 <=? n) && (n <=? 57) then Some (n - 48) else None.

Fixpoint skip_space (s : str) : str :=
  match s with
  | [] => []
  | a :: r => if isspace a then skip_space r else s
  end.

Fixpoint scan_digits (s : str) (acc : Z) (any : bool) : Z * bool * str :=
  match s with
  | [] => (acc, any, [])
  | a :: r =>
      match digit_val a with
      | Some d => scan_digits r (acc * 10 + d) true
      | None => (acc, any, s)
      end
  end.

Definition clamp_long (z : Z) : Z :=
  if z <? LONG_MIN then LONG_MIN else if LONG_MAX <? z then LONG_MAX else z.

(** Returns the [long] value and the unread rest ([endp]); the rest is [[]]
    exactly when [*endp == 0]. With no digits, [endp] is the start. *)
Definition strtol (p : str) : Z * str :=
  let s0 := c_str p in
  let s1 := skip_space s0 in
  let '(neg, s2) :=
    match s1 with
    | a :: r =>
        if Ascii.eqb a "-" then (true, r)
        else if Ascii.eqb a "+" then (false, r) else (false, s1)
    | [] => (false, s1)
    end in
  let '(v, any, rest) := scan_digits s2 0 false in
  if any then (clamp_long (if neg then - v else v), rest) else (0, s0).

(** ** SplitHostPort *)

Definition is_nil {A} (l : list A) : bool :=
  match l with [] => true | _ => false end.

(** [SplitHostPort(in, portOut, hostOut)]: returns the new [portOut]
    and [hostOut]. *)
Definition SplitHostPort (input : str) (portOut : Z) : Z * str :=
  let colon := find_last_of input ":" npos in
  let fHaveColon := negb (colon =? npos) in
  let fBracketed :=
    fHaveColon && (Ascii.eqb (at_ input 0) "[" && Ascii.eqb (at_ input (colon - 1)) "]") in
  let fMultiColon :=
    fHaveColon && negb (find_last_of input ":" (to_size_t (colon - 1)) =? npos) in
  let '(in1, port1) :=
    if fHaveColon && ((colon =? 0) || fBracketed || negb fMultiColon) then
      let '(v, endp) := strtol (skipn (Z.to_nat (colon + 1)) input) in
      let n := to_int v in
      if is_nil endp && (0 <=? n) then
        (substr input 0 colon,
         if (0 <? n) && (n <? 65536) then n else portOut)
      else (input, portOut)
    else (input, portOut) in
  if (0 <? size in1) && Ascii.eqb (at_ in1 0) "[" && Ascii.eqb (at_ in1 (size in1 - 1)) "]"
  then (port1, substr in1 1 (size in1 - 2))
  else (port1, in1).

(** ** Base32 *)

(** Modelled from the spec: [DecodeBase32] and [EncodeBase32] (util.cpp, not
    under src/). The spec gives the onion name as [<base32(10 bytes)>.onion]
    whose display form reproduces the original text: the alphabet is the
    lower-case one of onion names, 8 characters carry 5 bytes, the decoder
    reads the longest prefix of alphabet characters and the encoder pads a
    partial group with [=]. *)
Definition base32_alphabet : str := L "abcdefghijklmnopqrstuvwxyz234567".

Definition b32_value (a : ascii) : option Z :=
  let n := byte_of_char a in
  if (97 <=? n) && (n <=? 122) then Some (n - 97)
  else if (50 <=? n) && (n <=? 55) then Some (n - 24)
  else None.

Definition b32_char (v : Z) : ascii := nth (Z.to_nat v) base32_alphabet zero.

Definition is_base32_char (a : ascii) : bool :=
  match b32_value a with Some _ => true | None => false end.

Fixpoint b32_values (s : str) : list Z :=
  match s with
  | [] => []
  | a :: r => match b32_value a with Some v => v :: b32_values r | None => [] end
  end.

Definition pack8 (v0 v1 v2 v3 v4 v5 v6 v7 : Z) : Z :=
  ((((((v0 * 32 + v1) * 32 + v2) * 32 + v3) * 32 + v4) * 32 + v5) * 32 + v6) * 32 + v7.

Definition bytes5 (n : Z) : list Z :=
  [n / 2 ^ 32 mod 256; n / 2 ^ 24 mod 256; n / 2 ^ 16 mod 256; n / 2 ^ 8 mod 256; n mod 256].

Definition pack5 (b0 b1 b2 b3 b4 : Z) : Z :=
  (((b0 * 256 + b1) * 256 + b2) * 256 + b3) * 256 + b4.

Definition vals8 (n : Z) : list Z :=
  [n / 32 ^ 7 mod 32; n / 32 ^ 6 mod 32; n / 32 ^ 5 mod 32; n / 32 ^ 4 mod 32;
   n / 32 ^ 3 mod 32; n / 32 ^ 2 mod 32; n / 32 mod 32; n mod 32].

Definition pack8_list (l : list Z) : Z :=
  match l ++ repeat 0 8 with
  | v0 :: v1 :: v2 :: v3 :: v4 :: v5 :: v6 :: v7 :: _ => pack8 v0 v1 v2 v3 v4 v5 v6 v7
  | _ => 0
  end.

Definition pack5_list (l : list Z) : Z :=
  match l ++ repeat 0 5 with
  | b0 :: b1 :: b2 :: b3 :: b4 :: _ => pack5 b0 b1 b2 b3 b4
  | _ => 0
  end.

Fixpoint decode32_groups (vs : list Z) : list Z :=
  match vs with
  | [] => []
  | v0 :: v1 :: v2 :: v3 :: v4 :: v5 :: v6 :: v7 :: r =>
      bytes5 (pack8 v0 v1 v2 v3 v4 v5 v6 v7) ++ decode32_groups r
  | part => firstn (length part * 5 / 8) (bytes5 (pack8_list part))
  end.

Definition DecodeBase32 (p : str) : list Z := decode32_groups (b32_values p).

Fixpoint encode32_groups (bs : list Z) : str :=
  match bs with
  | [] => []
  | b0 :: b1 :: b2 :: b3 :: b4 :: r =>
      map b32_char (vals8 (pack5 b0 b1 b2 b3 b4)) ++ encode32_groups r
  | part =>
      let k := ((length part * 8 + 4) / 5)%nat in
      map b32_char (firstn k (vals8 (pack5_list part))) ++ repeat "=" (8 - k)
  end.

(** [EncodeBase32(pch, len)] on the [len] bytes at [pch]. *)
Definition EncodeBase32 (bs : list Z) : str := encode32_groups bs.

(** ** The address value: CNetAddr *)

(** Modelled from the spec: [NATIVE_I2P_DESTINATION_SIZE] and
    [NATIVE_I2P_B32ADDR_SIZE] (i2pwrapper.h, not under src/): the fixed size
    of a base64 destination and of a [.b32.i2p] name. *)
Definition NATIVE_I2P_DESTINATION_SIZE : nat := 516.
Definition NATIVE_I2P_B32ADDR_SIZE : nat := 60.

(** Modelled from the spec: [enum Network] and [NET_MAX] (netbase.h, not
    under src/): the closed family set Unroutable, IPv4, IPv6, Tor, I2P,
    numbered in that order. *)
Inductive Network := NET_UNROUTABLE | NET_IPV4 | NET_IPV6 | NET_TOR | NET_NATIVE_I2P.

Definition Network_code (n : Network) : Z :=
  match n with
  | NET_UNROUTABLE => 0 | NET_IPV4 => 1 | NET_IPV6 => 2 | NET_TOR => 3 | NET_NATIVE_I2P => 4
  end.

Definition NET_MAX : Z := 5.

Definition Network_eqb (a b : Network) : bool := Network_code a =? Network_code b.

Record CNetAddr := mkNetAddr { ip : list Z; i2pDest : list Z }.

Definition pchIPv4 : list Z := [0; 0; 0; 0; 0; 0; 0; 0; 0; 0; 0xff; 0xff].
Definition pchOnionCat : list Z := [0xFD; 0x87; 0xD8; 0x7E; 0xEB; 0x43].
Definition pchGarlicCat : list Z := [0xFD; 0x60; 0xDB; 0x4D; 0xDD; 0xB5].

Fixpoint bytes_eqb (a b : list Z) : bool :=
  match a, b with
  | [], [] => true
  | x :: a', y :: b' => (x =? y) && bytes_eqb a' b'
  | _, _ => false
  end.

(** [memcmp(p, q, n) == 0]. *)
Definition memeq (p q : list Z) (n : nat) : bool := bytes_eqb (firstn n p) (firstn n q).

(** [memcpy(dst + off, src, n)]. *)
Definition memcpy (dst : list Z) (off : nat) (src : list Z) (n : nat) : list Z :=
  firstn off dst ++ firstn n src ++ skipn (off + n) dst.

(** [CNetAddr::Init]. *)
Definition Init : CNetAddr :=
  {| ip := repeat 0 16; i2pDest := repeat 0 NATIVE_I2P_DESTINATION_SIZE |}.

(** [CNetAddr(const struct in_addr&)]. *)
Definition CNetAddr_in_addr (a4 : list Z) : CNetAddr :=
  {| ip := firstn 12 pchIPv4 ++ firstn 4 a4;
     i2pDest := repeat 0 NATIVE_I2P_DESTINATION_SIZE |}.

(** [CNetAddr(const struct in6_addr&)]. *)
Definition CNetAddr_in6_addr (a6 : list Z) : CNetAddr :=
  {| ip := firstn 16 a6; i2pDest := repeat 0 NATIVE_I2P_DESTINATION_SIZE |}.

Definition GetByte (a : CNetAddr) (n : nat) : Z := nth (15 - n) (ip a) 0.

Definition IsIPv4 (a : CNetAddr) : bool := memeq (ip a) pchIPv4 12.
Definition IsTor (a : CNetAddr) : bool := memeq (ip a) pchOnionCat 6.
Definition IsI2P (a : CNetAddr) : bool := memeq (ip a) pchGarlicCat 6.
Definition IsIPv6 (a : CNetAddr) : bool := negb (IsIPv4 a) && negb (IsTor a) && negb (IsI2P a).

Definition IsRFC1918 (a : CNetAddr) : bool :=
  IsIPv4 a &&
  ((GetByte a 3 =? 10)
   || ((GetByte a 3 =? 192) && (GetByte a 2 =? 168))
   || ((GetByte a 3 =? 172) && ((16 <=? GetByte a 2) && (GetByte a 2 <=? 31)))).

Definition IsRFC3927 (a : CNetAddr) : bool :=
  IsIPv4 a && ((GetByte a 3 =? 169) && (GetByte a 2 =? 254)).

Definition IsRFC3849 (a : CNetAddr) : bool :=
  (GetByte a 15 =? 0x20) && (GetByte a 14 =? 0x01) && (GetByte a 13 =? 0x0D) && (GetByte a 12 =? 0xB8).

Definition IsRFC3964 (a : CNetAddr) : bool :=
  (GetByte a 15 =? 0x20) && (GetByte a 14 =? 0x02).

Definition pchRFC6052 : list Z := [0; 0x64; 0xFF; 0x9B; 0; 0; 0; 0; 0; 0; 0; 0].
Definition IsRFC6052 (a : CNetAddr) : bool := memeq (ip a) pchRFC6052 12.

Definition IsRFC4380 (a : CNetAddr) : bool :=
  (GetByte a 15 =? 0x20) && (GetByte a 14 =? 0x01) && (GetByte a 13 =? 0) && (GetByte a 12 =? 0).

Definition pchRFC4862 : list Z := [0xFE; 0x80; 0; 0; 0; 0; 0; 0].
Definition IsRFC4862 (a : CNetAddr) : bool := memeq (ip a) pchRFC4862 8.

Definition IsRFC4193 (a : CNetAddr) : bool := Z.land (GetByte a 15) 0xFE =? 0xFC.

Definition pchRFC6145 : list Z := [0; 0; 0; 0; 0; 0; 0; 0; 0xFF; 0xFF; 0; 0].
Definition IsRFC6145 (a : CNetAddr) : bool := memeq (ip a) pchRFC6145 12.

Definition IsRFC4843 (a : CNetAddr) : bool :=
  (GetByte a 15 =? 0x20) && (GetByte a 14 =? 0x01) && (GetByte a 13 =? 0x00)
  && (Z.land (GetByte a 12) 0xF0 =? 0x10).

Definition pchAAAA : list Z := [65; 65; 65; 65].

Definition IsNativeI2P (a : CNetAddr) : bool :=
  memeq (skipn (NATIVE_I2P_DESTINATION_SIZE - 4) (i2pDest a)) pchAAAA 4.

Definition GetI2pDestination (a : CNetAddr) : str :=
  if negb (nth 0 (i2pDest a) 0 =? 0)
  then map char_of_byte (firstn NATIVE_I2P_DESTINATION_SIZE (i2pDest a))
  else [].

(** ** External collaborators *)

Inductive sockaddr :=
| sockaddr_in (sin_addr : list Z) (sin_port : Z)
| sockaddr_in6 (sin6_addr : list Z) (sin6_port : Z).

Inductive ai_family := AF_INET | AF_INET6 | AF_OTHER.

Record addrinfo := mkAddrinfo { ai_fam : ai_family; ai_addr : list Z }.

(** What [getaddrinfo_a] and the [gai_suspend]/[gai_error] polling loop
    deliver: a submit error, or completion after [polls] polls answering
    [EAI_INPROGRESS] with a final error code and result list. *)
Inductive gai_outcome :=
| GaiSubmitError
| GaiFinished (polls : nat) (nErr : Z) (res : list addrinfo).

(** Process-wide settings and the collaborators outside this file: the
    address book, the I2P session, the C library resolver. *)
Record Env := mkEnv {
  fNameLookup : bool;
  IsI2PEnabled : bool;
  i2p_mydestination : str;   (* GetArg("-i2p.mydestination.publickey", "") *)
  addrman_GetI2pBase64Destination : str -> str;
  I2PSession_namingLookup : str -> str;
  B32AddressFromDestination : str -> str;
  inet_pton6 : str -> option (list Z);
  getaddrinfo_a : str -> bool -> gai_outcome;
  getnameinfo : sockaddr -> option str
}.

(** ** NetworkClassifier *)

Section Classifier.
Variable env : Env.

Definition IsLocal (a : CNetAddr) : bool :=
  if IsI2P a then str_eqb (i2p_mydestination env) (GetI2pDestination a)
  else if IsIPv4 a && ((GetByte a 3 =? 127) || (GetByte a 3 =? 0)) then true
  else if memeq (ip a) [0; 0; 0; 0; 0; 0; 0; 0; 0; 0; 0; 0; 0; 0; 0; 1] 16 then true
  else false.

Definition IsMulticast (a : CNetAddr) : bool :=
  (IsIPv4 a && (Z.land (GetByte a 3) 0xF0 =? 0xE0)) || (GetByte a 15 =? 0xFF).

Definition IsValid (a : CNetAddr) : bool :=
  if IsI2P a then IsNativeI2P a
  else if memeq (ip a) (skipn 3 pchIPv4) 9 then false
  else if memeq (ip a) (repeat 0 16) 16 then false
  else if IsRFC3849 a then false
  else if IsIPv4 a then
    if memeq (skipn 12 (ip a)) [0xFF; 0xFF; 0xFF; 0xFF] 4 then false
    else if memeq (skipn 12 (ip a)) [0; 0; 0; 0] 4 then false
    else true
  else true.

Definition IsRoutable (a : CNetAddr) : bool :=
  IsValid a &&
  negb (IsRFC3927 a || IsRFC4862 a || (IsRFC4193 a && negb (IsTor a || IsI2P a))
        || IsRFC4843 a || IsLocal a).

Definition GetNetwork (a : CNetAddr) : Network :=
  if negb (IsRoutable a) then NET_UNROUTABLE
  else if IsIPv4 a then NET_IPV4
  else if IsTor a then NET_TOR
  else if IsI2P a then NET_NATIVE_I2P
  else NET_IPV6.

(** The [while (nBits >= 8)] loop of [GetGroup]; [nBits <= 36] bounds it. *)
Fixpoint group_bytes (fuel : nat) (a : CNetAddr) (nStartByte : nat) (nBits : Z)
    (vchRet : list Z) : list Z * nat * Z :=
  match fuel with
  | O => (vchRet, nStartByte, nBits)
  | S f =>
      if 8 <=? nBits
      then group_bytes f a (S nStartByte) (nBits - 8) (vchRet ++ [GetByte a (15 - nStartByte)])
      else (vchRet, nStartByte, nBits)
  end.

Definition group_tail (a : CNetAddr) (nClass : Z) (nStartByte : nat) (nBits : Z) : list Z :=
  let '(vchRet, nStartByte', nBits') := group_bytes 5 a nStartByte nBits [nClass mod 256] in
  if 0 <? nBits'
  then vchRet ++ [Z.lor (GetByte a (15 - nStartByte')) (Z.shiftl 1 nBits' - 1)]
  else vchRet.

Definition GetGroup (a : CNetAddr) : list Z :=
  if IsI2P a then
    Network_code NET_NATIVE_I2P :: firstn NATIVE_I2P_DESTINATION_SIZE (i2pDest a)
  else
    let '(nClass, nBits) :=
      if IsLocal a then (255, 0) else (Network_code NET_IPV6, 16) in
    if negb (IsRoutable a) then group_tail a (Network_code NET_UNROUTABLE) 0 0
    else if IsIPv4 a || IsRFC6145 a || IsRFC6052 a then
      group_tail a (Network_code NET_IPV4) 12 nBits
    else if IsRFC3964 a then group_tail a (Network_code NET_IPV4) 2 nBits
    else if IsRFC4380 a then
      [Network_code NET_IPV4; Z.lxor (GetByte a 3) 0xFF; Z.lxor (GetByte a 2) 0xFF]
    else if IsTor a then group_tail a (Network_code NET_TOR) 6 4
    else if (GetByte a 15 =? 0x20) && (GetByte a 14 =? 0x01)
            && (GetByte a 13 =? 0x04) && (GetByte a 12 =? 0x70)
    then group_tail a nClass 0 36
    else group_tail a nClass 0 32.

(** The private extensions of [enum Network]: [NET_UNKNOWN = NET_MAX + 0],
    [NET_TEREDO = NET_MAX + 1]. *)
Inductive ExtNetwork := Net (n : Network) | NET_UNKNOWN | NET_TEREDO.

Definition ExtNetwork_code (x : ExtNetwork) : Z :=
  match x with
  | Net n => Network_code n
  | NET_UNKNOWN => NET_MAX + 0
  | NET_TEREDO => NET_MAX + 1
  end.

(** [GetExtNetwork(addr)]; [None] is the NULL pointer. *)
Definition GetExtNetwork (addr : option CNetAddr) : ExtNetwork :=
  match addr with
  | None => NET_UNKNOWN
  | Some a => if IsRFC4380 a then NET_TEREDO else Net (GetNetwork a)
  end.

Inductive Reachability :=
| REACH_UNREACHABLE | REACH_DEFAULT | REACH_TEREDO | REACH_IPV6_WEAK
| REACH_IPV4 | REACH_IPV6_STRONG | REACH_PRIVATE.

Definition Reachability_code (r : Reachability) : Z :=
  match r with
  | REACH_UNREACHABLE => 0 | REACH_DEFAULT => 1 | REACH_TEREDO => 2
  | REACH_IPV6_WEAK => 3 | REACH_IPV4 => 4 | REACH_IPV6_STRONG => 5
  | REACH_PRIVATE => 6
  end.

(** The [switch (theirNet)] of [GetReachabilityFrom]. *)
Definition reach_switch (ourNet theirNet : ExtNetwork) (fTunnel : bool) : Reachability :=
  match theirNet with
  | Net NET_IPV4 =>
      match ourNet with
      | Net NET_IPV4 => REACH_IPV4
      | _ => REACH_DEFAULT
      end
  | Net NET_IPV6 =>
      match ourNet with
      | NET_TEREDO => REACH_TEREDO
      | Net NET_IPV4 => REACH_IPV4
      | Net NET_IPV6 => if fTunnel then REACH_IPV6_WEAK else REACH_IPV6_STRONG
      | _ => REACH_DEFAULT
      end
  | Net NET_NATIVE_I2P =>
      match ourNet with
      | Net NET_NATIVE_I2P => REACH_PRIVATE
      | _ => REACH_UNREACHABLE
      end
  | Net NET_TOR =>
      match ourNet with
      | Net NET_IPV4 => REACH_IPV4
      | Net NET_TOR => REACH_PRIVATE
      | _ => REACH_DEFAULT
      end
  | NET_TEREDO =>
      match ourNet with
      | NET_TEREDO => REACH_TEREDO
      | Net NET_IPV6 => REACH_IPV6_WEAK
      | Net NET_IPV4 => REACH_IPV4
      | _ => REACH_DEFAULT
      end
  | NET_UNKNOWN | Net NET_UNROUTABLE =>
      match ourNet with
      | NET_TEREDO => REACH_TEREDO
      | Net NET_IPV6 => REACH_IPV6_WEAK
      | Net NET_IPV4 => REACH_IPV4
      | Net NET_TOR => REACH_PRIVATE
      | Net NET_NATIVE_I2P => REACH_PRIVATE
      | _ => REACH_DEFAULT
      end
  end.

(** [this->GetReachabilityFrom(paddrPartner)]. *)
Definition GetReachabilityFrom (self : CNetAddr) (paddrPartner : option CNetAddr) : Reachability :=
  if negb (IsRoutable self) then REACH_UNREACHABLE
  else
    let ourNet := GetExtNetwork (Some self) in
    let theirNet := GetExtNetwork paddrPartner in
    let fTunnel := IsRFC3964 self || IsRFC6052 self || IsRFC6145 self in
    reach_switch ourNet theirNet fTunnel.

End Classifier.

(** ** Overlay address syntax *)

Definition ends_with (s suffix : str) : bool :=
  (length suffix <=? length s)%nat
  && str_eqb (skipn (length s - length suffix) s) suffix.

Definition starts_with (s prefix : str) : bool :=
  (length prefix <=? length s)%nat && str_eqb (firstn (length prefix) s) prefix.

(** Modelled from the spec: [isValidI2pAddress], [isValidI2pB32] and
    [isStringI2pDestination] (i2pwrapper, not under src/). A raw base64
    destination is well-formed when it has the full fixed length and ends
    with the native-destination terminator ([AAAA], as [IsNativeI2P] tests);
    a short name has the form [<base32>.b32.i2p]; an input is syntactically
    an overlay address when it is either. *)
Definition isValidI2pAddress (s : str) : bool :=
  (length s =? NATIVE_I2P_DESTINATION_SIZE)%nat && ends_with s (L "AAAA").

Definition isValidI2pB32 (s : str) : bool :=
  (length s =? NATIVE_I2P_B32ADDR_SIZE)%nat && ends_with s (L ".b32.i2p").

Definition isStringI2pDestination (s : str) : bool :=
  isValidI2pB32 s || isValidI2pAddress s.

(** ** [inet_pton(AF_INET, src, dst)] of the C library: strict dotted quad *)

Fixpoint inet_pton4_loop (src : str) (done : list Z) (cur : Z) (saw_digit : bool)
    (octets : Z) : option (list Z) :=
  match src with
  | [] => if octets <? 4 then None else Some (done ++ [cur])
  | ch :: r =>
      match digit_val ch with
      | Some d =>
          let new := cur * 10 + d in
          if saw_digit && (cur =? 0) then None
          else if 255 <? new then None
          else if negb saw_digit then
            if 4 <? octets + 1 then None
            else inet_pton4_loop r done new true (octets + 1)
          else inet_pton4_loop r done new true octets
      | None =>
          if Ascii.eqb ch "." && saw_digit then
            if octets =? 4 then None
            else inet_pton4_loop r (done ++ [cur]) 0 false octets
          else None
      end
  end.

Definition inet_pton4 (src : str) : option (list Z) :=
  inet_pton4_loop (c_str src) [] 0 false 0.

(** ** Resolver *)

(** [class CService : public CNetAddr] with its [unsigned short port];
    [proxyType] is the same type. *)
Record CService := mkService { addr : CNetAddr; port : Z }.

(** [CService::CService()]. *)
Definition CService_default : CService := {| addr := Init; port := 0 |}.

(** [CService(const CNetAddr&, unsigned short)]. *)
Definition CService_of (cip : CNetAddr) (portIn : Z) : CService :=
  {| addr := cip; port := to_ushort portIn |}.

(** Calls that leave the process for numeric parsing or name resolution. *)
Inductive ResolverCall :=
| Call_inet_pton4 (name : str)
| Call_inet_pton6 (name : str)
| Call_getaddrinfo_a (name : str) (fAllowLookup : bool).

Section Resolver.
Variable env : Env.

(** [this->SetSpecial(strName)]: the result and the updated object. *)
Definition SetSpecial (this : CNetAddr) (strName : str) : bool * CNetAddr :=
  if isStringI2pDestination strName then
    let found :=
      if isValidI2pB32 strName then
        let addr0 := addrman_GetI2pBase64Destination env strName in
        if IsI2PEnabled env && fNameLookup env then
          let addr1 :=
            if size addr0 =? 0 then I2PSession_namingLookup env strName else addr0 in
          if negb (isValidI2pAddress addr1) then None else Some addr1
        else None
      else Some strName in
    match found with
    | None => (false, this)
    | Some dest =>
        (true,
         {| ip := memcpy (ip this) 0 pchGarlicCat 6;
            i2pDest := memcpy (i2pDest this) 0 (map byte_of_char dest)
                         NATIVE_I2P_DESTINATION_SIZE |})
    end
  else if (6 <? size strName) && str_eqb (substr strName (size strName - 6) 6) (L ".onion")
  then
    let vchAddr := DecodeBase32 (c_str (substr strName 0 (size strName - 6))) in
    if negb (length vchAddr =? 16 - 6)%nat then (false, this)
    else
      (true,
       {| ip := memcpy (memcpy (ip this) 0 pchOnionCat 6) 6 vchAddr 10;
          i2pDest := i2pDest this |})
  else (false, this).

(** The [while (aiTrav != NULL && ...)] loop of [LookupIntern]. *)
Fixpoint collect_addrinfo (aiTrav : list addrinfo) (nMaxSolutions : Z)
    (vIP : list CNetAddr) : list CNetAddr :=
  match aiTrav with
  | [] => vIP
  | ai :: next =>
      if (nMaxSolutions =? 0) || (Z.of_nat (length vIP) <? nMaxSolutions) then
        let vIP1 :=
          match ai_fam ai with
          | AF_INET => vIP ++ [CNetAddr_in_addr (ai_addr ai)]
          | AF_INET6 => vIP ++ [CNetAddr_in6_addr (ai_addr ai)]
          | AF_OTHER => vIP
          end in
        collect_addrinfo next nMaxSolutions vIP1
      else vIP
  end.

(** [LookupIntern(pszName, vIP, nMaxSolutions, fAllowLookup)]: the result,
    [vIP], and the resolver calls made, in order. *)
Definition LookupIntern (pszName : str) (nMaxSolutions : Z) (fAllowLookup : bool)
  : bool * list CNetAddr * list ResolverCall :=
  let strName := c_str pszName in
  let '(special, a) := SetSpecial Init strName in
  if special then (true, [a], [])
  else if isStringI2pDestination strName then (false, [], [])
  else
    match inet_pton4 strName with
    | Some a4 => (true, [CNetAddr_in_addr a4], [Call_inet_pton4 strName])
    | None =>
        match inet_pton6 env strName with
        | Some a6 =>
            (true, [CNetAddr_in6_addr a6],
             [Call_inet_pton4 strName; Call_inet_pton6 strName])
        | None =>
            let calls := [Call_inet_pton4 strName; Call_inet_pton6 strName;
                          Call_getaddrinfo_a strName fAllowLookup] in
            match getaddrinfo_a env strName fAllowLookup with
            | GaiSubmitError => (false, [], calls)
            | GaiFinished _ nErr aiRes =>
                if negb (nErr =? 0) then (false, [], calls)
                else
                  let vIP := collect_addrinfo aiRes nMaxSolutions [] in
                  ((0 <? length vIP)%nat, vIP, calls)
            end
        end
    end.

(** [LookupHost(pszName, vIP, nMaxSolutions, fAllowLookup)]. *)
Definition LookupHost (pszName : str) (nMaxSolutions : Z) (fAllowLookup : bool)
  : bool * list CNetAddr * list ResolverCall :=
  let strHost := c_str pszName in
  if is_nil strHost then (false, [], [])
  else
    let strHost1 :=
      if starts_with strHost (L "[") && ends_with strHost (L "]")
      then substr strHost 1 (size strHost - 2) else strHost in
    LookupIntern strHost1 nMaxSolutions fAllowLookup.

Definition LookupHostNumeric (pszName : str) (nMaxSolutions : Z) :=
  LookupHost pszName nMaxSolutions false.

(** [Lookup(pszName, vAddr, portDefault, fAllowLookup, nMaxSolutions)]. *)
Definition Lookup (pszName : str) (portDefault : Z) (fAllowLookup : bool)
    (nMaxSolutions : Z) : bool * list CService * list ResolverCall :=
  if Ascii.eqb (at_ pszName 0) zero then (false, [], [])
  else
    let '(port1, hostname) := SplitHostPort (c_str pszName) portDefault in
    let '(fRet, vIP, calls) := LookupIntern hostname nMaxSolutions fAllowLookup in
    if negb fRet then (false, [], calls)
    else (true, map (fun a => CService_of a port1) vIP, calls).

(** [Lookup(pszName, addr, portDefault, fAllowLookup)]: one endpoint. *)
Definition Lookup1 (pszName : str) (portDefault : Z) (fAllowLookup : bool)
  : option CService :=
  let '(fRet, vService, _) := Lookup pszName portDefault fAllowLookup 1 in
  if negb fRet then None else Some (nth 0 vService CService_default).

Definition LookupNumeric (pszName : str) (portDefault : Z) : option CService :=
  Lookup1 pszName portDefault false.

(** [CNetAddr(const std::string &strIp, bool fAllowLookup)]. *)
Definition CNetAddr_of_string (strIp : str) (fAllowLookup : bool) : CNetAddr :=
  let '(ok, vIP, _) := LookupHost strIp 1 fAllowLookup in
  if ok then nth 0 vIP Init else Init.

(** [CService(const std::string &strIpPort, int portDefault, bool fAllowLookup)]. *)
Definition CService_of_string_port (strIpPort : str) (portDefault : Z)
    (fAllowLookup : bool) : CService :=
  match Lookup1 strIpPort portDefault fAllowLookup with
  | Some ip => ip
  | None => CService_default
  end.

(** [CService(const char *pszIpPort, bool fAllowLookup = false)]. *)
Definition CService_of_string (strIpPort : str) (fAllowLookup : bool) : CService :=
  CService_of_string_port strIpPort 0 fAllowLookup.

End Resolver.

(** ** Display form *)

Definition digit_char (d : Z) : ascii :=
  if d <? 10 then char_of_byte (48 + d) else char_of_byte (87 + d).

(** [%u] (base 10) and [%x] (base 16) of [strprintf]. *)
Fixpoint fmt_digits (fuel : nat) (base n : Z) (acc : str) : str :=
  match fuel with
  | O => acc
  | S f =>
      let acc' := digit_char (n mod base) :: acc in
      if n / base =? 0 then acc' else fmt_digits f base (n / base) acc'
  end.

Definition fmt_u (n : Z) : str := fmt_digits 20 10 n [].
Definition fmt_x (n : Z) : str := fmt_digits 16 16 n [].

(** The sizes of the socket address structures (Linux). *)
Definition sizeof_sockaddr_in : Z := 16.
Definition sizeof_sockaddr_in6 : Z := 28.
Definition sizeof_sockaddr_storage : Z := 128.

(** [CService::GetSockAddr(paddr, addrlen)], with [addrlen] the value of
    [*addrlen] at the call: [None] when it returns false, otherwise the
    address written to [paddr] and the value left in [*addrlen]. The IPv6
    branch fails through [GetIn6Addr] for a native I2P destination. *)
Definition GetSockAddr (s : CService) (addrlen : Z) : option (sockaddr * Z) :=
  if IsIPv4 (addr s) then
    if addrlen <? sizeof_sockaddr_in then None
    else Some (sockaddr_in (skipn 12 (ip (addr s))) (port s), sizeof_sockaddr_in)
  else if IsIPv6 (addr s) then
    if addrlen <? sizeof_sockaddr_in6 then None
    else if IsNativeI2P (addr s) then None
    else Some (sockaddr_in6 (ip (addr s)) (port s), sizeof_sockaddr_in6)
  else None.

Section Display.
Variable env : Env.

Definition ToB32String (a : CNetAddr) : str :=
  B32AddressFromDestination env (GetI2pDestination a).

Definition ToStringIP (a : CNetAddr) : str :=
  if IsI2P a then (if IsNativeI2P a then ToB32String a else L "???.b32.i2p")
  else if IsTor a then EncodeBase32 (firstn 10 (skipn 6 (ip a))) ++ L ".onion"
  else
    let named :=
      match GetSockAddr (CService_of a 0) sizeof_sockaddr_storage with
      | Some (sa, _) => getnameinfo env sa
      | None => None
      end in
    match named with
    | Some name => name
    | None =>
        if IsIPv4 a then
          fmt_u (GetByte a 3) ++ L "." ++ fmt_u (GetByte a 2) ++ L "."
          ++ fmt_u (GetByte a 1) ++ L "." ++ fmt_u (GetByte a 0)
        else
          let w (hi lo : nat) := fmt_x (Z.lor (Z.shiftl (GetByte a hi) 8) (GetByte a lo)) in
          w 15%nat 14%nat ++ L ":" ++ w 13%nat 12%nat ++ L ":" ++ w 11%nat 10%nat ++ L ":"
          ++ w 9%nat 8%nat ++ L ":" ++ w 7%nat 6%nat ++ L ":" ++ w 5%nat 4%nat ++ L ":"
          ++ w 3%nat 2%nat ++ L ":" ++ w 1%nat 0%nat
    end.

End Display.

(** ** Sockets *)

(** What a [recv] call finds: a segment of bytes, or an error. An exhausted
    list is the peer's orderly shutdown. *)
Inductive recv_event := Chunk (bytes : list Z) | RecvError.

(** How a [send] call goes: everything is taken, or the call returns [n]. *)
Inductive send_event := SendAll | SendReturns (n : Z).

Record Socket := mkSocket {
  incoming : list recv_event;
  send_results : list send_event;
  sent : list (list Z);          (* what was written, oldest first *)
  closed : bool
}.

(** [recv(hSocket, buf, len, 0)]: return value, bytes stored, socket. *)
Definition recv (s : Socket) (len : Z) : Z * list Z * Socket :=
  match incoming s with
  | [] => (0, [], s)
  | RecvError :: r =>
      (-1, [], {| incoming := r; send_results := send_results s; sent := sent s; closed := closed s |})
  | Chunk bs :: r =>
      if Z.of_nat (length bs) <=? len then
        (Z.of_nat (length bs), bs,
         {| incoming := r; send_results := send_results s; sent := sent s; closed := closed s |})
      else
        (len, firstn (Z.to_nat len) bs,
         {| incoming := Chunk (skipn (Z.to_nat len) bs) :: r;
            send_results := send_results s; sent := sent s; closed := closed s |})
  end.

(** [send(hSocket, buf, len, MSG_NOSIGNAL)]: return value, socket. *)
Definition send (s : Socket) (buf : list Z) : Z * Socket :=
  let '(ret, rest) :=
    match send_results s with
    | [] => (Z.of_nat (length buf), [])
    | SendAll :: r => (Z.of_nat (length buf), r)
    | SendReturns n :: r => (n, r)
    end in
  (ret,
   {| incoming := incoming s; send_results := rest;
      sent := sent s ++ [firstn (Z.to_nat ret) buf]; closed := closed s |}).

Definition closesocket (s : Socket) : Socket :=
  {| incoming := incoming s; send_results := send_results s; sent := sent s; closed := true |}.

(** ** Socks5Dialer *)

(** [true], or [false] with the message handed to [error(...)]. *)
Inductive result := Ok | Err (msg : string).

(** The [switch (pchRet2[1])] of the reply code. *)
Definition socks5_reply_error (code : Z) : string :=
  if code =? 0x01 then "Proxy error: general failure"%string
  else if code =? 0x02 then "Proxy error: connection not allowed"%string
  else if code =? 0x03 then "Proxy error: network unreachable"%string
  else if code =? 0x04 then "Proxy error: host unreachable"%string
  else if code =? 0x05 then "Proxy error: connection refused"%string
  else if code =? 0x06 then "Proxy error: TTL expired"%string
  else if code =? 0x07 then "Proxy error: protocol error"%string
  else if code =? 0x08 then "Proxy error: address type not supported"%string
  else "Proxy error: unknown"%string.

(** [closesocket(hSocket); return error(msg);] *)
Definition fail_close (msg : string) (s : Socket) : result * Socket :=
  (Err msg, closesocket s).

(** The CONNECT request [strSocks5]. *)
Definition socks5_request (strDest : str) (port : Z) : list Z :=
  [5; 1; 0; 3; Z.min (size strDest) 255 mod 256]
  ++ map byte_of_char strDest
  ++ [Z.land (Z.shiftr port 8) 0xFF; Z.land (Z.shiftr port 0) 0xFF].

(** Reading the bound address, [switch (pchRet2[3])] onwards. In the
    domain case [nRecv] is a plain [char], so a length byte of 0x80 and
    above gives a negative [nRecv] and a [recv] length, converted to
    [size_t], beyond the 256 bytes of [pchRet3]; the model keeps the
    comparison of the return value with [nRecv] and says nothing of the
    bytes written there. *)
Definition socks5_bound_address (atyp : Z) (s : Socket) : result * Socket :=
  let finish (ret : bool) (s1 : Socket) :=
    if ret then fail_close "Error reading from proxy" s1
    else
      let '(r, _, s2) := recv s1 2 in
      if negb (r =? 2) then fail_close "Error reading from proxy" s2
      else (Ok, s2) in
  if atyp =? 0x01 then
    let '(r, _, s1) := recv s 4 in finish (negb (r =? 4)) s1
  else if atyp =? 0x04 then
    let '(r, _, s1) := recv s 16 in finish (negb (r =? 16)) s1
  else if atyp =? 0x03 then
    let '(r, buf, s1) := recv s 1 in
    if negb (r =? 1) then fail_close "Error reading from proxy" s1
    else
      let nRecv := to_schar (nth 0 buf 0) in
      let '(r2, _, s2) := recv s1 (to_size_t nRecv) in
      finish (negb (r2 =? nRecv)) s2
  else fail_close "Error: malformed proxy response" s.

(** [Socks5(strDest, port, hSocket)]. *)
Definition Socks5 (strDest : str) (port : Z) (hSocket : Socket) : result * Socket :=
  if 255 <? size strDest then fail_close "Hostname too long" hSocket
  else
    let pszSocks5Init := [5; 1; 0] in
    let '(ret, s1) := send hSocket pszSocks5Init in
    if negb (ret =? 3) then fail_close "Error sending to proxy" s1
    else
      let '(r1, pchRet1, s2) := recv s1 2 in
      if negb (r1 =? 2) then fail_close "Error reading proxy response" s2
      else if negb (to_schar (nth 0 pchRet1 0) =? 0x05) || negb (to_schar (nth 1 pchRet1 0) =? 0x00)
      then fail_close "Proxy failed to initialize" s2
      else
        let strSocks5 := socks5_request strDest port in
        let '(ret2, s3) := send s2 strSocks5 in
        if negb (ret2 =? Z.of_nat (length strSocks5)) then fail_close "Error sending to proxy" s3
        else
          let '(r2, pchRet2, s4) := recv s3 4 in
          if negb (r2 =? 4) then fail_close "Error reading proxy response" s4
          else if negb (to_schar (nth 0 pchRet2 0) =? 0x05)
          then fail_close "Proxy failed to accept request" s4
          else if negb (to_schar (nth 1 pchRet2 0) =? 0x00)
          then fail_close (socks5_reply_error (to_schar (nth 1 pchRet2 0))) s4
          else if negb (to_schar (nth 2 pchRet2 0) =? 0x00)
          then fail_close "Error: malformed proxy response" s4
          else socks5_bound_address (to_schar (nth 3 pchRet2 0)) s4.

(** ** ConnectionEstablisher *)

Inductive connect_result := ConnectDone | ConnectInProgress | ConnectError.

(** What the operating system answers during one direct connection
    attempt, call by call, and the stream the connection then is. *)
Record ConnectOutcome := mkConnectOutcome {
  os_socket_ok : bool;            (* socket() != INVALID_SOCKET *)
  os_nonblock_ok : bool;          (* fcntl(F_SETFL, flags | O_NONBLOCK) != -1 *)
  os_connect : connect_result;    (* connect(): 0, EINPROGRESS/EWOULDBLOCK/EINVAL, other *)
  os_select : Z;                  (* select(): 0 is the timeout, -1 an error *)
  os_getsockopt_ok : bool;        (* getsockopt(SO_ERROR) != SOCKET_ERROR *)
  os_so_error : Z;                (* the pending error it reports *)
  os_block_ok : bool;             (* fcntl(F_SETFL, flags & ~O_NONBLOCK) != SOCKET_ERROR *)
  os_stream : Socket
}.

(** The proxy table, the name proxy, and the world of sockets. *)
Record NetEnv := mkNetEnv {
  proxyInfo : Network -> CService;
  nameProxy : CService;
  os_connect_attempt : sockaddr -> Z -> ConnectOutcome;
  I2PSession_connect : str -> option Socket;
  i2p_nonblock_ok : bool
}.

(** [true] with the socket stored in [hSocketRet], [false], or a failed
    [assert]. *)
Inductive connected := Connected (hSocketRet : Socket) | NotConnected | AssertFailed.

Section Connect.
Variable env : Env.
Variable net : NetEnv.

(** [ConnectSocketDirectly(addrConnect, hSocketRet, nTimeout)]: the socket
    on success, [None] (with [hSocketRet = INVALID_SOCKET]) otherwise. *)
Definition ConnectSocketDirectly (addrConnect : CService) (nTimeout : Z) : option Socket :=
  match GetSockAddr addrConnect sizeof_sockaddr_storage with
  | None => None
  | Some (sa, _) =>
      let os := os_connect_attempt net sa nTimeout in
      if negb (os_socket_ok os) then None
      else if negb (os_nonblock_ok os) then None
      else
        let connected_ok :=
          match os_connect os with
          | ConnectDone => true
          | ConnectInProgress =>
              if os_select os =? 0 then false
              else if os_select os =? -1 then false
              else if negb (os_getsockopt_ok os) then false
              else if negb (os_so_error os =? 0) then false
              else true
          | ConnectError => false
          end in
        if negb connected_ok then None
        else if negb (os_block_ok os) then None
        else Some (os_stream os)
  end.

Definition GetProxy (n : Network) : option CService :=
  if negb (IsValid (addr (proxyInfo net n))) then None else Some (proxyInfo net n).

Definition GetNameProxy : option CService :=
  if negb (IsValid (addr (nameProxy net))) then None else Some (nameProxy net).

Definition HaveNameProxy : bool := IsValid (addr (nameProxy net)).

Definition IsProxy (a : CNetAddr) : bool :=
  existsb (fun n => bytes_eqb (ip a) (ip (addr (proxyInfo net n)))
                    && bytes_eqb (i2pDest a) (i2pDest (addr (proxyInfo net n))))
    [NET_UNROUTABLE; NET_IPV4; NET_IPV6; NET_TOR; NET_NATIVE_I2P].

(** [SetI2pSocketOptions(hSocket)]. *)
Definition SetI2pSocketOptions (hSocket : option Socket) : option Socket :=
  match hSocket with
  | None => None
  | Some s => if i2p_nonblock_ok net then Some s else None
  end.

(** [ConnectSocket(addrDest, hSocketRet, nTimeout)]. *)
Definition ConnectSocket (addrDest : CService) (nTimeout : Z) : connected :=
  if IsI2P (addr addrDest) then
    if negb (IsNativeI2P (addr addrDest)) then AssertFailed
    else
      match SetI2pSocketOptions
              (I2PSession_connect net (GetI2pDestination (addr addrDest))) with
      | Some s => Connected s
      | None => NotConnected
      end
  else
    match GetProxy (GetNetwork env (addr addrDest)) with
    | None =>
        match ConnectSocketDirectly addrDest nTimeout with
        | Some s => Connected s
        | None => NotConnected
        end
    | Some proxy =>
        match ConnectSocketDirectly proxy nTimeout with
        | None => NotConnected
        | Some hSocket =>
            match Socks5 (ToStringIP env (addr addrDest)) (port addrDest) hSocket with
            | (Ok, s) => Connected s
            | (Err _, _) => NotConnected
            end
        end
    end.

(** [ConnectSocketByName(addr, hSocketRet, pszDest, portDefault, nTimeout)]:
    the result and the endpoint left in [addr]. *)
Definition ConnectSocketByName (pszDest : str) (portDefault nTimeout : Z)
  : connected * CService :=
  let '(port1, strDest) := SplitHostPort (c_str pszDest) portDefault in
  let nameProxy1 :=
    match GetNameProxy with Some p => p | None => CService_default end in
  let addrResolved :=
    CService_of (CNetAddr_of_string env strDest (fNameLookup env && negb HaveNameProxy)) port1 in
  if IsValid (addr addrResolved) then
    (ConnectSocket addrResolved nTimeout, addrResolved)
  else
    let addr1 := CService_of_string env (L "0.0.0.0:0") false in
    if negb HaveNameProxy then (NotConnected, addr1)
    else
      match ConnectSocketDirectly nameProxy1 nTimeout with
      | None => (NotConnected, addr1)
      | Some hSocket =>
          match Socks5 strDest (to_ushort port1) hSocket with
          | (Ok, s) => (Connected s, addr1)
          | (Err _, _) => (NotConnected, addr1)
          end
      end.

End Connect.


(** ** Concrete worlds used to run the definitions *)

(** A node without I2P router, with name lookup off and a resolver that
    only knows dotted quads. *)
Definition offline_env : Env :=
  {| fNameLookup := false;
     IsI2PEnabled := false;
     i2p_mydestination := [];
     addrman_GetI2pBase64Destination := fun _ => [];
     I2PSession_namingLookup := fun _ => [];
     B32AddressFromDestination := fun _ => [];
     inet_pton6 := fun _ => None;
     getaddrinfo_a := fun _ _ => GaiSubmitError;
     getnameinfo := fun _ => None |}.

(** A socket whose peer will deliver the given segments. *)
Definition fresh_socket (segments : list (list Z)) : Socket :=
  {| incoming := map Chunk segments; send_results := []; sent := []; closed := false |}.

(** Everything written on a socket so far. *)
Definition bytes_sent (s : Socket) : list Z := concat (sent s).

(** ** Reply codes *)

(** The reply-code table of the specification, code by code. *)
Definition reply_code_table : list (Z * string) :=
  [(0x01, "general failure"%string);
   (0x02, "connection not allowed"%string);
   (0x03, "network unreachable"%string);
   (0x04, "host unreachable"%string);
   (0x05, "connection refused"%string);
   (0x06, "TTL expired"%string);
   (0x07, "protocol error"%string);
   (0x08, "address type not supported"%string)].

Fixpoint table_lookup (code : Z) (t : list (Z * string)) : option string :=
  match t with
  | [] => None
  | (c, m) :: r => if c =? code then Some m else table_lookup code r
  end.

Definition reply_code_message (code : Z) : string :=
  String.append "Proxy error: "
    match table_lookup code reply_code_table with
    | Some m => m
    | None => "unknown"%string
    end.

(** Sample addresses. *)
Definition addr_8_8_8_8 : CNetAddr := CNetAddr_in_addr [8; 8; 8; 8].
Definition addr_1_2_3_4 : CNetAddr := CNetAddr_in_addr [1; 2; 3; 4].
Definition addr_127_0_0_1 : CNetAddr := CNetAddr_in_addr [127; 0; 0; 1].

Definition sample_i2p_destination : str := repeat "x"%char 512 ++ L "AAAA".

Definition sample_i2p_addr : CNetAddr :=
  snd (SetSpecial offline_env Init sample_i2p_destination).

Definition sample_onion_addr : CNetAddr :=
  snd (SetSpecial offline_env Init (L "abcdefghijklmnop.onion")).

Definition sample_onion_addr2 : CNetAddr :=
  snd (SetSpecial offline_env Init (L "zyxwvutsrqponmlk.onion")).

(** ** The preference cases of the reachability table *)

(** The pairs (our extended family, their extended family) that the
    specification lists with a score of their own: IPv4 with IPv4, IPv6
    with IPv6 (tunnelled self or not), Tor with Tor, I2P with I2P, and any
    self facing an unknown or unroutable partner. This follows the
    specification's list, not the [case] labels of the code. *)
Definition enumerated_case (ourNet theirNet : ExtNetwork) : bool :=
  match theirNet, ourNet with
  | Net NET_IPV4, Net NET_IPV4 => true
  | Net NET_IPV6, Net NET_IPV6 => true
  | Net NET_TOR, Net NET_TOR => true
  | Net NET_NATIVE_I2P, Net NET_NATIVE_I2P => true
  | (NET_UNKNOWN | Net NET_UNROUTABLE), _ => true
  | _, _ => false
  end.

(** A routable Teredo address, 2001:0:4136:e378:8000:63bf:3fff:fdd2. *)
Definition sample_teredo_addr : CNetAddr :=
  CNetAddr_in6_addr [0x20; 0x01; 0x00; 0x00; 0x41; 0x36; 0xe3; 0x78;
                     0x80; 0x00; 0x63; 0xbf; 0x3f; 0xff; 0xfd; 0xd2].

(** ** Grouping of IPv6 addresses *)

(** The first 32 bits of the address slot. *)
Definition prefix32 (a : CNetAddr) : list Z := firstn 4 (ip a).

(** The he.net block 2001:470::/32, which [GetGroup] buckets by /36. *)
Definition IsHeNet (a : CNetAddr) : bool :=
  (GetByte a 15 =? 0x20) && (GetByte a 14 =? 0x01)
  && (GetByte a 13 =? 0x04) && (GetByte a 12 =? 0x70).

(** The IPv6 addresses [GetGroup] buckets by bits of their first 32:
    routable, outside he.net, and neither translated (RFC 6145, RFC 6052)
    nor Teredo (RFC 4380). *)
Definition grouped_by_prefix32 (env : Env) (a : CNetAddr) : bool :=
  IsIPv6 a && IsRoutable env a
  && negb (IsRFC6145 a) && negb (IsRFC6052 a) && negb (IsRFC4380 a) && negb (IsHeNet a).

Definition addr_he_net_a : CNetAddr :=
  CNetAddr_in6_addr [0x20; 0x01; 0x04; 0x70; 0x00; 0; 0; 0; 0; 0; 0; 0; 0; 0; 0; 1].
Definition addr_he_net_b : CNetAddr :=
  CNetAddr_in6_addr [0x20; 0x01; 0x04; 0x70; 0x10; 0; 0; 0; 0; 0; 0; 0; 0; 0; 0; 1].
Definition addr_link_local : CNetAddr :=
  CNetAddr_in6_addr [0xFE; 0x80; 0; 0; 0; 0; 0; 0; 0; 0; 0; 0; 0; 0; 0; 1].
Definition addr_unique_local : CNetAddr :=
  CNetAddr_in6_addr [0xFC; 0x00; 0; 0; 0; 0; 0; 0; 0; 0; 0; 0; 0; 0; 0; 1].
Definition addr_2a00_1450_a : CNetAddr :=
  CNetAddr_in6_addr [0x2A; 0x00; 0x14; 0x50; 0x40; 0x01; 0; 0; 0; 0; 0; 0; 0; 0; 0; 1].
Definition addr_2a00_1450_b : CNetAddr :=
  CNetAddr_in6_addr [0x2A; 0x00; 0x14; 0x50; 0x40; 0x02; 0; 0; 0; 0; 0; 0; 0; 0; 0; 2].
Definition addr_2a00_1451 : CNetAddr :=
  CNetAddr_in6_addr [0x2A; 0x00; 0x14; 0x51; 0x40; 0x01; 0; 0; 0; 0; 0; 0; 0; 0; 0; 1].

Definition sample_b32_name : str := repeat "a"%char 52 ++ L ".b32.i2p".

(** The endpoint [0.0.0.0:0], as an IPv4-mapped address. *)
Definition zero_endpoint : CService :=
  {| addr := CNetAddr_in_addr [0; 0; 0; 0]; port := 0 |}.

(** A world with a name proxy at 127.0.0.1:9050 that accepts the connection
    and answers the SOCKS5 handshake with success. *)
Definition name_proxy_net : NetEnv :=
  {| proxyInfo := fun _ => CService_default;
     nameProxy := {| addr := addr_127_0_0_1; port := 9050 |};
     os_connect_attempt := fun _ _ =>
       {| os_socket_ok := true; os_nonblock_ok := true; os_connect := ConnectInProgress;
          os_select := 1; os_getsockopt_ok := true; os_so_error := 0; os_block_ok := true;
          os_stream := fresh_socket [[5; 0]; [5; 0; 0; 1]; [10; 0; 0; 1]; [0x20; 0x8D]] |};
     I2PSession_connect := fun _ => None;
     i2p_nonblock_ok := true |}.

(** * The rest of the file *)

(** ** Network names *)






(** ** ProxyRegistry: the setters *)

Definition Network_eq_dec (a b : Network) : {a = b} + {a <> b}.
Proof. decide equality. Defined.

(** [SetProxy(net, addrProxy)]: the result and the table afterwards. *)
Definition SetProxy (reg : NetEnv) (n : Network) (addrProxy : CService) : bool * NetEnv :=
  if negb (IsValid (addr addrProxy)) then (false, reg)
  else
    (true,
     {| proxyInfo := fun m => if Network_eq_dec m n then addrProxy else proxyInfo reg m;
        nameProxy := nameProxy reg;
        os_connect_attempt := os_connect_attempt reg;
        I2PSession_connect := I2PSession_connect reg;
        i2p_nonblock_ok := i2p_nonblock_ok reg |}).

(** [SetNameProxy(addrProxy)]. *)
Definition SetNameProxy (reg : NetEnv) (addrProxy : CService) : bool * NetEnv :=
  if negb (IsValid (addr addrProxy)) then (false, reg)
  else
    (true,
     {| proxyInfo := proxyInfo reg;
        nameProxy := addrProxy;
        os_connect_attempt := os_connect_attempt reg;
        I2PSession_connect := I2PSession_connect reg;
        i2p_nonblock_ok := i2p_nonblock_ok reg |}).

(** The table at program start: every entry default-constructed. *)
Definition fresh_registry (reg : NetEnv) : Prop :=
  (forall n, proxyInfo reg n = CService_default) /\ nameProxy reg = CService_default.

(** ** SetI2pDestination *)

(** [this->SetI2pDestination(sDestination)]: the result and the object. *)
Definition SetI2pDestination (this : CNetAddr) (sDestination : str) : bool * CNetAddr :=
  let iSize := length sDestination in
  let this1 :=
    if negb (iSize =? 0)%nat then
      {| ip := memcpy (ip Init) 0 pchGarlicCat 6; i2pDest := i2pDest Init |}
    else
      {| ip := ip this; i2pDest := repeat 0 NATIVE_I2P_DESTINATION_SIZE |} in
  let this2 :=
    if negb (iSize =? 0)%nat then
      {| ip := ip this1;
         i2pDest := memcpy (i2pDest this1) 0 (map byte_of_char sDestination)
                      (if (iSize <? NATIVE_I2P_DESTINATION_SIZE)%nat then iSize
                       else NATIVE_I2P_DESTINATION_SIZE) |}
    else this1 in
  ((iSize =? NATIVE_I2P_DESTINATION_SIZE)%nat && IsNativeI2P this2, this2).

(** A string of the full destination size that ends in [AAAA] and starts
    with a NUL byte. *)
Definition nul_i2p_destination : str := zero :: tl sample_i2p_destination.

(** ** Comparison operators *)

(** [memcmp(p, q, n)]: the sign of the first difference. *)
Fixpoint memcmp (p q : list Z) (n : nat) : comparison :=
  match n with
  | O => Eq
  | S n' =>
      match hd 0 p ?= hd 0 q with
      | Eq => memcmp (tl p) (tl q) n'
      | c => c
      end
  end.

Definition is_Eq (c : comparison) : bool := match c with Eq => true | _ => false end.
Definition is_Lt (c : comparison) : bool := match c with Lt => true | _ => false end.

(** [operator==(const CNetAddr&, const CNetAddr&)]. *)
Definition CNetAddr_eq (a b : CNetAddr) : bool :=
  is_Eq (memcmp (ip a) (ip b) 16)
  && is_Eq (memcmp (i2pDest a) (i2pDest b) NATIVE_I2P_DESTINATION_SIZE).

(** [operator!=(const CNetAddr&, const CNetAddr&)]. *)
Definition CNetAddr_ne (a b : CNetAddr) : bool :=
  negb (is_Eq (memcmp (ip a) (ip b) 16))
  || negb (is_Eq (memcmp (i2pDest a) (i2pDest b) NATIVE_I2P_DESTINATION_SIZE)).

(** [operator<(const CNetAddr&, const CNetAddr&)]. *)
Definition CNetAddr_lt (a b : CNetAddr) : bool :=
  is_Lt (memcmp (ip a) (ip b) 16)
  || (is_Eq (memcmp (ip a) (ip b) 16)
      && is_Lt (memcmp (i2pDest a) (i2pDest b) NATIVE_I2P_DESTINATION_SIZE)).

(** [std::string] comparison: by unsigned character, then by length. *)
Fixpoint str_compare (a b : str) : comparison :=
  match a, b with
  | [], [] => Eq
  | [], _ :: _ => Lt
  | _ :: _, [] => Gt
  | x :: a', y :: b' =>
      match byte_of_char x ?= byte_of_char y with
      | Eq => str_compare a' b'
      | c => c
      end
  end.

(** [operator==(const CService&, const CService&)]. *)
Definition CService_eq (a b : CService) : bool :=
  if IsNativeI2P (addr a) then
    if IsNativeI2P (addr b)
    then is_Eq (str_compare (GetI2pDestination (addr a)) (GetI2pDestination (addr b)))
    else false
  else if IsNativeI2P (addr b) then false
  else CNetAddr_eq (addr a) (addr b) && (port a =? port b).

(** [operator!=(const CService&, const CService&)]. *)
Definition CService_ne (a b : CService) : bool :=
  if IsNativeI2P (addr a) then
    if IsNativeI2P (addr b)
    then negb (is_Eq (str_compare (GetI2pDestination (addr a)) (GetI2pDestination (addr b))))
    else true
  else if IsNativeI2P (addr b) then true
  else CNetAddr_ne (addr a) (addr b) || negb (port a =? port b).

(** [operator<(const CService&, const CService&)]. *)
Definition CService_lt (a b : CService) : bool :=
  if IsNativeI2P (addr a) then
    if IsNativeI2P (addr b)
    then is_Lt (str_compare (GetI2pDestination (addr a)) (GetI2pDestination (addr b)))
    else false
  else if IsNativeI2P (addr b) then true
  else CNetAddr_lt (addr a) (addr b)
       || (CNetAddr_eq (addr a) (addr b) && (port a <? port b)).

(** ** Keys, socket addresses and the endpoint's display form *)


(** [CService::SetSockAddr(paddr)] for the two families it accepts. *)
Definition SetSockAddr (paddr : sockaddr) : CService :=
  match paddr with
  | sockaddr_in a4 p => {| addr := CNetAddr_in_addr a4; port := to_ushort p |}
  | sockaddr_in6 a6 p => {| addr := CNetAddr_in6_addr a6; port := to_ushort p |}
  end.

Definition ToStringPort (s : CService) : str := fmt_u (port s).

Section Display2.
Variable env : Env.

(** [CService::ToStringIPPort]. *)
Definition ToStringIPPort (s : CService) : str :=
  if IsI2P (addr s) then ToStringIP env (addr s)
  else if IsIPv4 (addr s) || IsTor (addr s)
  then ToStringIP env (addr s) ++ L ":" ++ ToStringPort s
  else L "[" ++ ToStringIP env (addr s) ++ L "]:" ++ ToStringPort s.

End Display2.

(** An address as the constructors build it: 16 bytes in the slot, the full
    destination buffer, every byte in range. *)
Definition wf_addr (a : CNetAddr) : Prop :=
  length (ip a) = 16%nat /\ length (i2pDest a) = NATIVE_I2P_DESTINATION_SIZE.

(** A registry in which nothing was ever set, over a world that refuses
    every connection. *)
Definition empty_net : NetEnv :=
  {| proxyInfo := fun _ => CService_default;
     nameProxy := CService_default;
     os_connect_attempt := fun _ _ =>
       {| os_socket_ok := true; os_nonblock_ok := true; os_connect := ConnectError;
          os_select := 0; os_getsockopt_ok := true; os_so_error := 0; os_block_ok := true;
          os_stream := fresh_socket [] |};
     I2PSession_connect := fun _ => None;
     i2p_nonblock_ok := true |}.

(** ** Three-way comparisons behind the operators *)

(** A three-way comparison that is antisymmetric, respects its own
    equality and is transitive. *)
Definition lawful {A} (cmp : A -> A -> comparison) : Prop :=
  (forall a b, cmp b a = CompOpp (cmp a b))
  /\ (forall a b c, cmp a b = Eq -> cmp a c = cmp b c)
  /\ (forall a b c, cmp a b = Lt -> cmp b c = Lt -> cmp a c = Lt).

(** First by [f], then by [g]. *)
Definition lex {A} (f g : A -> A -> comparison) (a b : A) : comparison :=
  match f a b with Eq => g a b | c => c end.

(** The order [operator<] and [operator==] of [CNetAddr] decide. *)
Definition CNetAddr_cmp : CNetAddr -> CNetAddr -> comparison :=
  lex (fun a b => memcmp (ip a) (ip b) 16)
      (fun a b => memcmp (i2pDest a) (i2pDest b) NATIVE_I2P_DESTINATION_SIZE).

(** The order [operator<] and [operator==] of [CService] decide: endpoints
    without native destination first, by address then port; then the native
    ones, by destination. *)
Definition CService_cmp (a b : CService) : comparison :=
  match IsNativeI2P (addr a), IsNativeI2P (addr b) with
  | true, true => str_compare (GetI2pDestination (addr a)) (GetI2pDestination (addr b))
  | true, false => Gt
  | false, true => Lt
  | false, false =>
      lex (fun x y => CNetAddr_cmp (addr x) (addr y)) (fun x y => port x ?= port y) a b
  end.

(** ** Bounded checks *)

(** [P k && P (k+1) && ...], [fuel] values from [k] on. *)
Fixpoint all_from (fuel : nat) (k : Z) (P : Z -> bool) : bool :=
  match fuel with
  | O => true
  | S f => P k && all_from f (k + 1) P
  end.

(** What [SplitHostPort] leaves of a host once the brackets are off. *)
Definition strip_brackets (h : str) : str :=
  if (0 <? size h) && Ascii.eqb (at_ h 0) "[" && Ascii.eqb (at_ h (size h - 1)) "]"
  then substr h 1 (size h - 2) else h.

(** ** The IPv4 address a tunnelled or translated address carries *)

(** 6to4 (RFC 3964): bytes 2 to 5 of the slot. *)
Definition embedded_6to4 (a : CNetAddr) : CNetAddr :=
  CNetAddr_in_addr (firstn 4 (skipn 2 (ip a))).

(** Teredo (RFC 4380): the last four bytes, each inverted. *)
Definition embedded_teredo (a : CNetAddr) : CNetAddr :=
  CNetAddr_in_addr (map (fun b => Z.lxor b 0xFF) (firstn 4 (skipn 12 (ip a)))).

(** Translated addresses (RFC 6052, RFC 6145): the last four bytes. *)
Definition embedded_translated (a : CNetAddr) : CNetAddr :=
  CNetAddr_in_addr (firstn 4 (skipn 12 (ip a))).

Definition addr_6to4_8_8 : CNetAddr :=
  CNetAddr_in6_addr [0x20; 0x02; 8; 8; 4; 4; 0; 0; 0; 0; 0; 0; 0; 0; 0; 1].
Definition addr_teredo_8_8 : CNetAddr :=
  CNetAddr_in6_addr [0x20; 0x01; 0; 0; 1; 2; 3; 4; 0; 0; 0; 0; 0xF7; 0xF7; 0xFB; 0xFB].
Definition addr_nat64_8_8 : CNetAddr :=
  CNetAddr_in6_addr [0; 0x64; 0xFF; 0x9B; 0; 0; 0; 0; 0; 0; 0; 0; 8; 8; 4; 4].
Definition addr_doc : CNetAddr :=
  CNetAddr_in6_addr [0x20; 0x01; 0x0D; 0xB8; 0; 0; 0; 0; 0; 0; 0; 0; 0; 0; 0; 1].

(** ** Reading a CONNECT request *)

(** How a SOCKS5 server reads a CONNECT request with a domain name:
    version 5, command 1, reserved 0, address type 3, a length byte, that
    many name bytes, and the port, high byte first. *)
Definition socks5_read_request (req : list Z) : option (str * Z) :=
  match req with
  | 5 :: 1 :: 0 :: 3 :: len :: r =>
      let name := firstn (Z.to_nat len) r in
      match skipn (Z.to_nat len) r with
      | [hi; lo] =>
          if (Z.of_nat (length name) =? len) then Some (map char_of_byte name, hi * 256 + lo)
          else None
      | _ => None
      end
  | _ => None
  end.

(** A node whose resolver answers every name with three addresses. *)
Definition dns_env : Env :=
  {| fNameLookup := true;
     IsI2PEnabled := false;
     i2p_mydestination := [];
     addrman_GetI2pBase64Destination := fun _ => [];
     I2PSession_namingLookup := fun _ => [];
     B32AddressFromDestination := fun _ => [];
     inet_pton6 := fun _ => None;
     getaddrinfo_a := fun _ _ =>
       GaiFinished 1 0
         [mkAddrinfo AF_INET [93; 184; 216; 34];
          mkAddrinfo AF_INET6 [0x26; 0x06; 0x28; 0; 0x02; 0x20; 0; 1; 0x02; 0x48; 0x18; 0x93;
                               0x25; 0xC8; 0x19; 0x46];
          mkAddrinfo AF_INET [93; 184; 216; 35]];
     getnameinfo := fun _ => None |}.

(** The dotted-quad text of four octets, as [strprintf("%u.%u.%u.%u")]
    writes it. *)
Definition dotted_quad (a b c d : Z) : str :=
  fmt_u a ++ L "." ++ fmt_u b ++ L "." ++ fmt_u c ++ L "." ++ fmt_u d.

(** A world whose Tor proxy at 127.0.0.1:9050 accepts the connection and
    answers the SOCKS5 handshake with success. *)
Definition tor_proxy_net : NetEnv :=
  {| proxyInfo := fun n =>
       match n with
       | NET_TOR => {| addr := addr_127_0_0_1; port := 9050 |}
       | _ => CService_default
       end;
     nameProxy := CService_default;
     os_connect_attempt := fun _ _ =>
       {| os_socket_ok := true; os_nonblock_ok := true; os_connect := ConnectDone;
          os_select := 1; os_getsockopt_ok := true; os_so_error := 0; os_block_ok := true;
          os_stream := fresh_socket [[5; 0]; [5; 0; 0; 1]; [0; 0; 0; 0]; [0; 0]] |};
     I2PSession_connect := fun _ => None;
     i2p_nonblock_ok := true |}.

(** The decimal digits of an octet, most significant first. *)
Definition octet_digits (a : Z) : str :=
  if a <? 10 then [digit_char a]
  else if a <? 100 then [digit_char (a / 10); digit_char (a mod 10)]
  else [digit_char (a / 100); digit_char (a / 10 mod 10); digit_char (a mod 10)].

(** A character of a decimal text. *)
Definition is_decimal_char (c : ascii) : Prop := exists d, 0 <= d <= 9 /\ c = digit_char d.

(** A character of a dotted quad: a digit or the dot. *)
Definition is_quad_char (c : ascii) : Prop := is_decimal_char c \/ c = "."%char.

(** * Properties *)

(** ** Running the definitions *)

Example SplitHostPort_host_port :
  SplitHostPort (L "example.com:8080") 9377 = (8080, L "example.com").
Proof. vm_compute. reflexivity. Qed.

Example SplitHostPort_bracketed :
  SplitHostPort (L "[::1]:8080") 9377 = (8080, L "::1").
Proof. vm_compute. reflexivity. Qed.

Example SplitHostPort_bare_ipv6 :
  SplitHostPort (L "::1") 9377 = (9377, L "::1").
Proof. vm_compute. reflexivity. Qed.

Example SplitHostPort_port_zero :
  SplitHostPort (L "example.com:0") 9377 = (9377, L "example.com").
Proof. vm_compute. reflexivity. Qed.

Example SplitHostPort_port_65536 :
  SplitHostPort (L "example.com:65536") 9377 = (9377, L "example.com").
Proof. vm_compute. reflexivity. Qed.

Example base32_foobar : EncodeBase32 (map byte_of_char (L "foobar")) = L "mzxw6ytboi======".
Proof. vm_compute. reflexivity. Qed.

Example base32_decode_foobar : DecodeBase32 (L "mzxw6ytboi") = map byte_of_char (L "foobar").
Proof. vm_compute. reflexivity. Qed.

Example inet_pton4_private : inet_pton4 (L "192.168.1.5") = Some [192; 168; 1; 5].
Proof. vm_compute. reflexivity. Qed.

Example inet_pton4_rejects_name : inet_pton4 (L "example.com") = None.
Proof. vm_compute. reflexivity. Qed.

(** ** Socks5Dialer *)

Lemma forallb_bytes (P : Z -> bool) :
  forallb P (map Z.of_nat (seq 0 256)) = true ->
  forall b, 0 <= b < 256 -> P b = true.
Proof.
  intros H b Hb.
  rewrite forallb_forall in H. apply H.
  apply in_map_iff. exists (Z.to_nat b). split; [lia|].
  apply in_seq. lia.
Qed.

Lemma socks5_reply_error_table (code : Z) :
  0 <= code < 256 -> socks5_reply_error (to_schar code) = reply_code_message code.
Proof.
  intros Hb.
  apply String.eqb_eq.
  apply (forallb_bytes
           (fun c => String.eqb (socks5_reply_error (to_schar c)) (reply_code_message c)));
    [vm_compute; reflexivity | exact Hb].
Qed.

(** Every failure of [Socks5] leaves the socket closed. *)
Lemma Socks5_failure_closes (strDest : str) (port : Z) (hSocket s : Socket) (msg : string) :
  Socks5 strDest port hSocket = (Err msg, s) -> closed s = true.
Proof.
  unfold Socks5, socks5_bound_address, fail_close.
  repeat match goal with
         | |- context [let '(_, _) := ?e in _] =>
             let x := fresh "x" in destruct e as [x ?]; try destruct x
         | |- context [if ?c then _ else _] => destruct c
         end;
    intros H; inversion H; reflexivity.
Qed.

(** C8. A destination hostname longer than 255 bytes makes [Socks5] fail
    with the socket closed and nothing written on it: the bytes sent are
    those sent before the call, and no [send] or [recv] has been made. *)
Theorem Socks5_hostname_too_long :
  forall (strDest : str) (port : Z) (hSocket : Socket),
    255 < size strDest ->
    Socks5 strDest port hSocket = (Err "Hostname too long", closesocket hSocket)
    /\ closed (snd (Socks5 strDest port hSocket)) = true
    /\ bytes_sent (snd (Socks5 strDest port hSocket)) = bytes_sent hSocket
    /\ send_results (snd (Socks5 strDest port hSocket)) = send_results hSocket
    /\ incoming (snd (Socks5 strDest port hSocket)) = incoming hSocket.
Proof.
  intros strDest port hSocket Hlen.
  assert (E : Socks5 strDest port hSocket = (Err "Hostname too long", closesocket hSocket)).
  { unfold Socks5. apply Z.ltb_lt in Hlen. rewrite Hlen. reflexivity. }
  rewrite E. repeat split.
Qed.

Lemma Socks5_hostname_too_long_witness :
  255 < size (repeat "a"%char 256)
  /\ bytes_sent (snd (Socks5 (repeat "a"%char 256) 9377 (fresh_socket [[5; 0]]))) = [].
Proof.
  split; [vm_compute; reflexivity|].
  destruct (Socks5_hostname_too_long (repeat "a"%char 256) 9377 (fresh_socket [[5; 0]]))
    as (_ & _ & H & _); [vm_compute; reflexivity | exact H].
Defined.

(** C1. Once the greeting and the request have gone through and the four
    reply-header bytes [05 code rsv atyp] have been read with [code] nonzero,
    [Socks5] fails, reports the message the table gives for codes 0x01 to
    0x08 and "unknown" for every other code, and the socket is closed. *)
Theorem Socks5_reply_code_rejected :
  forall (strDest : str) (port : Z) (hSocket s1 s2 s3 s4 : Socket) (code rsv atyp : Z),
    size strDest <= 255 ->
    send hSocket [5; 1; 0] = (3, s1) ->
    recv s1 2 = (2, [5; 0], s2) ->
    send s2 (socks5_request strDest port)
      = (Z.of_nat (length (socks5_request strDest port)), s3) ->
    recv s3 4 = (4, [5; code; rsv; atyp], s4) ->
    0 <= code < 256 ->
    code <> 0 ->
    Socks5 strDest port hSocket = (Err (reply_code_message code), closesocket s4)
    /\ closed (snd (Socks5 strDest port hSocket)) = true.
Proof.
  intros strDest port hSocket s1 s2 s3 s4 code rsv atyp Hlen Hs1 Hr1 Hs2 Hr2 Hcode Hnz.
  assert (E : Socks5 strDest port hSocket = (Err (reply_code_message code), closesocket s4)).
  { unfold Socks5.
    replace (255 <? size strDest) with false by (symmetry; apply Z.ltb_ge; lia).
    rewrite Hs1. cbn [negb Z.eqb Pos.eqb]. rewrite Hr1.
    cbn [negb Z.eqb Pos.eqb nth to_schar Z.ltb Z.compare Pos.compare Pos.compare_cont orb].
    rewrite Hs2, Z.eqb_refl. cbn [negb]. rewrite Hr2.
    cbn [negb Z.eqb Pos.eqb nth].
    change (to_schar 5 =? 5) with true. cbn [negb].
    assert (Hsc : (to_schar code =? 0) = false).
    { unfold to_schar. destruct (code <? 128); apply Z.eqb_neq; lia. }
    rewrite Hsc. cbn [negb].
    rewrite socks5_reply_error_table by exact Hcode. reflexivity. }
  rewrite E. split; reflexivity.
Qed.

Lemma Socks5_reply_code_rejected_witness :
  Socks5 (L "example.com") 9377 (fresh_socket [[5; 0]; [5; 4; 0; 1]])
  = (Err "Proxy error: host unreachable",
     closesocket
       {| incoming := [];
          send_results := [];
          sent := [[5; 1; 0]; socks5_request (L "example.com") 9377];
          closed := false |}).
Proof.
  refine (proj1 (Socks5_reply_code_rejected (L "example.com") 9377
                   (fresh_socket [[5; 0]; [5; 4; 0; 1]]) _ _ _ _ 4 0 1 _ _ _ _ _ _ _)).
  - vm_compute. discriminate.
  - reflexivity.
  - reflexivity.
  - reflexivity.
  - reflexivity.
  - lia.
  - discriminate.
Defined.

(** ** NetworkClassifier *)

Lemma bytes_eqb_eq (a b : list Z) : bytes_eqb a b = true <-> a = b.
Proof.
  revert b. induction a as [|x a IH]; intros [|y b]; simpl; split; intros H;
    try reflexivity; try discriminate.
  - apply andb_prop in H. destruct H as [Hxy Hab].
    apply Z.eqb_eq in Hxy. apply IH in Hab. congruence.
  - injection H as -> ->. rewrite Z.eqb_refl. simpl. apply IH. reflexivity.
Qed.

(** [memcmp(p, q, sizeof q) == 0] says that [p] starts with [q]. *)
Lemma memeq_prefix (p q : list Z) :
  memeq p q (length q) = true -> p = q ++ skipn (length q) p.
Proof.
  unfold memeq. rewrite firstn_all. intros H. apply bytes_eqb_eq in H.
  rewrite <- H at 1. symmetry. apply firstn_skipn.
Qed.

Lemma IsIPv4_ip (a : CNetAddr) :
  IsIPv4 a = true -> ip a = pchIPv4 ++ skipn 12 (ip a).
Proof. intros H. apply (memeq_prefix (ip a) pchIPv4 H). Qed.

Lemma IsTor_ip (a : CNetAddr) :
  IsTor a = true -> ip a = pchOnionCat ++ skipn 6 (ip a).
Proof. intros H. apply (memeq_prefix (ip a) pchOnionCat H). Qed.

Lemma IsIPv4_not_RFC4380 (a : CNetAddr) : IsIPv4 a = true -> IsRFC4380 a = false.
Proof.
  intros H. apply IsIPv4_ip in H. unfold IsRFC4380, GetByte. rewrite H. reflexivity.
Qed.

Lemma GetNetwork_IPV4_inv (env : Env) (a : CNetAddr) :
  GetNetwork env a = NET_IPV4 -> IsRoutable env a = true /\ IsIPv4 a = true.
Proof.
  unfold GetNetwork.
  destruct (IsRoutable env a); simpl; [|discriminate].
  destruct (IsIPv4 a); [auto|].
  destruct (IsTor a); [discriminate|].
  destruct (IsI2P a); discriminate.
Qed.

(** An onion address is always valid and routable, whatever its payload. *)
Lemma IsTor_routable (env : Env) (a : CNetAddr) :
  IsTor a = true ->
  IsRoutable env a = true /\ GetNetwork env a = NET_TOR /\ IsRFC4380 a = false.
Proof.
  intros H. apply IsTor_ip in H. destruct a as [ipa dest]. simpl in H.
  unfold GetNetwork, IsRoutable, IsValid, IsLocal, IsRFC4380, IsRFC3927, IsRFC4862,
    IsRFC4193, IsRFC4843, IsRFC3849, IsI2P, IsTor, IsIPv4, GetByte.
  simpl ip. rewrite H. repeat split; reflexivity.
Qed.

(** C6. With a routable self: an IPv4 self scores [REACH_IPV4] against an
    IPv4 partner (by family, and already by the IPv4 marker of the partner,
    whatever extended family that gives it); a Tor self scores
    [REACH_PRIVATE] against a Tor partner. An unroutable self scores
    [REACH_UNREACHABLE] against every partner, the null one included. *)
Theorem reachability_fixed_points :
  forall (env : Env) (self : CNetAddr),
    (IsRoutable env self = true ->
     GetNetwork env self = NET_IPV4 ->
     forall partner : CNetAddr,
       GetNetwork env partner = NET_IPV4 \/ IsIPv4 partner = true ->
       GetReachabilityFrom env self (Some partner) = REACH_IPV4)
    /\ (IsRoutable env self = true ->
        IsTor self = true ->
        forall partner : CNetAddr,
          IsTor partner = true ->
          GetReachabilityFrom env self (Some partner) = REACH_PRIVATE)
    /\ (IsRoutable env self = false ->
        forall paddrPartner : option CNetAddr,
          GetReachabilityFrom env self paddrPartner = REACH_UNREACHABLE).
Proof.
  intros env self. repeat split.
  - intros Hr Hself partner Hp.
    assert (Hp4 : IsIPv4 partner = true).
    { destruct Hp as [Hp|Hp]; [apply (GetNetwork_IPV4_inv env) in Hp; tauto | exact Hp]. }
    destruct (GetNetwork_IPV4_inv env self Hself) as [_ Hs4].
    unfold GetReachabilityFrom, GetExtNetwork.
    rewrite Hr, (IsIPv4_not_RFC4380 self Hs4), (IsIPv4_not_RFC4380 partner Hp4), Hself.
    simpl. unfold GetNetwork. rewrite Hp4.
    destruct (IsRoutable env partner); reflexivity.
  - intros Hr Hself partner Hp.
    destruct (IsTor_routable env self Hself) as (_ & Hn & H4380).
    destruct (IsTor_routable env partner Hp) as (_ & Hn' & H4380').
    unfold GetReachabilityFrom, GetExtNetwork.
    rewrite Hr, H4380, H4380', Hn, Hn'. reflexivity.
  - intros Hr paddrPartner. unfold GetReachabilityFrom. rewrite Hr. reflexivity.
Qed.

Lemma reachability_fixed_points_witness :
  GetReachabilityFrom offline_env addr_8_8_8_8 (Some addr_1_2_3_4) = REACH_IPV4
  /\ GetReachabilityFrom offline_env sample_onion_addr (Some sample_onion_addr2) = REACH_PRIVATE
  /\ GetReachabilityFrom offline_env addr_127_0_0_1 (Some addr_8_8_8_8) = REACH_UNREACHABLE.
Proof.
  split; [|split].
  - apply (proj1 (reachability_fixed_points offline_env addr_8_8_8_8));
      [reflexivity | reflexivity | left; reflexivity].
  - apply (proj1 (proj2 (reachability_fixed_points offline_env sample_onion_addr)));
      reflexivity.
  - apply (proj2 (proj2 (reachability_fixed_points offline_env addr_127_0_0_1)));
      reflexivity.
Defined.

(** C3, as stated: it fails. An IPv4 self facing an onion partner is none
    of the listed cases and scores [REACH_IPV4]; an IPv4 self facing an I2P
    partner is none of them either and scores [REACH_UNREACHABLE]. *)
Lemma reachability_default_counterexample :
  IsRoutable offline_env addr_8_8_8_8 = true
  /\ (enumerated_case (GetExtNetwork offline_env (Some addr_8_8_8_8))
        (GetExtNetwork offline_env (Some sample_onion_addr)) = false
      /\ GetReachabilityFrom offline_env addr_8_8_8_8 (Some sample_onion_addr) = REACH_IPV4
      /\ REACH_IPV4 <> REACH_DEFAULT)
  /\ (enumerated_case (GetExtNetwork offline_env (Some addr_8_8_8_8))
        (GetExtNetwork offline_env (Some sample_i2p_addr)) = false
      /\ GetReachabilityFrom offline_env addr_8_8_8_8 (Some sample_i2p_addr)
         = REACH_UNREACHABLE
      /\ REACH_UNREACHABLE <> REACH_DEFAULT).
Proof.
  split; [vm_compute; reflexivity|].
  split; (split; [vm_compute; reflexivity|]); (split; [vm_compute; reflexivity | discriminate]).
Qed.

(** C3, amended. With a routable self, a pair of extended families that is
    none of the listed cases scores [REACH_DEFAULT], with these exceptions:
    against an I2P partner the score is [REACH_UNREACHABLE]; otherwise an
    IPv4 self scores [REACH_IPV4] (the partner is then IPv6, Tor or Teredo),
    a Teredo self scores [REACH_TEREDO] against an IPv6 or a Teredo partner,
    and an IPv6 self scores [REACH_IPV6_WEAK] against a Teredo partner. *)
Theorem reachability_default :
  forall (env : Env) (self : CNetAddr) (paddrPartner : option CNetAddr),
    IsRoutable env self = true ->
    enumerated_case (GetExtNetwork env (Some self)) (GetExtNetwork env paddrPartner) = false ->
    GetReachabilityFrom env self paddrPartner =
      match GetExtNetwork env (Some self), GetExtNetwork env paddrPartner with
      | _, Net NET_NATIVE_I2P => REACH_UNREACHABLE
      | Net NET_IPV4, _ => REACH_IPV4
      | NET_TEREDO, (Net NET_IPV6 | NET_TEREDO) => REACH_TEREDO
      | Net NET_IPV6, NET_TEREDO => REACH_IPV6_WEAK
      | _, _ => REACH_DEFAULT
      end.
Proof.
  intros env self paddrPartner Hr Hen.
  unfold GetReachabilityFrom. rewrite Hr. cbn [negb].
  destruct (GetExtNetwork env (Some self)) as [[]| |];
    destruct (GetExtNetwork env paddrPartner) as [[]| |];
    simpl in Hen |- *; try discriminate Hen; reflexivity.
Qed.

Lemma reachability_default_witness :
  GetReachabilityFrom offline_env sample_onion_addr (Some addr_8_8_8_8) = REACH_DEFAULT
  /\ GetReachabilityFrom offline_env addr_2a00_1450_a (Some sample_onion_addr) = REACH_DEFAULT
  /\ GetReachabilityFrom offline_env addr_8_8_8_8 (Some sample_i2p_addr) = REACH_UNREACHABLE
  /\ GetReachabilityFrom offline_env addr_8_8_8_8 (Some sample_onion_addr) = REACH_IPV4
  /\ GetReachabilityFrom offline_env sample_teredo_addr (Some addr_2a00_1450_a) = REACH_TEREDO
  /\ GetReachabilityFrom offline_env sample_teredo_addr (Some sample_teredo_addr) = REACH_TEREDO
  /\ GetReachabilityFrom offline_env addr_2a00_1450_a (Some sample_teredo_addr)
     = REACH_IPV6_WEAK.
Proof.
  split; [|split; [|split; [|split; [|split; [|split]]]]].
  - apply (reachability_default offline_env sample_onion_addr (Some addr_8_8_8_8));
      vm_compute; reflexivity.
  - apply (reachability_default offline_env addr_2a00_1450_a (Some sample_onion_addr));
      vm_compute; reflexivity.
  - apply (reachability_default offline_env addr_8_8_8_8 (Some sample_i2p_addr));
      vm_compute; reflexivity.
  - apply (reachability_default offline_env addr_8_8_8_8 (Some sample_onion_addr));
      vm_compute; reflexivity.
  - apply (reachability_default offline_env sample_teredo_addr (Some addr_2a00_1450_a));
      vm_compute; reflexivity.
  - apply (reachability_default offline_env sample_teredo_addr (Some sample_teredo_addr));
      vm_compute; reflexivity.
  - apply (reachability_default offline_env addr_2a00_1450_a (Some sample_teredo_addr));
      vm_compute; reflexivity.
Defined.

(** C2, as stated: it fails, since the address parsed from ["192.168.1.5"]
    is routable. *)
Lemma private_ipv4_counterexample :
  ~ (GetNetwork offline_env (CNetAddr_of_string offline_env (L "192.168.1.5") false) = NET_IPV4
     /\ IsRFC1918 (CNetAddr_of_string offline_env (L "192.168.1.5") false) = true
     /\ IsRoutable offline_env (CNetAddr_of_string offline_env (L "192.168.1.5") false) = false).
Proof.
  intros (_ & _ & H). vm_compute in H. discriminate H.
Qed.

(** C2, amended. The address parsed from ["192.168.1.5"] is the IPv4-mapped
    [::ffff:192.168.1.5]; its family is IPv4, it is in an RFC 1918 range, and
    [IsRoutable] is true: the routability rule does not exclude RFC 1918.
    This holds in every environment and with or without name lookup. *)
Theorem private_ipv4_is_routable :
  forall (env : Env) (fAllowLookup : bool),
    ip (CNetAddr_of_string env (L "192.168.1.5") fAllowLookup)
      = pchIPv4 ++ [192; 168; 1; 5]
    /\ GetNetwork env (CNetAddr_of_string env (L "192.168.1.5") fAllowLookup) = NET_IPV4
    /\ IsRFC1918 (CNetAddr_of_string env (L "192.168.1.5") fAllowLookup) = true
    /\ IsRoutable env (CNetAddr_of_string env (L "192.168.1.5") fAllowLookup) = true.
Proof.
  intros env fAllowLookup.
  assert (E : CNetAddr_of_string env (L "192.168.1.5") fAllowLookup
              = CNetAddr_in_addr [192; 168; 1; 5]) by reflexivity.
  rewrite E. repeat split; reflexivity.
Qed.

(** C7, as stated: both halves fail. Two he.net addresses share their /32
    and fall in different /36 groups; a link-local and a unique-local
    address differ in their first byte and share the unroutable group. *)
Lemma groupKey_prefix32_counterexample :
  (IsIPv6 addr_he_net_a = true /\ IsIPv6 addr_he_net_b = true
   /\ prefix32 addr_he_net_a = prefix32 addr_he_net_b
   /\ GetGroup offline_env addr_he_net_a <> GetGroup offline_env addr_he_net_b)
  /\ (IsIPv6 addr_link_local = true /\ IsIPv6 addr_unique_local = true
      /\ prefix32 addr_link_local <> prefix32 addr_unique_local
      /\ GetGroup offline_env addr_link_local = GetGroup offline_env addr_unique_local).
Proof.
  repeat split; try (vm_compute; reflexivity); vm_compute; discriminate.
Qed.

Lemma grouped_facts (env : Env) (a : CNetAddr) :
  grouped_by_prefix32 env a = true ->
  IsI2P a = false /\ IsIPv4 a = false /\ IsTor a = false /\ IsRoutable env a = true
  /\ IsRFC6145 a = false /\ IsRFC6052 a = false /\ IsRFC4380 a = false /\ IsHeNet a = false.
Proof.
  unfold grouped_by_prefix32, IsIPv6. intros H.
  repeat (apply andb_prop in H; destruct H as [H ?]).
  repeat match goal with Hx : negb _ = true |- _ => apply negb_true_iff in Hx end.
  repeat split; assumption.
Qed.

Lemma IsRoutable_not_local (env : Env) (a : CNetAddr) :
  IsRoutable env a = true -> IsLocal env a = false.
Proof.
  unfold IsRoutable. intros H. apply andb_prop in H. destruct H as [_ H].
  apply negb_true_iff in H. destruct (IsLocal env a); [|reflexivity].
  rewrite !orb_true_r in H. discriminate H.
Qed.

Lemma prefix32_bytes (a : CNetAddr) :
  length (ip a) = 16%nat ->
  prefix32 a = [GetByte a 15; GetByte a 14; GetByte a 13; GetByte a 12].
Proof.
  unfold prefix32, GetByte. intros H.
  destruct (ip a) as [|b0 [|b1 [|b2 [|b3 l]]]]; try discriminate H. reflexivity.
Qed.

(** The plain IPv6 bucket: class byte and the four bytes of the /32. *)
Lemma GetGroup_plain_ipv6 (env : Env) (a : CNetAddr) :
  grouped_by_prefix32 env a = true -> IsRFC3964 a = false ->
  GetGroup env a
    = [Network_code NET_IPV6; GetByte a 15; GetByte a 14; GetByte a 13; GetByte a 12].
Proof.
  intros H H1. destruct (grouped_facts env a H) as (F1 & F2 & F3 & F4 & F5 & F6 & F7 & F8).
  unfold GetGroup. unfold IsHeNet in F8.
  rewrite F1, F2, F4, F5, F6, H1, F7, F3, F8, (IsRoutable_not_local env a F4).
  reflexivity.
Qed.

(** The 6to4 bucket: the IPv4 class and the two high bytes of the
    encapsulated address, which are bytes 2 and 3 of the slot. *)
Lemma GetGroup_6to4 (env : Env) (a : CNetAddr) :
  grouped_by_prefix32 env a = true -> IsRFC3964 a = true ->
  GetGroup env a = [Network_code NET_IPV4; GetByte a 13; GetByte a 12]
  /\ GetByte a 15 = 0x20 /\ GetByte a 14 = 0x02.
Proof.
  intros H H1. destruct (grouped_facts env a H) as (F1 & F2 & F3 & F4 & F5 & F6 & F7 & F8).
  split.
  - unfold GetGroup.
    rewrite F1, F2, F4, F5, F6, H1, (IsRoutable_not_local env a F4). reflexivity.
  - unfold IsRFC3964 in H1. apply andb_prop in H1. destruct H1 as [Ha Hb].
    apply Z.eqb_eq in Ha, Hb. split; assumption.
Qed.

(** C7, amended. For two routable IPv6 addresses outside he.net
    (2001:470::/32) and outside the translated and Teredo ranges (RFC 6145,
    RFC 6052, RFC 4380), the group keys are identical exactly when the first
    32 bits are identical. *)
Theorem groupKey_prefix32 :
  forall (env : Env) (a b : CNetAddr),
    length (ip a) = 16%nat -> length (ip b) = 16%nat ->
    grouped_by_prefix32 env a = true ->
    grouped_by_prefix32 env b = true ->
    (prefix32 a = prefix32 b -> GetGroup env a = GetGroup env b)
    /\ (prefix32 a <> prefix32 b -> GetGroup env a <> GetGroup env b).
Proof.
  intros env a b La Lb Ga Gb.
  rewrite (prefix32_bytes a La), (prefix32_bytes b Lb).
  destruct (IsRFC3964 a) eqn:Ta; destruct (IsRFC3964 b) eqn:Tb.
  - destruct (GetGroup_6to4 env a Ga Ta) as (-> & A15 & A14).
    destruct (GetGroup_6to4 env b Gb Tb) as (-> & B15 & B14).
    rewrite A15, A14, B15, B14. split; intros H; congruence.
  - destruct (GetGroup_6to4 env a Ga Ta) as (-> & A15 & A14).
    rewrite (GetGroup_plain_ipv6 env b Gb Tb).
    split; [|intros _; discriminate].
    intros H. exfalso. unfold IsRFC3964 in Tb.
    injection H as E15 E14 _ _. rewrite <- E15, <- E14, A15, A14 in Tb. discriminate Tb.
  - destruct (GetGroup_6to4 env b Gb Tb) as (-> & B15 & B14).
    rewrite (GetGroup_plain_ipv6 env a Ga Ta).
    split; [|intros _; discriminate].
    intros H. exfalso. unfold IsRFC3964 in Ta.
    injection H as E15 E14 _ _. rewrite E15, E14, B15, B14 in Ta. discriminate Ta.
  - rewrite (GetGroup_plain_ipv6 env a Ga Ta), (GetGroup_plain_ipv6 env b Gb Tb).
    split; intros H; congruence.
Qed.

Lemma groupKey_prefix32_witness :
  GetGroup offline_env addr_2a00_1450_a = GetGroup offline_env addr_2a00_1450_b
  /\ GetGroup offline_env addr_2a00_1450_a <> GetGroup offline_env addr_2a00_1451.
Proof.
  split.
  - apply (proj1 (groupKey_prefix32 offline_env addr_2a00_1450_a addr_2a00_1450_b
                    eq_refl eq_refl eq_refl eq_refl)).
    reflexivity.
  - apply (proj2 (groupKey_prefix32 offline_env addr_2a00_1450_a addr_2a00_1451
                    eq_refl eq_refl eq_refl eq_refl)).
    vm_compute. discriminate.
Defined.

(** ** Resolver *)

Lemma str_eqb_eq (a b : str) : str_eqb a b = true <-> a = b.
Proof.
  revert b. induction a as [|x a IH]; intros [|y b]; simpl; split; intros H;
    try reflexivity; try discriminate.
  - apply andb_prop in H. destruct H as [Hxy Hab].
    apply Ascii.eqb_eq in Hxy. apply IH in Hab. congruence.
  - injection H as -> ->. rewrite Ascii.eqb_refl. simpl. apply IH. reflexivity.
Qed.

Lemma last_app_nonnil {A} (p u : list A) (d : A) : u <> [] -> last (p ++ u) d = last u d.
Proof.
  intros Hu. induction p as [|x p IH]; [reflexivity|].
  simpl. rewrite IH. destruct (p ++ u) eqn:E; [|reflexivity].
  apply app_eq_nil in E. destruct E as [_ E]. contradiction.
Qed.

Lemma ends_with_split (s suffix : str) :
  ends_with s suffix = true -> s = firstn (length s - length suffix) s ++ suffix.
Proof.
  unfold ends_with. intros H. apply andb_prop in H. destruct H as [_ H].
  apply str_eqb_eq in H. rewrite <- H at 2. symmetry. apply firstn_skipn.
Qed.

Lemma ends_with_last (s suffix : str) :
  suffix <> [] -> ends_with s suffix = true -> last s zero = last suffix zero.
Proof.
  intros Hn H. rewrite (ends_with_split s suffix H) at 1. apply last_app_nonnil. exact Hn.
Qed.

(** An overlay address ends in [p] (of [.b32.i2p]) or in [A] (of [AAAA]). *)
Lemma I2pDestination_last (s : str) :
  isStringI2pDestination s = true ->
  s <> [] /\ (last s zero = "p"%char \/ last s zero = "A"%char).
Proof.
  unfold isStringI2pDestination, isValidI2pB32, isValidI2pAddress. intros H.
  apply orb_prop in H. destruct H as [H|H]; apply andb_prop in H; destruct H as [Hl He].
  - split; [intros ->; discriminate Hl|].
    left. apply (ends_with_last s (L ".b32.i2p")); [discriminate | exact He].
  - split; [intros ->; discriminate Hl|].
    right. apply (ends_with_last s (L "AAAA")); [discriminate | exact He].
Qed.

Lemma c_str_idem (s : str) : c_str (c_str s) = c_str s.
Proof.
  induction s as [|a r IH]; [reflexivity|].
  simpl. destruct (Ascii.eqb a zero) eqn:E; [reflexivity|].
  simpl. rewrite E, IH. reflexivity.
Qed.

Lemma LookupIntern_overlay_unresolved (env : Env) (name : str) (nMax : Z) (fAllow : bool) :
  isStringI2pDestination (c_str name) = true ->
  fst (SetSpecial env Init (c_str name)) = false ->
  LookupIntern env name nMax fAllow = (false, [], []).
Proof.
  intros Hi Hs. unfold LookupIntern.
  destruct (SetSpecial env Init (c_str name)) as [special a]. simpl in Hs. subst special.
  rewrite Hi. reflexivity.
Qed.

Lemma LookupHost_overlay_unresolved (env : Env) (name : str) (nMax : Z) (fAllow : bool) :
  isStringI2pDestination (c_str name) = true ->
  fst (SetSpecial env Init (c_str name)) = false ->
  LookupHost env name nMax fAllow = (false, [], []).
Proof.
  intros Hi Hs. unfold LookupHost.
  destruct (I2pDestination_last _ Hi) as [Hne Hlast].
  destruct (c_str name) as [|c0 r] eqn:E; [contradiction|]. cbn [is_nil].
  assert (Hb : ends_with (c0 :: r) (L "]") = false).
  { destruct (ends_with (c0 :: r) (L "]")) eqn:Eb; [|reflexivity].
    apply ends_with_last in Eb; [|discriminate].
    destruct Hlast as [Hl|Hl]; rewrite Hl in Eb; discriminate Eb. }
  rewrite Hb, andb_false_r.
  apply LookupIntern_overlay_unresolved; rewrite <- E, c_str_idem, E; assumption.
Qed.

Lemma last_index_spec (c : ascii) (s : str) (k : nat) :
  last_index c s = Some k -> (k < length s)%nat /\ nth k s zero = c.
Proof.
  revert k. induction s as [|a r IH]; intros k H; [discriminate H|].
  simpl in H. destruct (last_index c r) as [j|].
  - injection H as <-. destruct (IH j eq_refl) as [Hl Hn]. simpl. split; [lia | exact Hn].
  - destruct (Ascii.eqb a c) eqn:E; [|discriminate H].
    injection H as <-. apply Ascii.eqb_eq in E. simpl. split; [lia | exact E].
Qed.

Lemma nth_firstn_lt {A} (m k : nat) (l : list A) (d : A) :
  (k < length (firstn m l))%nat -> nth k (firstn m l) d = nth k l d.
Proof.
  revert k l. induction m as [|m IH]; intros k l H; [simpl in H; lia|].
  destruct l as [|x l]; [simpl in H; lia|].
  destruct k as [|k]; [reflexivity|]. simpl in *. apply IH. lia.
Qed.

Lemma find_last_of_spec (s : str) (c : ascii) (pos : Z) :
  find_last_of s c pos <> npos ->
  exists n, find_last_of s c pos = Z.of_nat n /\ (n < length s)%nat /\ nth n s zero = c.
Proof.
  unfold find_last_of. intros H.
  destruct (last_index c (firstn _ s)) as [k|] eqn:E; [|contradiction].
  destruct (last_index_spec _ _ _ E) as [Hl Hn].
  exists k. split; [reflexivity|]. split.
  - rewrite length_firstn in Hl. lia.
  - rewrite <- Hn. symmetry. apply nth_firstn_lt. exact Hl.
Qed.

Lemma nth_last {A} (l : list A) (d : A) : nth (length l - 1) l d = last l d.
Proof.
  induction l as [|x l IH]; [reflexivity|].
  destruct l as [|y l]; [reflexivity|].
  simpl length in *. replace (S (S (length l)) - 1)%nat with (S (length l)) by lia.
  replace (S (length l) - 1)%nat with (length l) in IH by lia.
  simpl nth. simpl last. exact IH.
Qed.

Lemma c_str_fixed (s : str) : c_str s = s <-> Forall (fun c => c <> zero) s.
Proof.
  induction s as [|a r IH]; split; intros H; try reflexivity; try constructor.
  - intros ->. simpl in H. discriminate H.
  - apply IH. simpl in H. destruct (Ascii.eqb a zero); [discriminate H|]. congruence.
  - inversion H as [|? ? Ha Hr]; subst. simpl.
    destruct (Ascii.eqb a zero) eqn:E; [apply Ascii.eqb_eq in E; contradiction|].
    f_equal. apply IH. exact Hr.
Qed.

Lemma c_str_skipn (n : nat) (s : str) : c_str s = s -> c_str (skipn n s) = skipn n s.
Proof.
  rewrite !c_str_fixed. intros H.
  rewrite <- (firstn_skipn n s) in H. apply Forall_app in H. tauto.
Qed.

Lemma skip_space_last (t : str) :
  skip_space t <> [] -> last (skip_space t) zero = last t zero.
Proof.
  induction t as [|a r IH]; [reflexivity|].
  simpl. destruct (isspace a); [|reflexivity].
  intros H. rewrite (IH H).
  destruct r as [|b r']; [contradiction H; reflexivity | reflexivity].
Qed.

Lemma scan_digits_rest (s : str) (acc : Z) (any : bool) :
  s <> [] -> digit_val (last s zero) = None -> snd (scan_digits s acc any) <> [].
Proof.
  revert acc any. induction s as [|a r IH]; intros acc any Hn Hl; [contradiction|].
  simpl. destruct (digit_val a) as [d|] eqn:E; [|simpl; discriminate].
  destruct r as [|b r']; [simpl in Hl; congruence|].
  apply IH; [discriminate | exact Hl].
Qed.

Lemma scan_digits_nil (acc : Z) (any : bool) : scan_digits [] acc any = (acc, any, []).
Proof. reflexivity. Qed.

(** [strtol] leaves something unread when the text ends in a character
    that is neither a digit nor a sign nor NUL. *)
Lemma strtol_rest (t : str) :
  c_str t = t -> t <> [] -> digit_val (last t zero) = None ->
  snd (strtol t) <> [].
Proof.
  intros Hc Hn Hl. unfold strtol. rewrite Hc.
  destruct (skip_space t) as [|a r] eqn:Es.
  - rewrite scan_digits_nil. simpl. exact Hn.
  - assert (Hlast : last (a :: r) zero = last t zero).
    { rewrite <- Es. apply skip_space_last. rewrite Es. discriminate. }
    assert (Hr : forall (neg : bool) (s2 : str), (s2 = a :: r \/ s2 = r) ->
              snd (let '(v, any, rest) := scan_digits s2 0 false in
                   if any then (clamp_long (if neg then - v else v), rest) else (0, t)) <> []).
    { intros neg s2 Hs2.
      destruct s2 as [|x s2'] eqn:E2; [rewrite scan_digits_nil; simpl; exact Hn|].
      assert (Hl2 : digit_val (last (x :: s2') zero) = None).
      { destruct Hs2 as [Hs2|Hs2]; [rewrite Hs2, Hlast; exact Hl|].
        rewrite Hs2. rewrite <- Hlast in Hl. rewrite <- Hs2 in Hl |- *. exact Hl. }
      pose proof (scan_digits_rest (x :: s2') 0 false ltac:(discriminate) Hl2) as Hrest.
      destruct (scan_digits (x :: s2') 0 false) as [[v any] rest]. simpl in Hrest.
      destruct any; simpl; assumption. }
    destruct (Ascii.eqb a "-"); [apply (Hr true r); right; reflexivity|].
    destruct (Ascii.eqb a "+"); [apply (Hr false r); right; reflexivity|].
    apply (Hr false (a :: r)); left; reflexivity.
Qed.

(** A string without NUL that ends in a character which is no digit, no
    colon and no closing bracket comes back from [SplitHostPort] whole, with
    the port untouched. *)
Lemma SplitHostPort_unsplit (s : str) (p : Z) :
  c_str s = s -> s <> [] ->
  digit_val (last s zero) = None ->
  last s zero <> ":"%char -> last s zero <> "]"%char ->
  SplitHostPort s p = (p, s).
Proof.
  intros Hc Hn Hd Hcolon Hbr. unfold SplitHostPort.
  set (colon := find_last_of s ":" npos).
  set (cond := negb (colon =? npos) && _).
  assert (Hin : (if cond
                 then let '(v, endp) := strtol (skipn (Z.to_nat (colon + 1)) s) in
                      if is_nil endp && (0 <=? to_int v)
                      then (substr s 0 colon,
                            if (0 <? to_int v) && (to_int v <? 65536) then to_int v else p)
                      else (s, p)
                 else (s, p)) = (s, p)).
  { destruct cond eqn:Econd; [|reflexivity].
    subst cond. apply andb_prop in Econd. destruct Econd as [Hhave _].
    apply negb_true_iff, Z.eqb_neq in Hhave.
    destruct (find_last_of_spec s ":" npos Hhave) as (n & En & Hlt & Hnth).
    fold colon in En. rewrite En.
    replace (Z.to_nat (Z.of_nat n + 1)) with (S n) by lia.
    assert (Hlt' : (S n < length s)%nat).
    { destruct (Nat.eq_dec (S n) (length s)) as [E|E]; [|lia].
      exfalso. apply Hcolon. rewrite <- nth_last.
      replace (length s - 1)%nat with n by lia. exact Hnth. }
    assert (Ht : skipn (S n) s <> []).
    { intros E. apply (f_equal (@length ascii)) in E. rewrite length_skipn in E.
      simpl in E. lia. }
    assert (Hlast : last (skipn (S n) s) zero = last s zero).
    { rewrite <- (firstn_skipn (S n) s) at 2. symmetry. apply last_app_nonnil. exact Ht. }
    pose proof (strtol_rest (skipn (S n) s) (c_str_skipn _ _ Hc) Ht) as Hrest.
    rewrite Hlast in Hrest. specialize (Hrest Hd).
    destruct (strtol (skipn (S n) s)) as [v endp]. simpl in Hrest.
    destruct endp; [contradiction|]. reflexivity. }
  cbv zeta. fold colon. fold cond. rewrite Hin.
  assert (Hb : Ascii.eqb (at_ s (size s - 1)) "]" = false).
  { apply Ascii.eqb_neq. unfold at_, size.
    destruct s as [|a r]; [contradiction|].
    replace (Z.of_nat (length (a :: r)) - 1 <? 0) with false
      by (symmetry; apply Z.ltb_ge; simpl length; lia).
    replace (Z.to_nat (Z.of_nat (length (a :: r)) - 1)) with (length (a :: r) - 1)%nat by lia.
    rewrite nth_last. exact Hbr. }
  rewrite Hb, andb_false_r. reflexivity.
Qed.

Lemma Lookup_overlay_unresolved (env : Env) (name : str) (portDefault : Z)
    (fAllow : bool) (nMax : Z) :
  isStringI2pDestination (c_str name) = true ->
  fst (SetSpecial env Init (c_str name)) = false ->
  Lookup env name portDefault fAllow nMax = (false, [], []).
Proof.
  intros Hi Hs. unfold Lookup.
  destruct (I2pDestination_last _ Hi) as [Hne Hlast].
  assert (H0 : Ascii.eqb (at_ name 0) zero = false).
  { destruct name as [|a r]; [contradiction Hne; reflexivity|].
    change (at_ (a :: r) 0) with a.
    destruct (Ascii.eqb a zero) eqn:E; [|reflexivity].
    exfalso. apply Hne. simpl. rewrite E. reflexivity. }
  rewrite H0.
  rewrite (SplitHostPort_unsplit (c_str name) portDefault (c_str_idem name) Hne).
  - rewrite (LookupIntern_overlay_unresolved env (c_str name) nMax fAllow);
      [reflexivity | rewrite c_str_idem; exact Hi | rewrite c_str_idem; exact Hs].
  - destruct Hlast as [-> | ->]; reflexivity.
  - destruct Hlast as [-> | ->]; discriminate.
  - destruct Hlast as [-> | ->]; discriminate.
Qed.

(** When the I2P router is off or name lookup is disabled, no [.b32.i2p]
    name resolves. *)
Lemma SetSpecial_b32_needs_lookup (env : Env) (this : CNetAddr) (s : str) :
  isValidI2pB32 s = true ->
  IsI2PEnabled env && fNameLookup env = false ->
  fst (SetSpecial env this s) = false.
Proof.
  intros Hb He. unfold SetSpecial, isStringI2pDestination. rewrite Hb, He. reflexivity.
Qed.

(** C9. Host lookup fails, with a plain [false] and no address, on the
    empty string; and on every input that has the syntax of an I2P overlay
    address and that [SetSpecial] could not resolve it fails without a
    single call to the numeric parsers or to the name resolver. This holds
    for [LookupIntern], [LookupHost] and [Lookup] alike. *)
Theorem lookup_no_result :
  forall (env : Env) (nMaxSolutions : Z) (fAllowLookup : bool) (portDefault : Z),
    LookupHost env [] nMaxSolutions fAllowLookup = (false, [], [])
    /\ Lookup env [] portDefault fAllowLookup nMaxSolutions = (false, [], [])
    /\ forall name : str,
         isStringI2pDestination (c_str name) = true ->
         fst (SetSpecial env Init (c_str name)) = false ->
         LookupIntern env name nMaxSolutions fAllowLookup = (false, [], [])
         /\ LookupHost env name nMaxSolutions fAllowLookup = (false, [], [])
         /\ Lookup env name portDefault fAllowLookup nMaxSolutions = (false, [], []).
Proof.
  intros env nMax fAllow portDefault.
  split; [reflexivity|]. split; [reflexivity|].
  intros name Hi Hs. split; [|split].
  - apply LookupIntern_overlay_unresolved; assumption.
  - apply LookupHost_overlay_unresolved; assumption.
  - apply Lookup_overlay_unresolved; assumption.
Qed.

Lemma lookup_no_result_witness :
  LookupIntern offline_env sample_b32_name 0 true = (false, [], [])
  /\ LookupHost offline_env sample_b32_name 0 true = (false, [], [])
  /\ Lookup offline_env sample_b32_name 9377 true 0 = (false, [], []).
Proof.
  apply (proj2 (proj2 (lookup_no_result offline_env 0 true 9377)) sample_b32_name);
    vm_compute; reflexivity.
Defined.

(** ** ConnectionEstablisher *)

(** The literal ["0.0.0.0:0"] parses to the zero endpoint in every
    environment, with or without name lookup. *)
Lemma CService_zero_literal (env : Env) (fAllowLookup : bool) :
  CService_of_string env (L "0.0.0.0:0") fAllowLookup = zero_endpoint.
Proof. reflexivity. Qed.

(** C10. When the host part of the destination does not resolve locally to
    a valid address, [ConnectSocketByName] leaves the endpoint [0.0.0.0:0]
    in [addr], whatever happens next; in particular when the name proxy is
    reached and the SOCKS5 handshake succeeds, the call returns true with
    the connected socket and [addr] is still [0.0.0.0:0]. *)
Theorem ConnectSocketByName_zero_endpoint :
  forall (env : Env) (net : NetEnv) (pszDest : str) (portDefault nTimeout : Z),
    IsValid (CNetAddr_of_string env (snd (SplitHostPort (c_str pszDest) portDefault))
               (fNameLookup env && negb (HaveNameProxy net))) = false ->
    snd (ConnectSocketByName env net pszDest portDefault nTimeout) = zero_endpoint
    /\ forall hSocket s : Socket,
         HaveNameProxy net = true ->
         ConnectSocketDirectly net (nameProxy net) nTimeout = Some hSocket ->
         Socks5 (snd (SplitHostPort (c_str pszDest) portDefault))
                (to_ushort (fst (SplitHostPort (c_str pszDest) portDefault))) hSocket = (Ok, s) ->
         ConnectSocketByName env net pszDest portDefault nTimeout = (Connected s, zero_endpoint).
Proof.
  intros env net pszDest portDefault nTimeout Hinv.
  unfold ConnectSocketByName.
  destruct (SplitHostPort (c_str pszDest) portDefault) as [port1 strDest].
  cbn [fst snd] in *. cbn [addr CService_of].
  rewrite Hinv, CService_zero_literal.
  split.
  - destruct (HaveNameProxy net); cbn [negb]; [|reflexivity].
    destruct (ConnectSocketDirectly net _ nTimeout) as [h|]; [|reflexivity].
    destruct (Socks5 strDest (to_ushort port1) h) as [[|msg] s]; reflexivity.
  - intros hSocket s Hhave Hconn Hsocks.
    rewrite Hhave. cbn [negb].
    unfold GetNameProxy. unfold HaveNameProxy in Hhave. rewrite Hhave. cbn [negb].
    rewrite Hconn, Hsocks. reflexivity.
Qed.

Lemma ConnectSocketByName_zero_endpoint_witness :
  exists s : Socket,
    ConnectSocketByName offline_env name_proxy_net (L "example.com:8333") 9377 20000
    = (Connected s, zero_endpoint)
    /\ bytes_sent s = [5; 1; 0] ++ socks5_request (L "example.com") 8333.
Proof.
  eexists. split.
  - apply (proj2 (ConnectSocketByName_zero_endpoint offline_env name_proxy_net
                    (L "example.com:8333") 9377 20000 eq_refl)
             (fresh_socket [[5; 0]; [5; 0; 0; 1]; [10; 0; 0; 1]; [0x20; 0x8D]]));
      reflexivity.
  - reflexivity.
Defined.

(** ** Onion addresses *)

Lemma pack5_bytes5 (n : Z) :
  0 <= n < 2 ^ 40 ->
  pack5 (n / 2 ^ 32 mod 256) (n / 2 ^ 24 mod 256) (n / 2 ^ 16 mod 256)
        (n / 2 ^ 8 mod 256) (n mod 256) = n.
Proof.
  intros H. unfold pack5.
  change (2 ^ 40) with 1099511627776 in H.
  change (2 ^ 32) with 4294967296. change (2 ^ 24) with 16777216.
  change (2 ^ 16) with 65536. change (2 ^ 8) with 256.
  Z.div_mod_to_equations. lia.
Qed.

Lemma pack8_range (v0 v1 v2 v3 v4 v5 v6 v7 : Z) :
  0 <= v0 < 32 -> 0 <= v1 < 32 -> 0 <= v2 < 32 -> 0 <= v3 < 32 ->
  0 <= v4 < 32 -> 0 <= v5 < 32 -> 0 <= v6 < 32 -> 0 <= v7 < 32 ->
  0 <= pack8 v0 v1 v2 v3 v4 v5 v6 v7 < 2 ^ 40.
Proof. intros. unfold pack8. change (2 ^ 40) with 1099511627776. lia. Qed.

Lemma vals8_pack8 (v0 v1 v2 v3 v4 v5 v6 v7 : Z) :
  0 <= v0 < 32 -> 0 <= v1 < 32 -> 0 <= v2 < 32 -> 0 <= v3 < 32 ->
  0 <= v4 < 32 -> 0 <= v5 < 32 -> 0 <= v6 < 32 -> 0 <= v7 < 32 ->
  vals8 (pack8 v0 v1 v2 v3 v4 v5 v6 v7) = [v0; v1; v2; v3; v4; v5; v6; v7].
Proof.
  intros. unfold vals8, pack8.
  change (32 ^ 7) with 34359738368. change (32 ^ 6) with 1073741824.
  change (32 ^ 5) with 33554432. change (32 ^ 4) with 1048576.
  change (32 ^ 3) with 32768. change (32 ^ 2) with 1024.
  repeat f_equal; Z.div_mod_to_equations; lia.
Qed.

(** Eight characters to five bytes and back. *)
Lemma base32_group_roundtrip (v0 v1 v2 v3 v4 v5 v6 v7 : Z) (rest : list Z) :
  0 <= v0 < 32 -> 0 <= v1 < 32 -> 0 <= v2 < 32 -> 0 <= v3 < 32 ->
  0 <= v4 < 32 -> 0 <= v5 < 32 -> 0 <= v6 < 32 -> 0 <= v7 < 32 ->
  encode32_groups (bytes5 (pack8 v0 v1 v2 v3 v4 v5 v6 v7) ++ rest)
  = map b32_char [v0; v1; v2; v3; v4; v5; v6; v7] ++ encode32_groups rest.
Proof.
  intros.
  pose proof (pack8_range v0 v1 v2 v3 v4 v5 v6 v7) as Hr.
  set (n := pack8 v0 v1 v2 v3 v4 v5 v6 v7) in *.
  change (encode32_groups (bytes5 n ++ rest))
    with (map b32_char
            (vals8 (pack5 (n / 2 ^ 32 mod 256) (n / 2 ^ 24 mod 256) (n / 2 ^ 16 mod 256)
                          (n / 2 ^ 8 mod 256) (n mod 256)))
          ++ encode32_groups rest).
  rewrite pack5_bytes5 by auto. subst n. rewrite vals8_pack8 by assumption. reflexivity.
Qed.

Lemma b32_value_spec (c : ascii) (v : Z) :
  b32_value c = Some v -> 0 <= v < 32 /\ b32_char v = c /\ c <> zero.
Proof.
  intros H.
  destruct c as [[] [] [] [] [] [] [] []]; vm_compute in H;
    try discriminate H; injection H as <-;
    (split; [lia | split; [reflexivity | discriminate]]).
Qed.

Lemma b32_values_all (s : str) :
  forallb is_base32_char s = true ->
  length (b32_values s) = length s
  /\ map b32_char (b32_values s) = s
  /\ Forall (fun v => 0 <= v < 32) (b32_values s)
  /\ Forall (fun c => c <> zero) s.
Proof.
  induction s as [|c r IH]; intros H.
  - repeat split; constructor.
  - simpl in H. apply andb_prop in H. destruct H as [Hc Hr].
    destruct (IH Hr) as (I1 & I2 & I3 & I4).
    unfold is_base32_char in Hc. simpl b32_values.
    destruct (b32_value c) as [v|] eqn:E; [|discriminate Hc].
    destruct (b32_value_spec c v E) as (R & C & NZ).
    simpl. repeat split.
    + congruence.
    + congruence.
    + constructor; assumption.
    + constructor; assumption.
Qed.

(** Sixteen base32 characters decode to ten bytes that encode back to the
    same sixteen characters. *)
Lemma base32_roundtrip16 (s : str) :
  length s = 16%nat -> forallb is_base32_char s = true ->
  length (DecodeBase32 s) = 10%nat /\ EncodeBase32 (DecodeBase32 s) = s.
Proof.
  intros Hl Hb. destruct (b32_values_all s Hb) as (Hlen & Hmap & Hrange & _).
  unfold DecodeBase32, EncodeBase32. rewrite <- Hmap at 3.
  rewrite Hl in Hlen.
  destruct (b32_values s)
    as [|v0 [|v1 [|v2 [|v3 [|v4 [|v5 [|v6 [|v7 [|v8 [|v9 [|v10 [|v11 [|v12
        [|v13 [|v14 [|v15 [|]]]]]]]]]]]]]]]]]; try discriminate Hlen.
  repeat match goal with
         | H : Forall _ (_ :: _) |- _ => inversion H; clear H; subst
         end.
  change (decode32_groups [v0; v1; v2; v3; v4; v5; v6; v7; v8; v9; v10; v11; v12; v13; v14; v15])
    with (bytes5 (pack8 v0 v1 v2 v3 v4 v5 v6 v7)
          ++ bytes5 (pack8 v8 v9 v10 v11 v12 v13 v14 v15) ++ []).
  split; [reflexivity|].
  rewrite base32_group_roundtrip by assumption.
  rewrite base32_group_roundtrip by assumption.
  reflexivity.
Qed.

Lemma isStringI2pDestination_length (s : str) :
  length s <> NATIVE_I2P_B32ADDR_SIZE -> length s <> NATIVE_I2P_DESTINATION_SIZE ->
  isStringI2pDestination s = false.
Proof.
  intros H1 H2. unfold isStringI2pDestination, isValidI2pB32, isValidI2pAddress.
  apply Nat.eqb_neq in H1, H2. rewrite H1, H2. reflexivity.
Qed.

Lemma SetSpecial_onion (env : Env) (s : str) :
  length s = 16%nat -> forallb is_base32_char s = true ->
  SetSpecial env Init (s ++ L ".onion")
  = (true, {| ip := pchOnionCat ++ DecodeBase32 s; i2pDest := i2pDest Init |}).
Proof.
  intros Hl Hb.
  destruct (base32_roundtrip16 s Hl Hb) as [Hdec _].
  destruct (b32_values_all s Hb) as (_ & _ & _ & Hnz).
  assert (Hsize : size (s ++ L ".onion") = 22).
  { unfold size. rewrite length_app, Hl. reflexivity. }
  assert (E1 : substr (s ++ L ".onion") (size (s ++ L ".onion") - 6) 6 = L ".onion").
  { rewrite Hsize. unfold substr. change (Z.to_nat (22 - 6)) with 16%nat.
    rewrite skipn_app, Hl, skipn_all2 by lia. reflexivity. }
  assert (E2 : substr (s ++ L ".onion") 0 (size (s ++ L ".onion") - 6) = s).
  { rewrite Hsize. unfold substr. change (Z.to_nat (22 - 6)) with 16%nat.
    change (Z.to_nat 0) with 0%nat. rewrite skipn_O, firstn_app, Hl, firstn_all2 by lia.
    change (16 - 16)%nat with 0%nat. rewrite firstn_O. apply app_nil_r. }
  unfold SetSpecial.
  rewrite isStringI2pDestination_length
    by (rewrite length_app, Hl; discriminate).
  rewrite E1, E2, Hsize. change (6 <? 22) with true.
  replace (str_eqb (L ".onion") (L ".onion")) with true by reflexivity.
  cbn [andb]. rewrite (proj2 (c_str_fixed s) Hnz), Hdec. cbn [Nat.eqb Nat.sub negb].
  destruct (DecodeBase32 s)
    as [|b0 [|b1 [|b2 [|b3 [|b4 [|b5 [|b6 [|b7 [|b8 [|b9 [|]]]]]]]]]]];
    try discriminate Hdec.
  reflexivity.
Qed.

(** C5. For every 16-character base32 string [s], the address constructed
    from [s.onion] holds the onion marker followed by the 10 bytes [s]
    decodes to, is a Tor address of the Tor family, and its display string
    is [s.onion] again. *)
Theorem onion_roundtrip :
  forall (env : Env) (s : str) (fAllowLookup : bool),
    length s = 16%nat ->
    forallb is_base32_char s = true ->
    length (DecodeBase32 s) = 10%nat
    /\ ip (CNetAddr_of_string env (s ++ L ".onion") fAllowLookup) = pchOnionCat ++ DecodeBase32 s
    /\ IsTor (CNetAddr_of_string env (s ++ L ".onion") fAllowLookup) = true
    /\ GetNetwork env (CNetAddr_of_string env (s ++ L ".onion") fAllowLookup) = NET_TOR
    /\ ToStringIP env (CNetAddr_of_string env (s ++ L ".onion") fAllowLookup) = s ++ L ".onion".
Proof.
  intros env s fAllowLookup Hl Hb.
  destruct (base32_roundtrip16 s Hl Hb) as [Hdec Henc].
  destruct (b32_values_all s Hb) as (_ & _ & _ & Hnz).
  assert (Hc : c_str (s ++ L ".onion") = s ++ L ".onion").
  { apply c_str_fixed. apply Forall_app. split; [exact Hnz|].
    repeat constructor; discriminate. }
  assert (Hne : is_nil (s ++ L ".onion") = false).
  { destruct s; [discriminate Hl | reflexivity]. }
  assert (Hbr : ends_with (s ++ L ".onion") (L "]") = false).
  { destruct (ends_with (s ++ L ".onion") (L "]")) eqn:E; [|reflexivity].
    apply ends_with_last in E; [|discriminate].
    rewrite last_app_nonnil in E by discriminate. discriminate E. }
  assert (Ha : CNetAddr_of_string env (s ++ L ".onion") fAllowLookup
               = {| ip := pchOnionCat ++ DecodeBase32 s; i2pDest := i2pDest Init |}).
  { unfold CNetAddr_of_string, LookupHost. rewrite Hc, Hne, Hbr, andb_false_r.
    unfold LookupIntern. rewrite Hc, (SetSpecial_onion env s Hl Hb). reflexivity. }
  rewrite Ha. split; [exact Hdec|]. split; [reflexivity|]. split; [reflexivity|].
  split; [apply IsTor_routable; reflexivity|].
  unfold ToStringIP.
  replace (IsI2P _) with false by reflexivity.
  replace (IsTor _) with true by reflexivity.
  cbn [ip]. change (skipn 6 (pchOnionCat ++ DecodeBase32 s)) with (DecodeBase32 s).
  rewrite firstn_all2 by lia. rewrite Henc. reflexivity.
Qed.

Lemma onion_roundtrip_witness :
  ToStringIP offline_env (CNetAddr_of_string offline_env (L "abcdefghijklmnop" ++ L ".onion") false)
  = L "abcdefghijklmnop.onion".
Proof.
  apply (onion_roundtrip offline_env (L "abcdefghijklmnop") false); reflexivity.
Defined.

(** ** SplitHostPort *)

Lemma last_index_None (c : ascii) (s : str) : last_index c s = None -> ~ In c s.
Proof.
  induction s as [|a r IH]; intros H; [intros []|].
  simpl in H. destruct (last_index c r); [discriminate H|].
  destruct (Ascii.eqb a c) eqn:E; [discriminate H|].
  apply Ascii.eqb_neq in E. intros [Hin|Hin]; [contradiction | exact (IH eq_refl Hin)].
Qed.

Lemma last_index_split (c : ascii) (s : str) (k : nat) :
  last_index c s = Some k ->
  s = firstn k s ++ c :: skipn (S k) s /\ ~ In c (skipn (S k) s) /\ (k < length s)%nat.
Proof.
  revert k. induction s as [|a r IH]; intros k H; [discriminate H|].
  simpl in H. destruct (last_index c r) as [j|] eqn:Er.
  - injection H as <-. destruct (IH j eq_refl) as (Hs & Hn & Hl).
    cbn [firstn skipn app length]. split; [f_equal; exact Hs|]. split; [exact Hn | lia].
  - destruct (Ascii.eqb a c) eqn:E; [|discriminate H].
    injection H as <-. apply Ascii.eqb_eq in E. subst a.
    cbn [firstn skipn app length]. split; [reflexivity|].
    split; [apply last_index_None; exact Er | lia].
Qed.

Lemma to_int_small (v : Z) : - 2 ^ 31 <= v < 2 ^ 31 -> to_int v = v.
Proof.
  intros H. unfold to_int.
  change (2 ^ 31) with 2147483648 in *. change (2 ^ 32) with 4294967296.
  rewrite Z.mod_small by lia. lia.
Qed.

(** When [SplitHostPort] changes the port, the text after the last colon
    was read to its end by [strtol], and the new port is the value
    converted to [int], which lies in 1..65535. *)
Lemma fst_host_choice (c : bool) (q : Z) (x y : str) :
  fst (if c then (q, x) else (q, y)) = q.
Proof. destruct c; reflexivity. Qed.

Lemma SplitHostPort_port_value (s : str) (p : Z) :
  fst (SplitHostPort s p) <> p ->
  snd (strtol (skipn (Z.to_nat (find_last_of s ":" npos + 1)) s)) = []
  /\ fst (SplitHostPort s p)
     = to_int (fst (strtol (skipn (Z.to_nat (find_last_of s ":" npos + 1)) s)))
  /\ 0 < fst (SplitHostPort s p) < 65536.
Proof.
  unfold SplitHostPort.
  set (colon := find_last_of s ":" npos).
  set (cond := negb (colon =? npos) && _).
  destruct (strtol (skipn (Z.to_nat (colon + 1)) s)) as [v endp].
  cbn [fst snd].
  match goal with
  | |- context [let '(a, b) := ?E in _] => destruct E as [in1 port1] eqn:HE
  end.
  rewrite fst_host_choice. intros Hp.
  destruct cond; [|injection HE as _ <-; contradiction].
  destruct endp as [|e endp]; cbn [is_nil andb] in HE;
    [|injection HE as _ <-; contradiction].
  destruct (0 <=? to_int v); cbn [andb] in HE; [|injection HE as _ <-; contradiction].
  destruct ((0 <? to_int v) && (to_int v <? 65536)) eqn:Er;
    [|injection HE as _ <-; contradiction].
  injection HE as _ <-. apply andb_prop in Er. destruct Er as [E1 E2].
  apply Z.ltb_lt in E1, E2. repeat split; lia.
Qed.

(** A port text whose value fits an [int] and lies outside 1..65535 leaves
    the default port unchanged. *)
Lemma SplitHostPort_out_of_range_int (s : str) (p : Z) :
  let v := fst (strtol (skipn (Z.to_nat (find_last_of s ":" npos + 1)) s)) in
  - 2 ^ 31 <= v < 2 ^ 31 -> ~ (1 <= v <= 65535) ->
  fst (SplitHostPort s p) = p.
Proof.
  intros v Hfit Hout.
  destruct (Z.eq_dec (fst (SplitHostPort s p)) p) as [E|E]; [exact E|].
  exfalso. destruct (SplitHostPort_port_value s p E) as (_ & Hv & Hr).
  fold v in Hv. rewrite (to_int_small v Hfit) in Hv. lia.
Qed.

(** The port changes only if the last colon is the only colon, or what
    precedes it starts with [[] and ends with []]. *)
Lemma SplitHostPort_port_only_if (s : str) (p : Z) :
  size s <= SIZE_MAX ->
  fst (SplitHostPort s p) <> p ->
  exists pre post : str,
    s = pre ++ ":"%char :: post /\ ~ In ":"%char post
    /\ (~ In ":"%char pre \/ (at_ pre 0 = "["%char /\ last pre zero = "]"%char)).
Proof.
  intros Hsz Hp.
  assert (Hcond : negb (find_last_of s ":" npos =? npos)
                  && ((find_last_of s ":" npos =? 0)
                      || (negb (find_last_of s ":" npos =? npos)
                          && (Ascii.eqb (at_ s 0) "["
                              && Ascii.eqb (at_ s (find_last_of s ":" npos - 1)) "]"))
                      || negb (negb (find_last_of s ":" npos =? npos)
                               && negb (find_last_of s ":"
                                          (to_size_t (find_last_of s ":" npos - 1)) =? npos)))
                  = true).
  { match goal with |- ?c = true => destruct c eqn:E end; [reflexivity|].
    exfalso. apply Hp. unfold SplitHostPort. rewrite E. apply fst_host_choice. }
  clear Hp. apply andb_prop in Hcond. destruct Hcond as [Hhave Hcases].
  unfold SIZE_MAX in Hsz.
  assert (Hfull : find_last_of s ":" npos
                  = match last_index ":" s with Some k => Z.of_nat k | None => npos end).
  { unfold find_last_of, npos, SIZE_MAX.
    rewrite Z.min_r by (unfold size in *; lia).
    unfold size. rewrite Nat2Z.id, firstn_all. reflexivity. }
  rewrite Hfull in Hhave, Hcases.
  destruct (last_index ":" s) as [k|] eqn:Ek;
    [|rewrite Z.eqb_refl in Hhave; discriminate Hhave].
  destruct (last_index_split _ _ _ Ek) as (Hs & Hpost & Hk).
  exists (firstn k s), (skipn (S k) s). split; [exact Hs|]. split; [exact Hpost|].
  rewrite Hhave in Hcases. cbn [andb] in Hcases.
  apply orb_prop in Hcases. destruct Hcases as [Hcases|Hmulti].
  apply orb_prop in Hcases. destruct Hcases as [Hzero|Hbr].
  - apply Z.eqb_eq in Hzero. replace k with 0%nat by lia. left. intros [].
  - right. apply andb_prop in Hbr. destruct Hbr as [H0 H1].
    apply Ascii.eqb_eq in H0, H1.
    destruct k as [|k'].
    + exfalso. rewrite Hs in H0. cbn in H0. discriminate H0.
    + assert (Hlen : length (firstn (S k') s) = S k') by (rewrite length_firstn; lia).
      split.
      * rewrite Hs in H0. destruct (firstn (S k') s); [discriminate Hlen | exact H0].
      * rewrite <- nth_last, Hlen.
        unfold at_ in H1.
        replace (Z.of_nat (S k') - 1 <? 0) with false in H1 by (symmetry; apply Z.ltb_ge; lia).
        replace (Z.to_nat (Z.of_nat (S k') - 1)) with (S k' - 1)%nat in H1 by lia.
        rewrite <- H1. apply nth_firstn_lt. rewrite Hlen. lia.
  - left. apply negb_true_iff, negb_false_iff, Z.eqb_eq in Hmulti.
    destruct k as [|k']; [intros []|].
    unfold find_last_of in Hmulti.
    assert (Hup : Z.to_nat (Z.min (to_size_t (Z.of_nat (S k') - 1) + 1) (size s)) = S k').
    { unfold to_size_t. change (2 ^ 64) with 18446744073709551616 in *.
      rewrite Z.mod_small by (unfold size in Hsz; lia).
      unfold size. lia. }
    rewrite Hup in Hmulti.
    destruct (last_index ":" (firstn (S k') s)) as [j|] eqn:Ej.
    + exfalso. apply last_index_spec in Ej. destruct Ej as [Ej _].
      rewrite length_firstn in Ej. unfold npos, SIZE_MAX in Hmulti.
      change (2 ^ 64) with 18446744073709551616 in *. unfold size in Hsz. lia.
    + apply last_index_None. exact Ej.
Qed.

(** C4, the failing input. The port text 4294967376 is out of 1..65535;
    [strtol] returns it as a [long], the conversion to [int] leaves 80, and
    [SplitHostPort] replaces the default port 9377 by 80. *)
Theorem SplitHostPort_port_wraps :
  strtol (L "4294967376") = (4294967376, [])
  /\ to_int 4294967376 = 80
  /\ SplitHostPort (L "example.com:4294967376") 9377 = (80, L "example.com").
Proof. repeat split; vm_compute; reflexivity. Qed.

(** * Further properties of the file *)

(** ** Network names *)



(** ** ProxyRegistry *)

Lemma bytes_eqb_refl (l : list Z) : bytes_eqb l l = true.
Proof. apply bytes_eqb_eq. reflexivity. Qed.

(** X2. [SetProxy] with an invalid endpoint returns false and leaves the
    registry as it was. With a valid endpoint it returns true; [GetProxy]
    for that network then yields the endpoint, the entries of the other
    networks and the name proxy are untouched, and [IsProxy] recognises the
    endpoint's address. *)
Theorem SetProxy_GetProxy :
  forall (reg : NetEnv) (n : Network) (addrProxy : CService),
    (IsValid (addr addrProxy) = false -> SetProxy reg n addrProxy = (false, reg))
    /\ (IsValid (addr addrProxy) = true ->
        fst (SetProxy reg n addrProxy) = true
        /\ GetProxy (snd (SetProxy reg n addrProxy)) n = Some addrProxy
        /\ (forall m, m <> n ->
              GetProxy (snd (SetProxy reg n addrProxy)) m = GetProxy reg m)
        /\ GetNameProxy (snd (SetProxy reg n addrProxy)) = GetNameProxy reg
        /\ IsProxy (snd (SetProxy reg n addrProxy)) (addr addrProxy) = true).
Proof.
  intros reg n addrProxy. unfold SetProxy. split; intros Hv; rewrite Hv; cbn [negb].
  - reflexivity.
  - cbn [fst snd]. split; [reflexivity|]. split.
    + unfold GetProxy. cbn [proxyInfo].
      destruct (Network_eq_dec n n) as [_|Hn]; [|contradiction].
      rewrite Hv. reflexivity.
    + split.
      * intros m Hm. unfold GetProxy. cbn [proxyInfo].
        destruct (Network_eq_dec m n) as [E|_]; [contradiction | reflexivity].
      * split; [reflexivity|].
        unfold IsProxy. apply existsb_exists. exists n. split.
        -- destruct n; simpl; tauto.
        -- cbn [proxyInfo]. destruct (Network_eq_dec n n) as [_|Hn]; [|contradiction].
           rewrite !bytes_eqb_refl. reflexivity.
Qed.

Lemma SetProxy_GetProxy_witness :
  GetProxy (snd (SetProxy name_proxy_net NET_TOR {| addr := addr_127_0_0_1; port := 9050 |}))
    NET_TOR = Some {| addr := addr_127_0_0_1; port := 9050 |}
  /\ SetProxy name_proxy_net NET_TOR CService_default = (false, name_proxy_net).
Proof.
  split.
  - apply (proj2 (SetProxy_GetProxy name_proxy_net NET_TOR
                    {| addr := addr_127_0_0_1; port := 9050 |})). reflexivity.
  - apply (proj1 (SetProxy_GetProxy name_proxy_net NET_TOR CService_default)). reflexivity.
Defined.

(** X3. [SetNameProxy] with an invalid endpoint returns false and changes
    nothing. With a valid one, [HaveNameProxy] holds afterwards,
    [GetNameProxy] yields the endpoint, and no per-network proxy changes.
    In a registry where nothing was ever set, there is no name proxy and no
    proxy for any network. *)
Theorem SetNameProxy_GetNameProxy :
  forall (reg : NetEnv) (addrProxy : CService),
    (IsValid (addr addrProxy) = false -> SetNameProxy reg addrProxy = (false, reg))
    /\ (IsValid (addr addrProxy) = true ->
        fst (SetNameProxy reg addrProxy) = true
        /\ HaveNameProxy (snd (SetNameProxy reg addrProxy)) = true
        /\ GetNameProxy (snd (SetNameProxy reg addrProxy)) = Some addrProxy
        /\ forall m, GetProxy (snd (SetNameProxy reg addrProxy)) m = GetProxy reg m)
    /\ (fresh_registry reg ->
        HaveNameProxy reg = false /\ GetNameProxy reg = None
        /\ forall m, GetProxy reg m = None).
Proof.
  intros reg addrProxy. unfold SetNameProxy. split; [|split].
  - intros Hv. rewrite Hv. reflexivity.
  - intros Hv. rewrite Hv. cbn [negb fst snd].
    unfold HaveNameProxy, GetNameProxy, GetProxy. cbn [nameProxy proxyInfo].
    rewrite Hv. repeat split.
  - intros [Hp Hn]. unfold HaveNameProxy, GetNameProxy, GetProxy. rewrite Hn.
    repeat split. intros m. rewrite Hp. reflexivity.
Qed.

Lemma SetNameProxy_GetNameProxy_witness :
  HaveNameProxy
    (snd (SetNameProxy name_proxy_net {| addr := addr_8_8_8_8; port := 1080 |})) = true
  /\ SetNameProxy name_proxy_net zero_endpoint = (false, name_proxy_net)
  /\ (HaveNameProxy empty_net = false /\ GetNameProxy empty_net = None
      /\ forall m, GetProxy empty_net m = None).
Proof.
  split; [|split].
  - apply (proj1 (proj2 (SetNameProxy_GetNameProxy name_proxy_net
                           {| addr := addr_8_8_8_8; port := 1080 |}))). reflexivity.
  - apply (proj1 (SetNameProxy_GetNameProxy name_proxy_net zero_endpoint)). reflexivity.
  - apply (proj2 (proj2 (SetNameProxy_GetNameProxy empty_net CService_default))).
    split; reflexivity.
Defined.

(** X4. In a registry where nothing was ever set every table entry is the
    default endpoint, so [IsProxy] answers true for the all-zero address and
    false for every address whose 16-byte slot is not all zero. *)
Theorem IsProxy_fresh_registry :
  forall (reg : NetEnv) (a : CNetAddr),
    fresh_registry reg ->
    IsProxy reg Init = true
    /\ (ip a <> repeat 0 16 -> IsProxy reg a = false).
Proof.
  intros reg a [Hp _]. unfold IsProxy. split.
  - cbn [existsb]. rewrite (Hp NET_UNROUTABLE). reflexivity.
  - intros Hne.
    assert (E : bytes_eqb (ip a) (ip (addr CService_default)) = false).
    { destruct (bytes_eqb (ip a) (ip (addr CService_default))) eqn:E; [|reflexivity].
      apply bytes_eqb_eq in E. contradiction. }
    cbn [existsb]. rewrite !Hp, E. reflexivity.
Qed.

Lemma IsProxy_fresh_registry_witness :
  IsProxy empty_net Init = true /\ IsProxy empty_net addr_8_8_8_8 = false.
Proof.
  destruct (IsProxy_fresh_registry empty_net addr_8_8_8_8) as [H1 H2];
    [split; reflexivity|].
  split; [exact H1 | apply H2; discriminate].
Defined.

(** ** Comparison operators *)

Lemma memcmp_opp (p q : list Z) (n : nat) : memcmp q p n = CompOpp (memcmp p q n).
Proof.
  revert p q. induction n as [|n IH]; intros p q; [reflexivity|].
  simpl. rewrite (Z.compare_antisym (hd 0 p) (hd 0 q)).
  destruct (hd 0 p ?= hd 0 q); simpl; [apply IH | reflexivity | reflexivity].
Qed.

Lemma memcmp_Eq_firstn (p q : list Z) (n : nat) :
  (n <= length p)%nat -> (n <= length q)%nat ->
  (memcmp p q n = Eq <-> firstn n p = firstn n q).
Proof.
  revert p q. induction n as [|n IH]; intros p q Hp Hq; [simpl; tauto|].
  destruct p as [|x p]; [simpl in Hp; lia|]. destruct q as [|y q]; [simpl in Hq; lia|].
  simpl in Hp, Hq. cbn [memcmp hd tl firstn].
  destruct (x ?= y) eqn:E.
  - apply Z.compare_eq in E. subst y. rewrite IH by lia.
    split; intros H; [f_equal; exact H | injection H; auto].
  - split; [discriminate|]. intros H. injection H as H _. subst y.
    rewrite Z.compare_refl in E. discriminate E.
  - split; [discriminate|]. intros H. injection H as H _. subst y.
    rewrite Z.compare_refl in E. discriminate E.
Qed.

Lemma memcmp_Eq_trans (p q r : list Z) (n : nat) :
  memcmp p q n = Eq -> memcmp p r n = memcmp q r n.
Proof.
  revert p q r. induction n as [|n IH]; intros p q r H; [reflexivity|].
  simpl in *. destruct (hd 0 p ?= hd 0 q) eqn:E; try discriminate H.
  apply Z.compare_eq in E. rewrite E.
  destruct (hd 0 q ?= hd 0 r); [apply IH; exact H | reflexivity | reflexivity].
Qed.

Lemma memcmp_Lt_trans (p q r : list Z) (n : nat) :
  memcmp p q n = Lt -> memcmp q r n = Lt -> memcmp p r n = Lt.
Proof.
  revert p q r. induction n as [|n IH]; intros p q r H1 H2; [discriminate H1|].
  simpl in *.
  destruct (hd 0 p ?= hd 0 q) eqn:E1; try discriminate H1;
    destruct (hd 0 q ?= hd 0 r) eqn:E2; try discriminate H2.
  - apply Z.compare_eq in E1, E2. rewrite E1, E2, Z.compare_refl. eapply IH; eassumption.
  - apply Z.compare_eq in E1. rewrite E1, E2. reflexivity.
  - apply Z.compare_eq in E2. rewrite <- E2, E1. reflexivity.
  - rewrite Z.compare_lt_iff in E1, E2.
    assert (E : (hd 0 p ?= hd 0 r) = Lt) by (apply Z.compare_lt_iff; lia).
    rewrite E. reflexivity.
Qed.

Lemma wf_addr_eq (a b : CNetAddr) :
  wf_addr a -> wf_addr b -> (CNetAddr_eq a b = true <-> a = b).
Proof.
  intros [La Da] [Lb Db]. unfold CNetAddr_eq. split.
  - intros H. apply andb_prop in H. destruct H as [H1 H2].
    destruct (memcmp (ip a) (ip b) 16) eqn:E1; try discriminate H1.
    destruct (memcmp (i2pDest a) (i2pDest b) NATIVE_I2P_DESTINATION_SIZE) eqn:E2;
      try discriminate H2.
    apply memcmp_Eq_firstn in E1; [|lia|lia].
    apply memcmp_Eq_firstn in E2; [|lia|lia].
    rewrite <- La in E1 at 1. rewrite <- Lb in E1. rewrite !firstn_all in E1.
    rewrite <- Da in E2 at 1. rewrite <- Db in E2. rewrite !firstn_all in E2.
    destruct a, b. simpl in *. congruence.
  - intros <-.
    assert (E1 : memcmp (ip a) (ip a) 16 = Eq) by (apply memcmp_Eq_firstn; [lia|lia|reflexivity]).
    assert (E2 : memcmp (i2pDest a) (i2pDest a) NATIVE_I2P_DESTINATION_SIZE = Eq)
      by (apply memcmp_Eq_firstn; [lia|lia|reflexivity]).
    rewrite E1, E2. reflexivity.
Qed.

Lemma lex_lawful {A} (f g : A -> A -> comparison) :
  lawful f -> lawful g -> lawful (lex f g).
Proof.
  intros (Fo & Fe & Ft) (Go & Ge & Gtr). unfold lex. repeat split.
  - intros a b. rewrite (Fo a b). destruct (f a b); simpl; [apply Go | reflexivity | reflexivity].
  - intros a b c H. destruct (f a b) eqn:E; try discriminate H.
    rewrite (Fe a b c E). destruct (f b c); [apply Ge; exact H | reflexivity | reflexivity].
  - intros a b c H1 H2.
    destruct (f a b) eqn:E1; try discriminate H1;
      destruct (f b c) eqn:E2; try discriminate H2.
    + rewrite (Fe a b c E1), E2. eapply Gtr; eassumption.
    + rewrite (Fe a b c E1), E2. reflexivity.
    + assert (E : f a c = Lt).
      { assert (E3 : f c b = Eq) by (rewrite (Fo b c), E2; reflexivity).
        pose proof (Fe c b a E3) as E4.
        rewrite (Fo a b), E1 in E4. simpl in E4.
        rewrite (Fo c a), E4. reflexivity. }
      rewrite E. reflexivity.
    + rewrite (Ft a b c E1 E2). reflexivity.
Qed.

Lemma lawful_on {A B} (proj : A -> B) (cmp : B -> B -> comparison) :
  lawful cmp -> lawful (fun a b => cmp (proj a) (proj b)).
Proof.
  intros (O & E & T). repeat split; intros.
  - apply O.
  - apply E. assumption.
  - eapply T; eassumption.
Qed.

Lemma memcmp_lawful (n : nat) : lawful (fun p q => memcmp p q n).
Proof.
  repeat split; intros.
  - apply memcmp_opp.
  - apply memcmp_Eq_trans. assumption.
  - eapply memcmp_Lt_trans; eassumption.
Qed.

Lemma Zcompare_lawful : lawful Z.compare.
Proof.
  repeat split.
  - intros a b. apply Z.compare_antisym.
  - intros a b c H. apply Z.compare_eq in H. subst. reflexivity.
  - intros a b c H1 H2. rewrite Z.compare_lt_iff in *. lia.
Qed.

Lemma str_compare_lawful : lawful str_compare.
Proof.
  repeat split.
  - intros a. induction a as [|x a IH]; intros [|y b]; try reflexivity.
    simpl. rewrite (Z.compare_antisym (byte_of_char x) (byte_of_char y)).
    destruct (byte_of_char x ?= byte_of_char y); simpl; [apply IH | reflexivity | reflexivity].
  - intros a. induction a as [|x a IH]; intros [|y b] c H; try discriminate H;
      [reflexivity|].
    simpl in H. destruct (byte_of_char x ?= byte_of_char y) eqn:E; try discriminate H.
    apply Z.compare_eq in E. destruct c as [|z c]; [reflexivity|].
    simpl. rewrite E. destruct (byte_of_char y ?= byte_of_char z);
      [apply IH; exact H | reflexivity | reflexivity].
  - intros a. induction a as [|x a IH]; intros [|y b] [|z c] H1 H2;
      try discriminate H1; try discriminate H2; try reflexivity.
    simpl in *.
    destruct (byte_of_char x ?= byte_of_char y) eqn:E1; try discriminate H1;
      destruct (byte_of_char y ?= byte_of_char z) eqn:E2; try discriminate H2.
    + apply Z.compare_eq in E1, E2. rewrite E1, E2, Z.compare_refl. eapply IH; eassumption.
    + apply Z.compare_eq in E1. rewrite E1, E2. reflexivity.
    + apply Z.compare_eq in E2. rewrite <- E2, E1. reflexivity.
    + rewrite Z.compare_lt_iff in E1, E2.
      assert (E : (byte_of_char x ?= byte_of_char z) = Lt) by (apply Z.compare_lt_iff; lia).
      rewrite E. reflexivity.
Qed.

Lemma CNetAddr_cmp_lawful : lawful CNetAddr_cmp.
Proof.
  unfold CNetAddr_cmp. apply lex_lawful.
  - apply (lawful_on ip (fun p q => memcmp p q 16)), memcmp_lawful.
  - apply (lawful_on i2pDest (fun p q => memcmp p q NATIVE_I2P_DESTINATION_SIZE)),
      memcmp_lawful.
Qed.

(** X5. On addresses, [!=] is the negation of [==]; exactly one of
    [a < b], [a == b], [b < a] holds; [<] is transitive; and on well-formed
    addresses [==] holds exactly when slot and destination buffer are the
    same. So [<] is a strict total order fit for [std::set<CNetAddr>]. *)
Theorem CNetAddr_order :
  forall a b c : CNetAddr,
    CNetAddr_ne a b = negb (CNetAddr_eq a b)
    /\ ((CNetAddr_lt a b = true /\ CNetAddr_eq a b = false /\ CNetAddr_lt b a = false)
        \/ (CNetAddr_lt a b = false /\ CNetAddr_eq a b = true /\ CNetAddr_lt b a = false)
        \/ (CNetAddr_lt a b = false /\ CNetAddr_eq a b = false /\ CNetAddr_lt b a = true))
    /\ (CNetAddr_lt a b = true -> CNetAddr_lt b c = true -> CNetAddr_lt a c = true)
    /\ (wf_addr a -> wf_addr b -> (CNetAddr_eq a b = true <-> a = b)).
Proof.
  intros a b c.
  assert (Hops : forall x y : CNetAddr,
            CNetAddr_lt x y = is_Lt (CNetAddr_cmp x y)
            /\ CNetAddr_eq x y = is_Eq (CNetAddr_cmp x y)
            /\ CNetAddr_ne x y = negb (is_Eq (CNetAddr_cmp x y))).
  { intros x y. unfold CNetAddr_lt, CNetAddr_eq, CNetAddr_ne, CNetAddr_cmp, lex.
    destruct (memcmp (ip x) (ip y) 16);
      destruct (memcmp (i2pDest x) (i2pDest y) NATIVE_I2P_DESTINATION_SIZE);
      repeat split; reflexivity. }
  destruct (Hops a b) as (Lab & Eab & Nab).
  destruct (Hops b a) as (Lba & _ & _).
  destruct (Hops b c) as (Lbc & _ & _).
  destruct (Hops a c) as (Lac & _ & _).
  destruct CNetAddr_cmp_lawful as (O & E & T).
  split; [|split; [|split]].
  - rewrite Nab, Eab. reflexivity.
  - rewrite Lab, Eab, Lba, (O a b). destruct (CNetAddr_cmp a b); cbn; tauto.
  - rewrite Lab, Lbc, Lac. intros H1 H2.
    destruct (CNetAddr_cmp a b) eqn:E1; try discriminate H1.
    destruct (CNetAddr_cmp b c) eqn:E2; try discriminate H2.
    rewrite (T a b c E1 E2). reflexivity.
  - apply wf_addr_eq.
Qed.

Lemma CNetAddr_order_witness :
  CNetAddr_lt addr_1_2_3_4 addr_127_0_0_1 = true
  /\ (CNetAddr_eq addr_8_8_8_8 addr_8_8_8_8 = true <-> addr_8_8_8_8 = addr_8_8_8_8).
Proof.
  destruct (CNetAddr_order addr_1_2_3_4 addr_8_8_8_8 addr_127_0_0_1) as (_ & _ & Ht & _).
  destruct (CNetAddr_order addr_8_8_8_8 addr_8_8_8_8 addr_8_8_8_8) as (_ & _ & _ & He).
  split; [apply Ht; vm_compute; reflexivity | apply He; split; reflexivity].
Defined.

Lemma CService_cmp_lawful : lawful CService_cmp.
Proof.
  assert (Hn : lawful (lex (fun x y : CService => CNetAddr_cmp (addr x) (addr y))
                           (fun x y => port x ?= port y))).
  { apply lex_lawful.
    - apply (lawful_on addr CNetAddr_cmp), CNetAddr_cmp_lawful.
    - apply (lawful_on port Z.compare), Zcompare_lawful. }
  assert (Hs : lawful (fun x y : CService =>
                         str_compare (GetI2pDestination (addr x)) (GetI2pDestination (addr y)))).
  { apply (lawful_on (fun x => GetI2pDestination (addr x)) str_compare), str_compare_lawful. }
  destruct Hn as (No & Ne & Nt). destruct Hs as (So & Se & St).
  unfold CService_cmp. repeat split.
  - intros a b. destruct (IsNativeI2P (addr a)), (IsNativeI2P (addr b));
      [apply So | reflexivity | reflexivity | apply No].
  - intros a b c. destruct (IsNativeI2P (addr a)), (IsNativeI2P (addr b));
      try discriminate; intros H; destruct (IsNativeI2P (addr c)); try reflexivity.
    + apply Se. exact H.
    + apply Ne. exact H.
  - intros a b c.
    destruct (IsNativeI2P (addr a)), (IsNativeI2P (addr b)), (IsNativeI2P (addr c));
      try discriminate; try reflexivity; intros H1 H2.
    + eapply St; eassumption.
    + eapply Nt; eassumption.
Qed.

Lemma CService_ops_cmp (a b : CService) :
  CService_lt a b = is_Lt (CService_cmp a b)
  /\ CService_eq a b = is_Eq (CService_cmp a b)
  /\ CService_ne a b = negb (is_Eq (CService_cmp a b)).
Proof.
  unfold CService_lt, CService_eq, CService_ne, CService_cmp, lex, CNetAddr_cmp, lex,
    CNetAddr_lt, CNetAddr_eq, CNetAddr_ne.
  destruct (IsNativeI2P (addr a)), (IsNativeI2P (addr b)); try (repeat split; reflexivity).
  destruct (memcmp (ip (addr a)) (ip (addr b)) 16);
    destruct (memcmp (i2pDest (addr a)) (i2pDest (addr b)) NATIVE_I2P_DESTINATION_SIZE);
    simpl; rewrite ?Z.eqb_compare, ?Z.ltb_compare;
    destruct (port a ?= port b); repeat split; reflexivity.
Qed.

(** X6. On endpoints, [!=] is the negation of [==]; exactly one of
    [a < b], [a == b], [b < a] holds; [<] is transitive. Two endpoints with
    a native I2P destination are equal as soon as their destination buffers
    are, whatever their ports and address slots; and an endpoint without
    native destination is never equal to one with, and sorts before it. *)
Theorem CService_order :
  forall a b c : CService,
    CService_ne a b = negb (CService_eq a b)
    /\ ((CService_lt a b = true /\ CService_eq a b = false /\ CService_lt b a = false)
        \/ (CService_lt a b = false /\ CService_eq a b = true /\ CService_lt b a = false)
        \/ (CService_lt a b = false /\ CService_eq a b = false /\ CService_lt b a = true))
    /\ (CService_lt a b = true -> CService_lt b c = true -> CService_lt a c = true)
    /\ (IsNativeI2P (addr a) = true -> IsNativeI2P (addr b) = true ->
        i2pDest (addr a) = i2pDest (addr b) -> CService_eq a b = true)
    /\ (IsNativeI2P (addr a) = false -> IsNativeI2P (addr b) = true ->
        CService_eq a b = false /\ CService_lt a b = true /\ CService_lt b a = false).
Proof.
  intros a b c.
  destruct (CService_ops_cmp a b) as (Lab & Eab & Nab).
  destruct (CService_ops_cmp b a) as (Lba & _ & _).
  destruct (CService_ops_cmp b c) as (Lbc & _ & _).
  destruct (CService_ops_cmp a c) as (Lac & _ & _).
  destruct CService_cmp_lawful as (O & E & T).
  split; [|split; [|split; [|split]]].
  - rewrite Nab, Eab. reflexivity.
  - rewrite Lab, Eab, Lba, (O a b). destruct (CService_cmp a b); simpl; tauto.
  - rewrite Lab, Lbc, Lac. intros H1 H2.
    destruct (CService_cmp a b) eqn:E1; try discriminate H1.
    destruct (CService_cmp b c) eqn:E2; try discriminate H2.
    rewrite (T a b c E1 E2). reflexivity.
  - intros Ha Hb Hd. unfold CService_eq, GetI2pDestination. rewrite Ha, Hb, Hd.
    destruct str_compare_lawful as (So & _ & _).
    match goal with |- is_Eq (str_compare ?x ?x) = true =>
      pose proof (So x x) as Hx; destruct (str_compare x x); try discriminate Hx; reflexivity
    end.
  - intros Ha Hb. unfold CService_eq, CService_lt. rewrite Ha, Hb. repeat split.
Qed.

Lemma CService_order_witness :
  CService_lt {| addr := addr_1_2_3_4; port := 80 |} {| addr := addr_8_8_8_8; port := 443 |} = true
  /\ CService_eq {| addr := sample_i2p_addr; port := 1 |}
       {| addr := sample_i2p_addr; port := 2 |} = true
  /\ CService_lt {| addr := addr_8_8_8_8; port := 443 |}
       {| addr := sample_i2p_addr; port := 0 |} = true.
Proof.
  split; [|split].
  - apply (proj1 (proj2 (proj2 (CService_order
             {| addr := addr_1_2_3_4; port := 80 |} {| addr := addr_1_2_3_4; port := 443 |}
             {| addr := addr_8_8_8_8; port := 443 |}))));
      vm_compute; reflexivity.
  - apply (proj1 (proj2 (proj2 (proj2 (CService_order
             {| addr := sample_i2p_addr; port := 1 |} {| addr := sample_i2p_addr; port := 2 |}
             zero_endpoint)))));
      vm_compute; reflexivity.
  - apply (proj2 (proj2 (proj2 (proj2 (CService_order
             {| addr := addr_8_8_8_8; port := 443 |} {| addr := sample_i2p_addr; port := 0 |}
             zero_endpoint))))); vm_compute; reflexivity.
Defined.

(** ** Keys *)



(** ** SplitHostPort on what the display form writes *)

Lemma all_from_spec (P : Z -> bool) (fuel : nat) (k : Z) :
  all_from fuel k P = true -> forall i, k <= i < k + Z.of_nat fuel -> P i = true.
Proof.
  revert k. induction fuel as [|f IH]; intros k H i Hi; [lia|].
  cbn [all_from] in H. apply andb_prop in H. destruct H as [Hk Hr].
  destruct (Z.eq_dec i k) as [->|Hne]; [exact Hk|].
  apply (IH (k + 1) Hr). lia.
Qed.

(** The decimal text of a 16-bit number has at most five characters, is
    read back by [strtol] to its end, and holds no colon. *)
Lemma fmt_u_strtol (n : Z) :
  0 <= n < 65536 ->
  strtol (fmt_u n) = (n, []) /\ ~ In ":"%char (fmt_u n) /\ (length (fmt_u n) <= 5)%nat.
Proof.
  intros Hn.
  pose (P := fun k : Z =>
               let '(v, rest) := strtol (fmt_u k) in
               (v =? k) && is_nil rest && negb (existsb (Ascii.eqb ":") (fmt_u k))
               && (length (fmt_u k) <=? 5)%nat).
  assert (HP : P n = true).
  { apply (all_from_spec P (Z.to_nat 65536) 0); [vm_compute; reflexivity | lia]. }
  unfold P in HP. destruct (strtol (fmt_u n)) as [v rest].
  apply andb_prop in HP. destruct HP as [HP Hl]. apply Nat.leb_le in Hl.
  apply andb_prop in HP. destruct HP as [HP Hc]. apply andb_prop in HP. destruct HP as [Hv Hr].
  apply Z.eqb_eq in Hv. destruct rest; [|discriminate Hr]. subst v.
  split; [reflexivity|]. split; [|exact Hl].
  intros Hin. apply negb_true_iff in Hc.
  assert (Hex : existsb (Ascii.eqb ":") (fmt_u n) = true).
  { apply existsb_exists. exists ":"%char. split; [exact Hin | reflexivity]. }
  congruence.
Qed.

Lemma last_index_notin (c : ascii) (s : str) : ~ In c s -> last_index c s = None.
Proof.
  induction s as [|a r IH]; intros H; [reflexivity|].
  simpl. rewrite IH by (intros Hin; apply H; right; exact Hin).
  destruct (Ascii.eqb a c) eqn:E; [|reflexivity].
  apply Ascii.eqb_eq in E. exfalso. apply H. left. exact E.
Qed.

Lemma last_index_app (c : ascii) (pre post : str) :
  ~ In c post -> last_index c (pre ++ c :: post) = Some (length pre).
Proof.
  intros H. induction pre as [|a r IH].
  - simpl. rewrite (last_index_notin c post H), Ascii.eqb_refl. reflexivity.
  - simpl. rewrite IH. reflexivity.
Qed.

Lemma find_last_of_whole (s : str) (c : ascii) :
  size s <= SIZE_MAX ->
  find_last_of s c npos
  = match last_index c s with Some k => Z.of_nat k | None => npos end.
Proof.
  intros Hsz. unfold SIZE_MAX in Hsz. unfold find_last_of, npos, SIZE_MAX.
  rewrite Z.min_r by (unfold size in *; lia).
  unfold size. rewrite Nat2Z.id, firstn_all. reflexivity.
Qed.

Lemma SplitHostPort_join_gen (h d : str) (p v : Z) :
  size (h ++ ":"%char :: d) <= SIZE_MAX ->
  ~ In ":"%char d ->
  strtol d = (v, []) ->
  0 <= v < 2 ^ 31 ->
  (~ In ":"%char h \/ (at_ h 0 = "["%char /\ last h zero = "]"%char)) ->
  SplitHostPort (h ++ ":"%char :: d) p
  = ((if (0 <? v) && (v <? 65536) then v else p), strip_brackets h).
Proof.
  intros Hsz Hd Hstr Hv Hh.
  assert (Hlen : size (h ++ ":"%char :: d) = Z.of_nat (length h) + 1 + Z.of_nat (length d)).
  { unfold size. rewrite length_app. simpl length. lia. }
  assert (Hcolon : find_last_of (h ++ ":"%char :: d) ":" npos = Z.of_nat (length h)).
  { rewrite find_last_of_whole by exact Hsz. rewrite last_index_app by exact Hd. reflexivity. }
  unfold SIZE_MAX in Hsz. change (2 ^ 64) with 18446744073709551616 in Hsz.
  assert (Hhave : (Z.of_nat (length h) =? npos) = false).
  { apply Z.eqb_neq. unfold npos, SIZE_MAX. change (2 ^ 64) with 18446744073709551616. lia. }
  assert (Hskip : skipn (Z.to_nat (Z.of_nat (length h) + 1)) (h ++ ":"%char :: d) = d).
  { replace (Z.to_nat (Z.of_nat (length h) + 1)) with (length h + 1)%nat by lia.
    rewrite skipn_app, skipn_all2 by lia.
    replace (length h + 1 - length h)%nat with 1%nat by lia. reflexivity. }
  assert (Hsub : substr (h ++ ":"%char :: d) 0 (Z.of_nat (length h)) = h).
  { unfold substr. rewrite Nat2Z.id. change (Z.to_nat 0) with 0%nat. rewrite skipn_O.
    rewrite firstn_app, firstn_all, Nat.sub_diag, firstn_O. apply app_nil_r. }
  assert (Hcond :
            (Z.of_nat (length h) =? 0)
            || (negb (Z.of_nat (length h) =? npos)
                && (Ascii.eqb (at_ (h ++ ":"%char :: d) 0) "["
                    && Ascii.eqb (at_ (h ++ ":"%char :: d) (Z.of_nat (length h) - 1)) "]"))
            || negb (negb (Z.of_nat (length h) =? npos)
                     && negb (find_last_of (h ++ ":"%char :: d) ":"
                                (to_size_t (Z.of_nat (length h) - 1)) =? npos)) = true).
  { rewrite Hhave. cbn [negb andb].
    destruct h as [|c0 h'] ; [reflexivity|].
    replace (Z.of_nat (length (c0 :: h')) =? 0) with false
      by (symmetry; apply Z.eqb_neq; simpl length; lia).
    cbn [orb].
    destruct Hh as [Hno | [H0 Hl]].
    - apply orb_true_iff. right. apply negb_true_iff, negb_false_iff, Z.eqb_eq.
      unfold find_last_of.
      assert (Hup : Z.to_nat (Z.min (to_size_t (Z.of_nat (length (c0 :: h')) - 1) + 1)
                                    (size ((c0 :: h') ++ ":"%char :: d)))
                    = length (c0 :: h')).
      { unfold to_size_t. change (2 ^ 64) with 18446744073709551616.
        rewrite Z.mod_small by (simpl length in *; lia). lia. }
      rewrite Hup, firstn_app, firstn_all, Nat.sub_diag, firstn_O, app_nil_r.
      rewrite (last_index_notin _ _ Hno). reflexivity.
    - apply orb_true_iff. left. apply andb_true_iff. split.
      + apply Ascii.eqb_eq. exact H0.
      + apply Ascii.eqb_eq. unfold at_.
        replace (Z.of_nat (length (c0 :: h')) - 1 <? 0) with false
          by (symmetry; apply Z.ltb_ge; simpl length; lia).
        replace (Z.to_nat (Z.of_nat (length (c0 :: h')) - 1))
          with (length (c0 :: h') - 1)%nat by lia.
        rewrite app_nth1 by (simpl length; lia).
        rewrite nth_last. exact Hl. }
  unfold SplitHostPort. rewrite Hcolon, Hcond, Hhave. cbn [negb andb].
  rewrite Hskip, Hstr, Hsub.
  rewrite (to_int_small v) by lia. cbn [is_nil andb].
  replace (0 <=? v) with true by (symmetry; apply Z.leb_le; lia).
  unfold strip_brackets.
  destruct ((0 <? size h) && Ascii.eqb (at_ h 0) "[" && Ascii.eqb (at_ h (size h - 1)) "]");
    reflexivity.
Qed.

Lemma SplitHostPort_join_aux :
  forall (host : str) (n portDefault : Z),
    0 <= n < 65536 ->
    size host + 9 <= SIZE_MAX ->
    (~ In ":"%char host -> at_ host 0 <> "["%char ->
     SplitHostPort (host ++ L ":" ++ fmt_u n) portDefault
     = ((if n =? 0 then portDefault else n), host))
    /\ SplitHostPort (L "[" ++ host ++ L "]:" ++ fmt_u n) portDefault
       = ((if n =? 0 then portDefault else n), host).
Proof.
  intros host n p Hn Hsz.
  destruct (fmt_u_strtol n Hn) as (Hstr & Hnc & Hdl).
  assert (Hport : ((0 <? n) && (n <? 65536)) = negb (n =? 0)).
  { destruct (Z.eqb_spec n 0) as [->|Hne]; [reflexivity|].
    replace (0 <? n) with true by (symmetry; apply Z.ltb_lt; lia).
    replace (n <? 65536) with true by (symmetry; apply Z.ltb_lt; lia). reflexivity. }
  unfold SIZE_MAX in Hsz. change (2 ^ 64) with 18446744073709551616 in Hsz. unfold size in Hsz.
  split.
  - intros Hno H0. change (host ++ L ":" ++ fmt_u n) with (host ++ ":"%char :: fmt_u n).
    rewrite (SplitHostPort_join_gen host (fmt_u n) p n); try assumption.
    + rewrite Hport. f_equal; [destruct (n =? 0); reflexivity|].
      unfold strip_brackets.
      replace (Ascii.eqb (at_ host 0) "[") with false
        by (symmetry; apply Ascii.eqb_neq; exact H0).
      rewrite andb_false_r. reflexivity.
    + unfold size, SIZE_MAX. rewrite length_app. simpl length.
      change (2 ^ 64) with 18446744073709551616. lia.
    + change (2 ^ 31) with 2147483648. lia.
    + left. exact Hno.
  - change (L "[" ++ host ++ L "]:" ++ fmt_u n)
      with (("["%char :: host ++ ["]"%char]) ++ ":"%char :: fmt_u n)
      || replace (L "[" ++ host ++ L "]:" ++ fmt_u n)
           with (("["%char :: host ++ ["]"%char]) ++ ":"%char :: fmt_u n)
           by (simpl; rewrite <- app_assoc; reflexivity).
    rewrite (SplitHostPort_join_gen ("["%char :: host ++ ["]"%char]) (fmt_u n) p n);
      try assumption.
    + rewrite Hport. f_equal; [destruct (n =? 0); reflexivity|].
      unfold strip_brackets, at_, size.
      assert (Hl : length ("["%char :: host ++ ["]"%char]) = S (S (length host))).
      { simpl length. rewrite length_app. simpl length. lia. }
      rewrite Hl.
      replace (Z.of_nat (S (S (length host))) - 1 <? 0) with false
        by (symmetry; apply Z.ltb_ge; lia).
      replace (Z.to_nat (Z.of_nat (S (S (length host))) - 1)) with (S (length host)) by lia.
      replace (0 <? Z.of_nat (S (S (length host)))) with true
        by (symmetry; apply Z.ltb_lt; lia).
      cbn [Z.ltb Z.compare Z.to_nat nth andb].
      rewrite Ascii.eqb_refl.
      rewrite app_nth2 by lia. rewrite Nat.sub_diag. cbn [nth].
      rewrite Ascii.eqb_refl. cbn [andb].
      unfold substr. change (Z.to_nat 1) with 1%nat. cbn [skipn].
      replace (Z.to_nat (Z.of_nat (S (S (length host))) - 2)) with (length host) by lia.
      rewrite firstn_app, firstn_all, Nat.sub_diag, firstn_O. apply app_nil_r.
    + unfold size, SIZE_MAX. rewrite length_app. simpl length. rewrite length_app.
      simpl length. change (2 ^ 64) with 18446744073709551616. lia.
    + change (2 ^ 31) with 2147483648. lia.
    + right. split; [reflexivity|].
      change ("["%char :: host ++ ["]"%char]) with (["["%char] ++ host ++ ["]"%char]).
      rewrite app_assoc. apply last_last.
Qed.

(** X8. [SplitHostPort] inverts the two ways an endpoint is written. For a
    host without colon that does not start with [[], [host:port] gives back
    the host and the port; for any host, [[host]:port] does. A port text of
    [0] takes the host apart and leaves the default port. *)
Theorem SplitHostPort_join :
  forall (host : str) (n portDefault : Z),
    0 <= n < 65536 ->
    size host + 9 <= SIZE_MAX ->
    (~ In ":"%char host -> at_ host 0 <> "["%char ->
     SplitHostPort (host ++ L ":" ++ fmt_u n) portDefault
     = ((if n =? 0 then portDefault else n), host))
    /\ SplitHostPort (L "[" ++ host ++ L "]:" ++ fmt_u n) portDefault
       = ((if n =? 0 then portDefault else n), host).
Proof. exact SplitHostPort_join_aux. Qed.

Lemma SplitHostPort_join_witness :
  SplitHostPort (L "example.com" ++ L ":" ++ fmt_u 8333) 9377 = (8333, L "example.com")
  /\ SplitHostPort (L "[" ++ L "2001:db8::1" ++ L "]:" ++ fmt_u 0) 9377
     = (9377, L "2001:db8::1").
Proof.
  split.
  - apply (proj1 (SplitHostPort_join (L "example.com") 8333 9377 ltac:(lia)
                    ltac:(vm_compute; discriminate)));
      [vm_compute; intuition discriminate | discriminate].
  - apply (proj2 (SplitHostPort_join (L "2001:db8::1") 0 9377 ltac:(lia)
                    ltac:(vm_compute; discriminate))).
Defined.

Lemma b32_char_plain (v : Z) : b32_char v <> ":"%char /\ b32_char v <> "["%char.
Proof.
  unfold b32_char.
  destruct (nth_in_or_default (Z.to_nat v) base32_alphabet zero) as [Hin | ->];
    [|split; discriminate].
  revert Hin. generalize (nth (Z.to_nat v) base32_alphabet zero). intros c Hin.
  unfold base32_alphabet, L in Hin. simpl in Hin.
  repeat (destruct Hin as [<- | Hin]; [split; discriminate|]). contradiction.
Qed.

(** The display form of an onion address: 16 base32 characters and
    [.onion], without colon or bracket. *)
Lemma ToStringIP_onion_plain (env : Env) (a : CNetAddr) :
  IsTor a = true -> length (ip a) = 16%nat ->
  ~ In ":"%char (ToStringIP env a)
  /\ at_ (ToStringIP env a) 0 <> "["%char
  /\ length (ToStringIP env a) = 22%nat.
Proof.
  intros Ht Hl. pose proof (IsTor_ip a Ht) as Hip.
  unfold ToStringIP. rewrite Ht.
  replace (IsI2P a) with false by (unfold IsI2P; rewrite Hip; reflexivity).
  remember (skipn 6 (ip a)) as r eqn:Er. clear Er.
  rewrite Hip in Hl.
  destruct r as [|b0 [|b1 [|b2 [|b3 [|b4 [|b5 [|b6 [|b7 [|b8 [|b9 [|]]]]]]]]]]];
    try discriminate Hl.
  change (EncodeBase32 (firstn 10 [b0; b1; b2; b3; b4; b5; b6; b7; b8; b9]))
    with (map b32_char (vals8 (pack5 b0 b1 b2 b3 b4)
                        ++ vals8 (pack5 b5 b6 b7 b8 b9)) ++ []).
  rewrite app_nil_r. split; [|split].
  - intros Hin. apply in_app_or in Hin. destruct Hin as [Hin|Hin].
    + apply in_map_iff in Hin. destruct Hin as (v & Hv & _).
      exact (proj1 (b32_char_plain v) Hv).
    + unfold L in Hin. simpl in Hin. intuition discriminate.
  - unfold at_. cbn [Z.ltb Z.compare Z.to_nat]. unfold vals8 at 1. cbn [app map nth].
    exact (proj2 (b32_char_plain _)).
  - rewrite length_app, length_map, length_app. reflexivity.
Qed.

(** X9. Written with [ToStringIPPort] and read with [SplitHostPort], an
    endpoint comes back as its display address and its port. This holds for
    every endpoint that is not I2P and has a nonzero port, provided that an
    IPv4 display address holds no colon and no leading bracket; for an onion
    endpoint nothing needs to be provided. *)
Theorem ToStringIPPort_SplitHostPort :
  forall (env : Env) (s : CService) (portDefault : Z),
    0 < port s < 65536 ->
    (IsI2P (addr s) = false ->
     size (ToStringIP env (addr s)) + 9 <= SIZE_MAX ->
     (IsIPv4 (addr s) || IsTor (addr s) = true ->
      ~ In ":"%char (ToStringIP env (addr s)) /\ at_ (ToStringIP env (addr s)) 0 <> "["%char) ->
     SplitHostPort (ToStringIPPort env s) portDefault = (port s, ToStringIP env (addr s)))
    /\ (IsTor (addr s) = true -> length (ip (addr s)) = 16%nat ->
        SplitHostPort (ToStringIPPort env s) portDefault = (port s, ToStringIP env (addr s))).
Proof.
  intros env s p Hport.
  assert (Hgen : IsI2P (addr s) = false ->
     size (ToStringIP env (addr s)) + 9 <= SIZE_MAX ->
     (IsIPv4 (addr s) || IsTor (addr s) = true ->
      ~ In ":"%char (ToStringIP env (addr s)) /\ at_ (ToStringIP env (addr s)) 0 <> "["%char) ->
     SplitHostPort (ToStringIPPort env s) p = (port s, ToStringIP env (addr s))).
  { intros Hi Hsz Hplain. unfold ToStringIPPort, ToStringPort. rewrite Hi.
    destruct (SplitHostPort_join_aux (ToStringIP env (addr s)) (port s) p ltac:(lia) Hsz)
      as [Hj1 Hj2].
    replace (port s =? 0) with false in Hj1, Hj2 by (symmetry; apply Z.eqb_neq; lia).
    destruct (IsIPv4 (addr s) || IsTor (addr s)).
    - destruct (Hplain eq_refl) as [Hno H0]. exact (Hj1 Hno H0).
    - exact Hj2. }
  split; [exact Hgen|].
  intros Ht Hl. destruct (ToStringIP_onion_plain env (addr s) Ht Hl) as (Hno & H0 & Hlen).
  apply Hgen.
  - unfold IsI2P. rewrite (IsTor_ip _ Ht). reflexivity.
  - unfold size, SIZE_MAX. rewrite Hlen. vm_compute. discriminate.
  - intros _. split; assumption.
Qed.

Lemma ToStringIPPort_SplitHostPort_witness :
  SplitHostPort (ToStringIPPort offline_env {| addr := sample_onion_addr; port := 9377 |}) 0
  = (9377, L "abcdefghijklmnop.onion")
  /\ SplitHostPort (ToStringIPPort offline_env {| addr := addr_2a00_1451; port := 8333 |}) 0
     = (8333, ToStringIP offline_env addr_2a00_1451).
Proof.
  split.
  - apply (proj2 (ToStringIPPort_SplitHostPort offline_env
                    {| addr := sample_onion_addr; port := 9377 |} 0 ltac:(cbn [port]; lia)));
      reflexivity.
  - apply (proj1 (ToStringIPPort_SplitHostPort offline_env
                    {| addr := addr_2a00_1451; port := 8333 |} 0 ltac:(cbn [port]; lia))).
    + reflexivity.
    + vm_compute. discriminate.
    + intros H. vm_compute in H. discriminate H.
Defined.

(** ** Address families *)

Lemma IsI2P_ip (a : CNetAddr) :
  IsI2P a = true -> ip a = pchGarlicCat ++ skipn 6 (ip a).
Proof. intros H. apply (memeq_prefix (ip a) pchGarlicCat H). Qed.

Lemma family_partition_aux :
  forall a : CNetAddr,
    (IsIPv4 a = true /\ IsIPv6 a = false /\ IsTor a = false /\ IsI2P a = false)
    \/ (IsIPv4 a = false /\ IsIPv6 a = true /\ IsTor a = false /\ IsI2P a = false)
    \/ (IsIPv4 a = false /\ IsIPv6 a = false /\ IsTor a = true /\ IsI2P a = false)
    \/ (IsIPv4 a = false /\ IsIPv6 a = false /\ IsTor a = false /\ IsI2P a = true).
Proof.
  intros a. unfold IsIPv6.
  destruct (IsIPv4 a) eqn:E4.
  - left. pose proof (IsIPv4_ip a E4) as Hip.
    assert (Ht : IsTor a = false) by (unfold IsTor; rewrite Hip; reflexivity).
    assert (Hi : IsI2P a = false) by (unfold IsI2P; rewrite Hip; reflexivity).
    rewrite Ht, Hi. repeat split.
  - destruct (IsTor a) eqn:Et.
    + right. right. left. pose proof (IsTor_ip a Et) as Hip.
      assert (Hi : IsI2P a = false) by (unfold IsI2P; rewrite Hip; reflexivity).
      rewrite Hi. repeat split.
    + destruct (IsI2P a); [right; right; right | right; left]; repeat split.
Qed.

(** X10. The markers exclude each other: of [IsIPv4], [IsIPv6], [IsTor] and
    [IsI2P] exactly one holds for any address. *)
Theorem family_partition :
  forall a : CNetAddr,
    (IsIPv4 a = true /\ IsIPv6 a = false /\ IsTor a = false /\ IsI2P a = false)
    \/ (IsIPv4 a = false /\ IsIPv6 a = true /\ IsTor a = false /\ IsI2P a = false)
    \/ (IsIPv4 a = false /\ IsIPv6 a = false /\ IsTor a = true /\ IsI2P a = false)
    \/ (IsIPv4 a = false /\ IsIPv6 a = false /\ IsTor a = false /\ IsI2P a = true).
Proof. exact family_partition_aux. Qed.

(** X11. The family of an address is Unroutable exactly when the address
    is not routable; for a routable address it is the one whose marker the
    address carries. *)
Theorem GetNetwork_family :
  forall (env : Env) (a : CNetAddr),
    (GetNetwork env a = NET_UNROUTABLE <-> IsRoutable env a = false)
    /\ (IsRoutable env a = true ->
        (GetNetwork env a = NET_IPV4 <-> IsIPv4 a = true)
        /\ (GetNetwork env a = NET_IPV6 <-> IsIPv6 a = true)
        /\ (GetNetwork env a = NET_TOR <-> IsTor a = true)
        /\ (GetNetwork env a = NET_NATIVE_I2P <-> IsI2P a = true)).
Proof.
  intros env a. unfold GetNetwork.
  destruct (family_partition_aux a) as [H|[H|[H|H]]];
    destruct H as (H4 & H6 & Ht & Hi); rewrite H4, H6, Ht, Hi;
    destruct (IsRoutable env a); cbn [negb]; (split; [|intros Hr]);
    repeat split; intros; congruence.
Qed.

Lemma GetNetwork_family_witness :
  (GetNetwork offline_env sample_onion_addr = NET_TOR <-> IsTor sample_onion_addr = true)
  /\ GetNetwork offline_env addr_127_0_0_1 = NET_UNROUTABLE.
Proof.
  split.
  - apply (proj2 (GetNetwork_family offline_env sample_onion_addr)). reflexivity.
  - apply (proj1 (GetNetwork_family offline_env addr_127_0_0_1)). reflexivity.
Defined.

(** ** Unroutable addresses *)

(** X12. An address that is not routable has family Unroutable, scores
    [REACH_UNREACHABLE] against every partner and, unless it carries the
    I2P marker, falls into the one-byte group of all unroutable addresses.
    A documentation address (2001:db8::/32) is never valid, hence one of
    these. *)
Theorem unroutable_collapse :
  forall (env : Env) (a : CNetAddr),
    (IsRoutable env a = false ->
     GetNetwork env a = NET_UNROUTABLE
     /\ (forall paddrPartner, GetReachabilityFrom env a paddrPartner = REACH_UNREACHABLE)
     /\ (IsI2P a = false -> GetGroup env a = [Network_code NET_UNROUTABLE]))
    /\ (IsRFC3849 a = true -> IsValid a = false /\ IsRoutable env a = false).
Proof.
  intros env a. split.
  - intros Hr. split; [|split].
    + unfold GetNetwork. rewrite Hr. reflexivity.
    + intros p. unfold GetReachabilityFrom. rewrite Hr. reflexivity.
    + intros Hi. unfold GetGroup. rewrite Hi, Hr. cbn [negb].
      destruct (IsLocal env a); reflexivity.
  - intros Hd.
    assert (Hv : IsValid a = false).
    { assert (Hi : IsI2P a = false).
      { destruct (IsI2P a) eqn:Hi; [|reflexivity]. exfalso.
        apply IsI2P_ip in Hi. unfold IsRFC3849, GetByte in Hd. rewrite Hi in Hd.
        discriminate Hd. }
      unfold IsValid. rewrite Hi, Hd.
      destruct (memeq (ip a) (skipn 3 pchIPv4) 9); [reflexivity|].
      destruct (memeq (ip a) (repeat 0 16) 16); reflexivity. }
    split; [exact Hv|]. unfold IsRoutable. rewrite Hv. reflexivity.
Qed.

Lemma unroutable_collapse_witness :
  GetGroup offline_env addr_link_local = [Network_code NET_UNROUTABLE]
  /\ IsRoutable offline_env addr_doc = false.
Proof.
  split.
  - apply (proj1 (unroutable_collapse offline_env addr_link_local)); reflexivity.
  - apply (proj2 (unroutable_collapse offline_env addr_doc)). reflexivity.
Defined.

(** ** Groups *)

(** The group of a routable address without I2P marker, class by class. *)
Lemma GetGroup_by_class (env : Env) (a : CNetAddr) :
  IsRoutable env a = true -> IsI2P a = false ->
  GetGroup env a =
    if IsIPv4 a || IsRFC6145 a || IsRFC6052 a then
      [Network_code NET_IPV4; GetByte a 3; GetByte a 2]
    else if IsRFC3964 a then [Network_code NET_IPV4; GetByte a 13; GetByte a 12]
    else if IsRFC4380 a then
      [Network_code NET_IPV4; Z.lxor (GetByte a 3) 0xFF; Z.lxor (GetByte a 2) 0xFF]
    else if IsTor a then [Network_code NET_TOR; Z.lor (GetByte a 9) 15]
    else if IsHeNet a then
      [Network_code NET_IPV6; GetByte a 15; GetByte a 14; GetByte a 13; GetByte a 12;
       Z.lor (GetByte a 11) 15]
    else [Network_code NET_IPV6; GetByte a 15; GetByte a 14; GetByte a 13; GetByte a 12].
Proof.
  intros Hr Hi. unfold GetGroup, IsHeNet.
  rewrite Hi, Hr, (IsRoutable_not_local env a Hr). cbn [negb].
  destruct (IsIPv4 a || IsRFC6145 a || IsRFC6052 a); [reflexivity|].
  destruct (IsRFC3964 a); [reflexivity|].
  destruct (IsRFC4380 a); [reflexivity|].
  destruct (IsTor a); [reflexivity|].
  destruct ((GetByte a 15 =? 32) && (GetByte a 14 =? 1) && (GetByte a 13 =? 4)
            && (GetByte a 12 =? 112)); reflexivity.
Qed.

(** X13. Routable IPv4 addresses are grouped by their /16: the group is
    the IPv4 class byte and the two high octets, so two of them share a
    group exactly when they share the first two octets. *)
Theorem ipv4_group_slash16 :
  forall (env : Env) (a b : CNetAddr),
    IsIPv4 a = true -> IsIPv4 b = true ->
    IsRoutable env a = true -> IsRoutable env b = true ->
    GetGroup env a = [Network_code NET_IPV4; GetByte a 3; GetByte a 2]
    /\ (GetGroup env a = GetGroup env b
        <-> GetByte a 3 = GetByte b 3 /\ GetByte a 2 = GetByte b 2).
Proof.
  intros env a b Ha Hb Ra Rb.
  destruct (family_partition_aux a) as [H|[H|[H|H]]]; destruct H as (H4 & _ & _ & Hi);
    try congruence.
  destruct (family_partition_aux b) as [H|[H|[H|H]]]; destruct H as (H4' & _ & _ & Hi');
    try congruence.
  rewrite (GetGroup_by_class env a Ra Hi), (GetGroup_by_class env b Rb Hi'), Ha, Hb.
  cbn [orb]. split; [reflexivity|]. split; intros H; [injection H; auto|].
  destruct H as [-> ->]. reflexivity.
Qed.

Lemma ipv4_group_slash16_witness :
  GetGroup offline_env addr_8_8_8_8 = [Network_code NET_IPV4; 8; 8]
  /\ GetGroup offline_env addr_8_8_8_8 <> GetGroup offline_env addr_1_2_3_4.
Proof.
  destruct (ipv4_group_slash16 offline_env addr_8_8_8_8 addr_1_2_3_4
              eq_refl eq_refl eq_refl eq_refl) as [Hg Hiff].
  split; [exact Hg|]. intros H. apply Hiff in H. destruct H as [H _]. discriminate H.
Defined.

(** X14. A routable 6to4, Teredo or translated (RFC 6052, RFC 6145)
    address is grouped with the IPv4 address it carries: whenever that IPv4
    address is routable too, both have the same group. *)
Theorem tunnelled_group :
  forall (env : Env) (a : CNetAddr),
    length (ip a) = 16%nat ->
    IsRoutable env a = true ->
    (IsRFC3964 a = true -> IsRoutable env (embedded_6to4 a) = true ->
     GetGroup env a = GetGroup env (embedded_6to4 a))
    /\ (IsRFC4380 a = true -> IsRoutable env (embedded_teredo a) = true ->
        GetGroup env a = GetGroup env (embedded_teredo a))
    /\ (IsRFC6052 a || IsRFC6145 a = true -> IsRoutable env (embedded_translated a) = true ->
        GetGroup env a = GetGroup env (embedded_translated a)).
Proof.
  intros env [ipa d] Hl Hr. cbn [ip] in Hl.
  destruct ipa as [|b0 [|b1 [|b2 [|b3 [|b4 [|b5 [|b6 [|b7 [|b8 [|b9 [|b10 [|b11 [|b12
        [|b13 [|b14 [|b15 [|]]]]]]]]]]]]]]]]]; try discriminate Hl. clear Hl.
  split; [|split].
  - intros H He. unfold IsRFC3964, GetByte in H. cbn [ip nth Nat.sub] in H.
    apply andb_prop in H. destruct H as [E0 E1]. apply Z.eqb_eq in E0, E1. subst b0 b1.
    rewrite (GetGroup_by_class env _ Hr eq_refl), (GetGroup_by_class env _ He eq_refl).
    reflexivity.
  - intros H He. unfold IsRFC4380, GetByte in H. cbn [ip nth Nat.sub] in H.
    repeat (apply andb_prop in H; destruct H as [H ?]).
    repeat match goal with E : (_ =? _) = true |- _ => apply Z.eqb_eq in E end.
    subst b0 b1 b2 b3.
    rewrite (GetGroup_by_class env _ Hr eq_refl), (GetGroup_by_class env _ He eq_refl).
    reflexivity.
  - intros H He.
    assert (Hi : IsI2P {| ip := [b0; b1; b2; b3; b4; b5; b6; b7; b8; b9; b10; b11; b12; b13;
                                 b14; b15]; i2pDest := d |} = false).
    { apply orb_prop in H. destruct H as [H|H].
      - apply (memeq_prefix _ pchRFC6052) in H. cbn [ip] in H. injection H as -> -> _.
        reflexivity.
      - apply (memeq_prefix _ pchRFC6145) in H. cbn [ip] in H. injection H as -> -> _.
        reflexivity. }
    rewrite (GetGroup_by_class env _ Hr Hi), (GetGroup_by_class env _ He eq_refl).
    rewrite orb_comm in H. rewrite <- orb_assoc, H, orb_true_r. reflexivity.
Qed.

Lemma tunnelled_group_witness :
  GetGroup offline_env addr_6to4_8_8 = GetGroup offline_env addr_8_8_8_8
  /\ GetGroup offline_env addr_teredo_8_8 = GetGroup offline_env addr_8_8_8_8
  /\ GetGroup offline_env addr_nat64_8_8 = GetGroup offline_env addr_8_8_8_8.
Proof.
  split; [|split].
  - rewrite (proj1 (tunnelled_group offline_env addr_6to4_8_8 eq_refl eq_refl));
      reflexivity.
  - rewrite (proj1 (proj2 (tunnelled_group offline_env addr_teredo_8_8 eq_refl eq_refl)));
      reflexivity.
  - rewrite (proj2 (proj2 (tunnelled_group offline_env addr_nat64_8_8 eq_refl eq_refl)));
      reflexivity.
Defined.

(** X15. Onion addresses fall into at most sixteen groups: the group of an
    onion address is the Tor class byte and one byte made of the top four
    bits of the first payload byte, the low four bits set. *)
Theorem onion_group :
  forall (env : Env) (a : CNetAddr),
    IsTor a = true ->
    0 <= nth 6 (ip a) 0 < 256 ->
    GetGroup env a = [Network_code NET_TOR; 16 * (nth 6 (ip a) 0 / 16) + 15].
Proof.
  intros env a Ht Hb.
  destruct (IsTor_routable env a Ht) as (Hr & _ & H4380).
  destruct (family_partition_aux a) as [H|[H|[H|H]]]; destruct H as (H4 & _ & Ht' & Hi);
    try congruence.
  pose proof (IsTor_ip a Ht) as Hip.
  rewrite (GetGroup_by_class env a Hr Hi), H4, H4380, Ht.
  replace (IsRFC6145 a) with false by (unfold IsRFC6145; rewrite Hip; reflexivity).
  replace (IsRFC6052 a) with false by (unfold IsRFC6052; rewrite Hip; reflexivity).
  replace (IsRFC3964 a) with false by (unfold IsRFC3964, GetByte; rewrite Hip; reflexivity).
  cbn [orb]. unfold GetByte. change (15 - 9)%nat with 6%nat. f_equal. f_equal.
  apply Z.eqb_eq.
  apply (forallb_bytes (fun b => Z.lor b 15 =? 16 * (b / 16) + 15));
    [vm_compute; reflexivity | exact Hb].
Qed.

Lemma onion_group_witness :
  GetGroup offline_env sample_onion_addr = [Network_code NET_TOR; 15].
Proof.
  apply (onion_group offline_env sample_onion_addr); [reflexivity | change (0 <= 0 < 256); lia].
Defined.

(** ** Reachability *)

(** X16. A routable IPv4 self scores [REACH_IPV4] against every partner,
    the null partner and unroutable partners included, except against an
    I2P partner, where it scores [REACH_UNREACHABLE]. *)
Theorem reachability_ipv4_self :
  forall (env : Env) (self : CNetAddr) (paddrPartner : option CNetAddr),
    IsRoutable env self = true ->
    GetNetwork env self = NET_IPV4 ->
    GetReachabilityFrom env self paddrPartner =
      match GetExtNetwork env paddrPartner with
      | Net NET_NATIVE_I2P => REACH_UNREACHABLE
      | _ => REACH_IPV4
      end.
Proof.
  intros env self p Hr Hn.
  destruct (GetNetwork_IPV4_inv env self Hn) as [_ H4].
  unfold GetReachabilityFrom. rewrite Hr. cbn [negb].
  unfold GetExtNetwork at 1. rewrite (IsIPv4_not_RFC4380 self H4), Hn.
  destruct (GetExtNetwork env p) as [[]| |]; reflexivity.
Qed.

Lemma reachability_ipv4_self_witness :
  GetReachabilityFrom offline_env addr_8_8_8_8 None = REACH_IPV4
  /\ GetReachabilityFrom offline_env addr_8_8_8_8 (Some sample_onion_addr) = REACH_IPV4.
Proof.
  split.
  - apply (reachability_ipv4_self offline_env addr_8_8_8_8 None); reflexivity.
  - apply (reachability_ipv4_self offline_env addr_8_8_8_8 (Some sample_onion_addr));
      reflexivity.
Defined.

(** X17. The two ends of the scale. The score is [REACH_UNREACHABLE]
    exactly when self is not routable, or the partner is an I2P address and
    self is not. The score is [REACH_PRIVATE] exactly when self is routable
    and is a Tor address facing a Tor, null or unroutable partner, or an I2P
    address facing an I2P, null or unroutable partner. *)
Theorem reachability_extremes :
  forall (env : Env) (self : CNetAddr) (paddrPartner : option CNetAddr),
    (GetReachabilityFrom env self paddrPartner = REACH_UNREACHABLE
     <-> IsRoutable env self = false
         \/ (GetExtNetwork env paddrPartner = Net NET_NATIVE_I2P
             /\ GetExtNetwork env (Some self) <> Net NET_NATIVE_I2P))
    /\ (GetReachabilityFrom env self paddrPartner = REACH_PRIVATE
        <-> IsRoutable env self = true
            /\ ((GetExtNetwork env (Some self) = Net NET_TOR
                 /\ (GetExtNetwork env paddrPartner = Net NET_TOR
                     \/ GetExtNetwork env paddrPartner = NET_UNKNOWN
                     \/ GetExtNetwork env paddrPartner = Net NET_UNROUTABLE))
                \/ (GetExtNetwork env (Some self) = Net NET_NATIVE_I2P
                    /\ (GetExtNetwork env paddrPartner = Net NET_NATIVE_I2P
                        \/ GetExtNetwork env paddrPartner = NET_UNKNOWN
                        \/ GetExtNetwork env paddrPartner = Net NET_UNROUTABLE)))).
Proof.
  intros env self p. unfold GetReachabilityFrom.
  destruct (IsRoutable env self); cbn [negb].
  - destruct (GetExtNetwork env (Some self)) as [[]| |];
      destruct (GetExtNetwork env p) as [[]| |];
      destruct (IsRFC3964 self || IsRFC6052 self || IsRFC6145 self);
      cbn [reach_switch];
      (split; split; intros H;
       repeat match goal with
              | H : _ /\ _ |- _ => destruct H
              | H : _ \/ _ |- _ => destruct H
              end;
       try discriminate; try congruence; try reflexivity;
       try (split; [reflexivity|]); try (right; split; [reflexivity | discriminate]);
       try (left; split; [reflexivity|]; tauto);
       try (right; split; [reflexivity|]; tauto)).
  - split; split; intros H; try reflexivity; try discriminate; try tauto.
    destruct H as [H _]. discriminate H.
Qed.

Lemma reachability_extremes_witness :
  GetReachabilityFrom offline_env addr_8_8_8_8 (Some sample_i2p_addr) = REACH_UNREACHABLE
  /\ GetReachabilityFrom offline_env sample_onion_addr None = REACH_PRIVATE.
Proof.
  split.
  - apply (proj1 (reachability_extremes offline_env addr_8_8_8_8 (Some sample_i2p_addr))).
    right. split; [vm_compute; reflexivity | vm_compute; discriminate].
  - apply (proj2 (reachability_extremes offline_env sample_onion_addr None)).
    split; [reflexivity|]. left. split; [reflexivity|]. right. left. reflexivity.
Defined.

(** ** SetI2pDestination *)

Lemma char_byte_roundtrip (s : str) : map char_of_byte (map byte_of_char s) = s.
Proof.
  induction s as [|c r IH]; [reflexivity|].
  simpl. rewrite IH. f_equal. unfold char_of_byte, byte_of_char.
  rewrite Nat2Z.id. apply ascii_nat_embedding.
Qed.

Lemma byte_of_char_inj (s t : str) : map byte_of_char s = map byte_of_char t -> s = t.
Proof.
  intros H. rewrite <- (char_byte_roundtrip s), <- (char_byte_roundtrip t), H. reflexivity.
Qed.

Lemma memcpy_whole (dst src : list Z) :
  length src = length dst -> memcpy dst 0 src (length dst) = src.
Proof.
  intros H. unfold memcpy. cbn [firstn app Nat.add].
  rewrite <- H at 1. rewrite firstn_all, skipn_all. apply app_nil_r.
Qed.

(** X18. [SetI2pDestination] succeeds exactly on a string of the full
    destination size that ends in [AAAA]. On success the object carries the
    I2P marker over a zeroed slot and is a valid native I2P address;
    [GetI2pDestination] then gives the string back when its first byte is
    not NUL, and the empty string when it is. On the empty string the call
    fails, zeroes the destination and keeps the slot; on any other string
    the slot becomes the I2P marker even when the call fails. *)
Theorem SetI2pDestination_roundtrip :
  forall (this : CNetAddr) (sDestination : str),
    (fst (SetI2pDestination this sDestination) = true
     <-> length sDestination = NATIVE_I2P_DESTINATION_SIZE
         /\ skipn (NATIVE_I2P_DESTINATION_SIZE - 4) sDestination = L "AAAA")
    /\ (fst (SetI2pDestination this sDestination) = true ->
        ip (snd (SetI2pDestination this sDestination)) = pchGarlicCat ++ repeat 0 10
        /\ i2pDest (snd (SetI2pDestination this sDestination)) = map byte_of_char sDestination
        /\ IsI2P (snd (SetI2pDestination this sDestination)) = true
        /\ IsValid (snd (SetI2pDestination this sDestination)) = true
        /\ GetI2pDestination (snd (SetI2pDestination this sDestination))
           = if Ascii.eqb (hd zero sDestination) zero then [] else sDestination)
    /\ SetI2pDestination this []
       = (false, {| ip := ip this; i2pDest := repeat 0 NATIVE_I2P_DESTINATION_SIZE |})
    /\ (sDestination <> [] -> IsI2P (snd (SetI2pDestination this sDestination)) = true).
Proof.
  intros this d.
  assert (Hne : d <> [] -> IsI2P (snd (SetI2pDestination this d)) = true).
  { intros Hd. unfold SetI2pDestination. destruct d as [|c r]; [contradiction|].
    reflexivity. }
  assert (Hfull : length d = NATIVE_I2P_DESTINATION_SIZE ->
                  snd (SetI2pDestination this d)
                  = {| ip := pchGarlicCat ++ repeat 0 10; i2pDest := map byte_of_char d |}).
  { intros Hl. unfold SetI2pDestination. rewrite Hl.
    change (negb (NATIVE_I2P_DESTINATION_SIZE =? 0)%nat) with true.
    rewrite Nat.ltb_irrefl. cbn [snd ip i2pDest Init].
    f_equal.
    rewrite <- (repeat_length 0 NATIVE_I2P_DESTINATION_SIZE) at 2.
    apply memcpy_whole. rewrite length_map, repeat_length. exact Hl. }
  assert (Hnative : length d = NATIVE_I2P_DESTINATION_SIZE ->
                    (IsNativeI2P (snd (SetI2pDestination this d)) = true
                     <-> skipn (NATIVE_I2P_DESTINATION_SIZE - 4) d = L "AAAA")).
  { intros Hl. rewrite (Hfull Hl). unfold IsNativeI2P, memeq. cbn [i2pDest].
    rewrite skipn_map.
    assert (Hl4 : length (skipn (NATIVE_I2P_DESTINATION_SIZE - 4) d) = 4%nat).
    { rewrite length_skipn, Hl. reflexivity. }
    rewrite firstn_all2 by (rewrite length_map; lia).
    change (firstn 4 pchAAAA) with (map byte_of_char (L "AAAA")).
    rewrite bytes_eqb_eq. split; [apply byte_of_char_inj | intros ->; reflexivity]. }
  assert (Hres : fst (SetI2pDestination this d)
                 = (length d =? NATIVE_I2P_DESTINATION_SIZE)%nat
                   && IsNativeI2P (snd (SetI2pDestination this d))) by reflexivity.
  split; [|split; [|split]].
  - rewrite Hres. split.
    + intros H. apply andb_prop in H. destruct H as [Hl Hn]. apply Nat.eqb_eq in Hl.
      split; [exact Hl | apply (Hnative Hl); exact Hn].
    + intros [Hl Hs]. rewrite (proj2 (Hnative Hl) Hs), Hl, Nat.eqb_refl. reflexivity.
  - intros H. rewrite Hres in H. apply andb_prop in H. destruct H as [Hl Hn].
    apply Nat.eqb_eq in Hl.
    assert (Hi : IsI2P (snd (SetI2pDestination this d)) = true).
    { apply Hne. intros ->. discriminate Hl. }
    split; [rewrite (Hfull Hl); reflexivity|].
    split; [rewrite (Hfull Hl); reflexivity|].
    split; [exact Hi|].
    split; [unfold IsValid; rewrite Hi; exact Hn|].
    rewrite (Hfull Hl). unfold GetI2pDestination. cbn [i2pDest].
    destruct (Ascii.eqb_spec (hd zero d) zero) as [Hhd|Hhd].
    + destruct d as [|c r]; [discriminate Hl|]. cbn [map nth hd] in *. subst c.
      reflexivity.
    + assert (H0 : (nth 0 (map byte_of_char d) 0 =? 0) = false).
      { destruct d as [|c r]; [discriminate Hl|]. cbn [map nth hd] in *.
        apply Z.eqb_neq. intros E. apply Hhd.
        rewrite <- (ascii_nat_embedding c). unfold byte_of_char in E.
        replace (nat_of_ascii c) with 0%nat by lia. reflexivity. }
      rewrite H0. cbn [negb].
      rewrite firstn_all2 by (rewrite length_map; lia). apply char_byte_roundtrip.
  - reflexivity.
  - exact Hne.
Qed.

Lemma SetI2pDestination_roundtrip_witness :
  GetI2pDestination (snd (SetI2pDestination addr_8_8_8_8 sample_i2p_destination))
  = sample_i2p_destination
  /\ (fst (SetI2pDestination addr_8_8_8_8 nul_i2p_destination) = true
      /\ GetI2pDestination (snd (SetI2pDestination addr_8_8_8_8 nul_i2p_destination)) = [])
  /\ IsI2P (snd (SetI2pDestination addr_8_8_8_8 (L "short"))) = true.
Proof.
  split; [|split; [split|]].
  - apply (proj2 (proj2 (proj2 (proj2
             (proj1 (proj2 (SetI2pDestination_roundtrip addr_8_8_8_8 sample_i2p_destination))
                    ltac:(vm_compute; reflexivity)))))).
  - vm_compute; reflexivity.
  - apply (proj2 (proj2 (proj2 (proj2
             (proj1 (proj2 (SetI2pDestination_roundtrip addr_8_8_8_8 nul_i2p_destination))
                    ltac:(vm_compute; reflexivity)))))).
  - apply (proj2 (proj2 (proj2 (SetI2pDestination_roundtrip addr_8_8_8_8 (L "short"))))).
    discriminate.
Defined.

(** ** Socks5Dialer on the wire *)

Lemma send_spec (s s1 : Socket) (buf : list Z) (ret : Z) :
  send s buf = (ret, s1) ->
  sent s1 = sent s ++ [firstn (Z.to_nat ret) buf] /\ closed s1 = closed s.
Proof.
  unfold send. destruct (send_results s) as [|[|n] r]; intros H; injection H as <- <-;
    split; reflexivity.
Qed.

Lemma recv_spec (s s1 : Socket) (len r : Z) (buf : list Z) :
  recv s len = (r, buf, s1) ->
  sent s1 = sent s /\ closed s1 = closed s /\ (0 <= len -> -1 <= r).
Proof.
  unfold recv. destruct (incoming s) as [|[bs|] rest].
  - intros H. injection H as <- <- <-. repeat split. lia.
  - destruct (Z.of_nat (length bs) <=? len) eqn:E; intros H; injection H as <- <- <-;
      repeat split; lia.
  - intros H. injection H as <- <- <-. repeat split. lia.
Qed.

Lemma socks5_bound_address_ok (atyp : Z) (s s' : Socket) :
  socks5_bound_address atyp s = (Ok, s') -> sent s' = sent s /\ closed s' = closed s.
Proof.
  unfold socks5_bound_address, fail_close.
  assert (Hfin : forall (ret : bool) (s1 : Socket),
            (if ret then (Err "Error reading from proxy", closesocket s1)
             else let '(r, _, s2) := recv s1 2 in
                  if negb (r =? 2) then (Err "Error reading from proxy", closesocket s2)
                  else (Ok, s2)) = (Ok, s') ->
            sent s' = sent s1 /\ closed s' = closed s1).
  { intros ret s1. destruct ret; [discriminate|].
    destruct (recv s1 2) as [[r b] s2] eqn:R. destruct (negb (r =? 2)); [discriminate|].
    intros H. injection H as <-. destruct (recv_spec _ _ _ _ _ R) as (A & B & _). auto. }
  destruct (atyp =? 1).
  { destruct (recv s 4) as [[r b] s1] eqn:R. intros H. apply Hfin in H.
    destruct (recv_spec _ _ _ _ _ R) as (A & B & _). destruct H; split; congruence. }
  destruct (atyp =? 4).
  { destruct (recv s 16) as [[r b] s1] eqn:R. intros H. apply Hfin in H.
    destruct (recv_spec _ _ _ _ _ R) as (A & B & _). destruct H; split; congruence. }
  destruct (atyp =? 3); [|discriminate].
  destruct (recv s 1) as [[r b] s1] eqn:R. destruct (negb (r =? 1)); [discriminate|].
  destruct (recv s1 (to_size_t (to_schar (nth 0 b 0)))) as [[r2 b2] s2] eqn:R2.
  intros H. apply Hfin in H.
  destruct (recv_spec _ _ _ _ _ R) as (A & B & _).
  destruct (recv_spec _ _ _ _ _ R2) as (A2 & B2 & _).
  destruct H; split; congruence.
Qed.

Lemma Socks5_success_wire_aux :
  forall (strDest : str) (port : Z) (hSocket s : Socket),
    Socks5 strDest port hSocket = (Ok, s) ->
    size strDest <= 255
    /\ sent s = sent hSocket ++ [[5; 1; 0]; socks5_request strDest port]
    /\ closed s = closed hSocket.
Proof.
  intros strDest port h s. unfold Socks5, fail_close.
  destruct (255 <? size strDest) eqn:Hsz; [discriminate|]. apply Z.ltb_ge in Hsz.
  destruct (send h [5; 1; 0]) as [ret s1] eqn:S1.
  destruct (negb (ret =? 3)) eqn:E1; [discriminate|].
  apply negb_false_iff, Z.eqb_eq in E1. subst ret.
  destruct (recv s1 2) as [[r1 p1] s2] eqn:R1.
  destruct (negb (r1 =? 2)); [discriminate|].
  destruct (negb (to_schar (nth 0 p1 0) =? 5) || negb (to_schar (nth 1 p1 0) =? 0));
    [discriminate|].
  destruct (send s2 (socks5_request strDest port)) as [ret2 s3] eqn:S2.
  destruct (negb (ret2 =? Z.of_nat (length (socks5_request strDest port)))) eqn:E2;
    [discriminate|].
  apply negb_false_iff, Z.eqb_eq in E2. subst ret2.
  destruct (recv s3 4) as [[r2 p2] s4] eqn:R2.
  destruct (negb (r2 =? 4)); [discriminate|].
  destruct (negb (to_schar (nth 0 p2 0) =? 5)); [discriminate|].
  destruct (negb (to_schar (nth 1 p2 0) =? 0)); [discriminate|].
  destruct (negb (to_schar (nth 2 p2 0) =? 0)); [discriminate|].
  intros H. apply socks5_bound_address_ok in H. destruct H as [H1 H2].
  destruct (send_spec _ _ _ _ S1) as [A1 B1].
  destruct (recv_spec _ _ _ _ _ R1) as (A2 & B2 & _).
  destruct (send_spec _ _ _ _ S2) as [A3 B3].
  destruct (recv_spec _ _ _ _ _ R2) as (A4 & B4 & _).
  split; [exact Hsz|]. split; [|congruence].
  rewrite H1, A4, A3, A2, A1, Nat2Z.id, firstn_all, <- app_assoc. reflexivity.
Qed.

(** X19. When [Socks5] succeeds, the hostname had at most 255 bytes, the
    socket is as open as it was, and exactly two messages were written on
    it: the greeting [05 01 00], then the CONNECT request for the hostname
    and port, each in full. *)
Theorem Socks5_success_wire :
  forall (strDest : str) (port : Z) (hSocket s : Socket),
    Socks5 strDest port hSocket = (Ok, s) ->
    size strDest <= 255
    /\ sent s = sent hSocket ++ [[5; 1; 0]; socks5_request strDest port]
    /\ closed s = closed hSocket.
Proof. exact Socks5_success_wire_aux. Qed.

Lemma Socks5_success_wire_witness :
  exists s,
    Socks5 (L "example.com") 8333
      (fresh_socket [[5; 0]; [5; 0; 0; 1]; [10; 0; 0; 1]; [0x20; 0x8D]]) = (Ok, s)
    /\ sent s = [[5; 1; 0]; socks5_request (L "example.com") 8333].
Proof.
  eexists. split; [reflexivity|].
  apply (Socks5_success_wire (L "example.com") 8333
           (fresh_socket [[5; 0]; [5; 0; 0; 1]; [10; 0; 0; 1]; [0x20; 0x8D]])).
  reflexivity.
Defined.

(** X20. The CONNECT request is 7 bytes longer than the hostname, and a
    server reading it by the SOCKS5 layout gets the hostname and the port
    back, for every hostname of at most 255 bytes and every 16-bit port. *)
Theorem socks5_request_roundtrip :
  forall (strDest : str) (port : Z),
    size strDest <= 255 ->
    0 <= port < 65536 ->
    length (socks5_request strDest port) = (7 + length strDest)%nat
    /\ socks5_read_request (socks5_request strDest port) = Some (strDest, port).
Proof.
  intros strDest port Hsz Hp. unfold size in Hsz. unfold socks5_request, size. split.
  - cbn [app length]. rewrite length_app, length_map. cbn [length]. lia.
  - rewrite Z.min_l by lia. rewrite Z.mod_small by lia.
    cbn [app socks5_read_request]. rewrite Nat2Z.id.
    pose proof (char_byte_roundtrip strDest) as Hrt.
    assert (Hm : length strDest = length (map byte_of_char strDest))
      by (symmetry; apply length_map).
    revert Hrt. generalize dependent (map byte_of_char strDest). intros m Hm Hrt.
    rewrite Hm.
    rewrite firstn_app, firstn_all, Nat.sub_diag, firstn_O, app_nil_r.
    rewrite skipn_app, skipn_all, Nat.sub_diag. cbn [skipn app].
    rewrite Z.eqb_refl, Hrt.
    do 2 f_equal.
    rewrite Z.shiftr_0_r. change 255 with (Z.ones 8). rewrite !Z.land_ones by lia.
    rewrite Z.shiftr_div_pow2 by lia. change (2 ^ 8) with 256.
    rewrite (Z.mod_small (port / 256)) by (split; [apply Z.div_pos; lia | apply Z.div_lt_upper_bound; lia]).
    rewrite (Z.div_mod port 256) at 3 by lia. lia.
Qed.

Lemma socks5_request_roundtrip_witness :
  socks5_read_request (socks5_request (L "abcdefghijklmnop.onion") 9377)
  = Some (L "abcdefghijklmnop.onion", 9377).
Proof.
  apply (socks5_request_roundtrip (L "abcdefghijklmnop.onion") 9377);
    [vm_compute; discriminate | lia].
Defined.

(** ** Numeric IPv4 names *)

Lemma inet_pton4_loop_last (src : str) :
  forall (done : list Z) (cur : Z) (saw : bool) (octets : Z) (r : list Z),
    octets <= 4 ->
    inet_pton4_loop src done cur saw octets = Some r ->
    src <> [] -> digit_val (last src zero) <> None.
Proof.
  induction src as [|ch rest IH]; intros done cur saw octets r Ho H Hne; [contradiction|].
  cbn [inet_pton4_loop] in H.
  destruct (digit_val ch) as [d|] eqn:Ed.
  - destruct rest as [|c2 rest']; [cbn [last]; rewrite Ed; discriminate|].
    change (last (ch :: c2 :: rest') zero) with (last (c2 :: rest') zero).
    destruct (saw && (cur =? 0)); [discriminate H|].
    destruct (255 <? cur * 10 + d); [discriminate H|].
    destruct (negb saw).
    + destruct (4 <? octets + 1) eqn:E4; [discriminate H|]. apply Z.ltb_ge in E4.
      apply (IH _ _ _ _ _ E4 H). discriminate.
    + apply (IH _ _ _ _ _ Ho H). discriminate.
  - destruct (Ascii.eqb ch "." && saw); [|discriminate H].
    destruct (octets =? 4) eqn:E4; [discriminate H|]. apply Z.eqb_neq in E4.
    destruct rest as [|c2 rest'].
    + cbn [inet_pton4_loop] in H.
      replace (octets <? 4) with true in H by (symmetry; apply Z.ltb_lt; lia).
      discriminate H.
    + change (last (ch :: c2 :: rest') zero) with (last (c2 :: rest') zero).
      apply (IH _ _ _ _ _ Ho H). discriminate.
Qed.

(** What [inet_pton4] accepts is not empty and ends in a digit. *)
Lemma inet_pton4_last (s : str) (a4 : list Z) :
  inet_pton4 s = Some a4 -> c_str s <> [] /\ digit_val (last (c_str s) zero) <> None.
Proof.
  unfold inet_pton4. intros H.
  assert (Hne : c_str s <> []) by (intros E; rewrite E in H; discriminate H).
  split; [exact Hne|].
  apply (inet_pton4_loop_last (c_str s) [] 0 false 0 a4); [lia | exact H | exact Hne].
Qed.

(** A string that ends in a digit is no special address. *)
Lemma SetSpecial_not_numeric (env : Env) (this : CNetAddr) (t : str) :
  t <> [] -> digit_val (last t zero) <> None ->
  SetSpecial env this t = (false, this) /\ isStringI2pDestination t = false.
Proof.
  intros Hne Hd.
  assert (Hi : isStringI2pDestination t = false).
  { destruct (isStringI2pDestination t) eqn:E; [|reflexivity]. exfalso.
    destruct (I2pDestination_last t E) as [_ [Hl|Hl]]; rewrite Hl in Hd; apply Hd; reflexivity. }
  split; [|exact Hi]. unfold SetSpecial. rewrite Hi.
  destruct (6 <? size t) eqn:E6; [|reflexivity]. cbn [andb].
  destruct (str_eqb (substr t (size t - 6) 6) (L ".onion")) eqn:Eo; [|reflexivity].
  exfalso. apply str_eqb_eq in Eo. apply Z.ltb_lt in E6. unfold size in *.
  unfold substr in Eo.
  replace (Z.to_nat (Z.of_nat (length t) - 6)) with (length t - 6)%nat in Eo by lia.
  rewrite firstn_all2 in Eo by (rewrite length_skipn; lia).
  assert (Hl : last t zero = "n"%char).
  { rewrite <- (firstn_skipn (length t - 6) t), Eo. apply last_app_nonnil. discriminate. }
  rewrite Hl in Hd. apply Hd. reflexivity.
Qed.

Lemma LookupIntern_numeric (env : Env) (name : str) (a4 : list Z) (nMax : Z) (fAllow : bool) :
  inet_pton4 (c_str name) = Some a4 ->
  LookupIntern env name nMax fAllow
  = (true, [CNetAddr_in_addr a4], [Call_inet_pton4 (c_str name)]).
Proof.
  intros H. destruct (inet_pton4_last _ _ H) as [Hne Hd]. rewrite c_str_idem in Hne, Hd.
  unfold LookupIntern.
  destruct (SetSpecial_not_numeric env Init (c_str name) Hne Hd) as [Hs Hi].
  rewrite Hs, Hi, H. reflexivity.
Qed.

(** X22. A name that is a dotted quad resolves without the resolver: for
    every name [inet_pton] accepts as IPv4, [LookupIntern] returns true with
    exactly one address, the IPv4-mapped one, and the only call made is the
    one to [inet_pton]: no [getaddrinfo_a], whether name lookup is allowed
    or not. *)
Theorem LookupIntern_dotted_quad :
  forall (env : Env) (name : str) (a4 : list Z) (nMaxSolutions : Z) (fAllowLookup : bool),
    inet_pton4 (c_str name) = Some a4 ->
    LookupIntern env name nMaxSolutions fAllowLookup
    = (true, [CNetAddr_in_addr a4], [Call_inet_pton4 (c_str name)])
    /\ IsIPv4 (CNetAddr_in_addr a4) = true.
Proof.
  intros env name a4 nMax fAllow H. split; [apply LookupIntern_numeric; exact H | reflexivity].
Qed.

Lemma LookupIntern_dotted_quad_witness :
  LookupIntern offline_env (L "10.0.0.1") 0 true
  = (true, [CNetAddr_in_addr [10; 0; 0; 1]], [Call_inet_pton4 (L "10.0.0.1")]).
Proof.
  apply (LookupIntern_dotted_quad offline_env (L "10.0.0.1") [10; 0; 0; 1] 0 true).
  reflexivity.
Defined.

Lemma collect_addrinfo_bound (env : Env) (aiTrav : list addrinfo) (nMax : Z) :
  forall vIP : list CNetAddr,
    0 < nMax -> Z.of_nat (length vIP) <= nMax ->
    Z.of_nat (length (collect_addrinfo aiTrav nMax vIP)) <= nMax.
Proof.
  induction aiTrav as [|ai next IH]; intros vIP Hn Hl; [exact Hl|].
  cbn [collect_addrinfo].
  destruct ((nMax =? 0) || (Z.of_nat (length vIP) <? nMax)) eqn:E; [|exact Hl].
  apply orb_prop in E. destruct E as [E|E]; [apply Z.eqb_eq in E; lia|].
  apply Z.ltb_lt in E. apply IH; [exact Hn|].
  destruct (ai_fam ai); rewrite ?length_app; cbn [length]; lia.
Qed.

(** X23. [LookupIntern] returns true exactly when it returns at least one
    address, and with a positive [nMaxSolutions] it never returns more
    addresses than that. *)
Theorem LookupIntern_result_bound :
  forall (env : Env) (name : str) (nMaxSolutions : Z) (fAllowLookup : bool),
    (fst (fst (LookupIntern env name nMaxSolutions fAllowLookup)) = true
     <-> snd (fst (LookupIntern env name nMaxSolutions fAllowLookup)) <> [])
    /\ (0 < nMaxSolutions ->
        Z.of_nat (length (snd (fst (LookupIntern env name nMaxSolutions fAllowLookup))))
        <= nMaxSolutions).
Proof.
  intros env name nMax fAllow. unfold LookupIntern.
  destruct (SetSpecial env Init (c_str name)) as [special a].
  destruct special; [split; [split; [discriminate | reflexivity] | cbn; lia]|].
  destruct (isStringI2pDestination (c_str name));
    [split; [split; [discriminate | intros H; contradiction H; reflexivity] | cbn; lia]|].
  destruct (inet_pton4 (c_str name));
    [split; [split; [discriminate | reflexivity] | cbn; lia]|].
  destruct (inet_pton6 env (c_str name));
    [split; [split; [discriminate | reflexivity] | cbn; lia]|].
  destruct (getaddrinfo_a env (c_str name) fAllow) as [|polls nErr aiRes];
    [split; [split; [discriminate | intros H; contradiction H; reflexivity] | cbn; lia]|].
  destruct (negb (nErr =? 0));
    [split; [split; [discriminate | intros H; contradiction H; reflexivity] | cbn; lia]|].
  cbn [fst snd]. split.
  - destruct (collect_addrinfo aiRes nMax []); cbn [length Nat.ltb Nat.leb];
      split; try discriminate; try reflexivity. intros H. contradiction H. reflexivity.
  - intros Hn. apply (collect_addrinfo_bound env); [exact Hn | cbn [length]; lia].
Qed.

Lemma LookupIntern_result_bound_witness :
  Z.of_nat (length (snd (fst (LookupIntern dns_env (L "example.com") 2 true)))) <= 2.
Proof.
  apply (proj2 (LookupIntern_result_bound dns_env (L "example.com") 2 true)). lia.
Defined.

(** ** Socket addresses and proxied connections *)

Lemma zero_dest_not_native (ipa : list Z) :
  IsNativeI2P {| ip := ipa; i2pDest := repeat 0 NATIVE_I2P_DESTINATION_SIZE |} = false.
Proof. vm_compute. reflexivity. Qed.

(** X24. For an endpoint with a 16-byte slot, an empty destination buffer
    and a 16-bit port: when [GetSockAddr] succeeds, the endpoint is IPv4 or
    IPv6, the length it leaves in [*addrlen] is the size of that family's
    structure and fits the buffer, and [SetSockAddr] of the address written
    is the endpoint again. When it fails, the endpoint is Tor or I2P, or the
    buffer is too short for the endpoint's family; so with a buffer of the
    size of [sockaddr_storage] only Tor and I2P endpoints fail. *)
Theorem sockaddr_roundtrip :
  forall (s : CService) (addrlen : Z),
    length (ip (addr s)) = 16%nat ->
    i2pDest (addr s) = repeat 0 NATIVE_I2P_DESTINATION_SIZE ->
    0 <= port s < 65536 ->
    match GetSockAddr s addrlen with
    | Some (sa, len) =>
        SetSockAddr sa = s
        /\ len <= addrlen
        /\ ((IsIPv4 (addr s) = true /\ len = sizeof_sockaddr_in)
            \/ (IsIPv6 (addr s) = true /\ len = sizeof_sockaddr_in6))
    | None =>
        IsTor (addr s) = true \/ IsI2P (addr s) = true
        \/ (IsIPv4 (addr s) = true /\ addrlen < sizeof_sockaddr_in)
        \/ (IsIPv6 (addr s) = true /\ addrlen < sizeof_sockaddr_in6)
    end
    /\ (GetSockAddr s sizeof_sockaddr_storage = None <->
        IsTor (addr s) = true \/ IsI2P (addr s) = true).
Proof.
  intros [[ipa d] p] addrlen Hl Hd Hp. cbn [addr ip i2pDest port] in *. subst d.
  unfold GetSockAddr. cbn [addr ip port].
  change (sizeof_sockaddr_storage <? sizeof_sockaddr_in) with false.
  change (sizeof_sockaddr_storage <? sizeof_sockaddr_in6) with false.
  destruct (family_partition_aux {| ip := ipa; i2pDest := repeat 0 NATIVE_I2P_DESTINATION_SIZE |})
    as [H|[H|[H|H]]]; destruct H as (H4 & H6 & Ht & Hi); rewrite H4, ?H6, ?Ht, ?Hi.
  - split.
    + destruct (addrlen <? sizeof_sockaddr_in) eqn:E.
      * apply Z.ltb_lt in E. right. right. left. split; [reflexivity | exact E].
      * apply Z.ltb_ge in E. split; [|split; [exact E | left; split; reflexivity]].
        unfold SetSockAddr, CNetAddr_in_addr, to_ushort.
        change (2 ^ 16) with 65536. rewrite Z.mod_small by lia.
        apply IsIPv4_ip in H4. cbn [ip] in H4.
        assert (Hl4 : length (skipn 12 ipa) = 4%nat) by (rewrite length_skipn; lia).
        rewrite (firstn_all2 (n := 4)) by lia.
        change (firstn 12 pchIPv4) with pchIPv4. rewrite <- H4. reflexivity.
    + split; [discriminate | intros [F|F]; discriminate F].
  - rewrite zero_dest_not_native. split.
    + destruct (addrlen <? sizeof_sockaddr_in6) eqn:E.
      * apply Z.ltb_lt in E. right. right. right. split; [reflexivity | exact E].
      * apply Z.ltb_ge in E. split; [|split; [exact E | right; split; reflexivity]].
        unfold SetSockAddr, CNetAddr_in6_addr, to_ushort.
        change (2 ^ 16) with 65536. rewrite Z.mod_small by lia.
        rewrite firstn_all2 by lia. reflexivity.
    + split; [discriminate | intros [F|F]; discriminate F].
  - split; [left; reflexivity | split; [left; reflexivity | reflexivity]].
  - split; [right; left; reflexivity | split; [right; reflexivity | reflexivity]].
Qed.

Lemma sockaddr_roundtrip_witness :
  SetSockAddr (sockaddr_in [8; 8; 8; 8] 53) = {| addr := addr_8_8_8_8; port := 53 |}
  /\ GetSockAddr {| addr := addr_8_8_8_8; port := 53 |} 8 = None
  /\ GetSockAddr {| addr := sample_onion_addr; port := 53 |} sizeof_sockaddr_storage = None.
Proof.
  split; [|split].
  - pose proof (proj1 (sockaddr_roundtrip {| addr := addr_8_8_8_8; port := 53 |}
                         sizeof_sockaddr_storage
                         eq_refl eq_refl ltac:(cbn [port]; lia))) as H.
    exact (proj1 H).
  - reflexivity.
  - apply (proj2 (proj2 (sockaddr_roundtrip {| addr := sample_onion_addr; port := 53 |}
                           sizeof_sockaddr_storage
                           eq_refl eq_refl ltac:(cbn [port]; lia)))).
    left. reflexivity.
Defined.

Lemma onion_no_sockaddr (s : CService) (addrlen : Z) :
  IsTor (addr s) = true -> GetSockAddr s addrlen = None.
Proof.
  intros Ht. unfold GetSockAddr.
  destruct (family_partition_aux (addr s)) as [H|[H|[H|H]]]; destruct H as (H4 & H6 & Ht' & Hi);
    try congruence.
  rewrite H4, H6. reflexivity.
Qed.

(** X25. An onion destination is never connected to directly: with no
    proxy set for the Tor network, [ConnectSocket] fails, whatever the
    operating system would answer. *)
Theorem onion_needs_proxy :
  forall (env : Env) (net : NetEnv) (addrDest : CService) (nTimeout : Z),
    IsTor (addr addrDest) = true ->
    GetProxy net NET_TOR = None ->
    ConnectSocket env net addrDest nTimeout = NotConnected.
Proof.
  intros env net dest t Ht Hp.
  destruct (IsTor_routable env (addr dest) Ht) as (_ & Hn & _).
  unfold ConnectSocket.
  replace (IsI2P (addr dest)) with false
    by (unfold IsI2P; rewrite (IsTor_ip _ Ht); reflexivity).
  rewrite Hn, Hp. unfold ConnectSocketDirectly. rewrite (onion_no_sockaddr dest _ Ht).
  reflexivity.
Qed.

Lemma onion_needs_proxy_witness :
  ConnectSocket offline_env name_proxy_net {| addr := sample_onion_addr; port := 9377 |} 20000
  = NotConnected.
Proof.
  apply (onion_needs_proxy offline_env name_proxy_net); reflexivity.
Defined.

Lemma Socks5_ok_sent (strDest : str) (port : Z) (hSocket s : Socket) :
  Socks5 strDest port hSocket = (Ok, s) ->
  sent s = sent hSocket ++ [[5; 1; 0]; socks5_request strDest port]
  /\ closed s = closed hSocket.
Proof. intros H. apply Socks5_success_wire_aux in H. tauto. Qed.

(** X26. A connection made through a configured proxy carries the
    destination by name: when [ConnectSocket] succeeds for a destination
    whose network has a proxy, the socket is the one connected to the proxy
    and what was written on it is the SOCKS5 greeting followed by the
    CONNECT request for the destination's display address and port. *)
Theorem ConnectSocket_via_proxy :
  forall (env : Env) (net : NetEnv) (addrDest proxy : CService) (nTimeout : Z) (s : Socket),
    IsI2P (addr addrDest) = false ->
    GetProxy net (GetNetwork env (addr addrDest)) = Some proxy ->
    ConnectSocket env net addrDest nTimeout = Connected s ->
    exists hSocket,
      ConnectSocketDirectly net proxy nTimeout = Some hSocket
      /\ sent s = sent hSocket
                  ++ [[5; 1; 0];
                      socks5_request (ToStringIP env (addr addrDest)) (port addrDest)]
      /\ closed s = closed hSocket.
Proof.
  intros env net dest proxy t s Hi Hp. unfold ConnectSocket. rewrite Hi, Hp.
  destruct (ConnectSocketDirectly net proxy t) as [h|]; [|discriminate].
  destruct (Socks5 (ToStringIP env (addr dest)) (port dest) h) as [[|msg] s'] eqn:E;
    [|discriminate].
  intros H. injection H as <-. exists h. split; [reflexivity|].
  apply Socks5_ok_sent. exact E.
Qed.

Lemma ConnectSocket_via_proxy_witness :
  exists s,
    ConnectSocket offline_env tor_proxy_net {| addr := sample_onion_addr; port := 9377 |} 20000
    = Connected s
    /\ sent s = [[5; 1; 0]; socks5_request (L "abcdefghijklmnop.onion") 9377].
Proof.
  eexists. split; [reflexivity|].
  destruct (ConnectSocket_via_proxy offline_env tor_proxy_net
              {| addr := sample_onion_addr; port := 9377 |}
              {| addr := addr_127_0_0_1; port := 9050 |} 20000 _ eq_refl eq_refl eq_refl)
    as (h & Hc & Hs & _).
  injection Hc as <-. exact Hs.
Defined.

(** ** Dotted quads: text to address and back *)

Lemma fmt_u_octet (a : Z) : 0 <= a < 256 -> fmt_u a = octet_digits a.
Proof.
  intros H. apply str_eqb_eq.
  apply (forallb_bytes (fun b => str_eqb (fmt_u b) (octet_digits b)));
    [vm_compute; reflexivity | exact H].
Qed.

Lemma digit_val_digit_char (d : Z) : 0 <= d <= 9 -> digit_val (digit_char d) = Some d.
Proof.
  intros H.
  assert (E : d = 0 \/ d = 1 \/ d = 2 \/ d = 3 \/ d = 4 \/ d = 5 \/ d = 6 \/ d = 7
              \/ d = 8 \/ d = 9) by lia.
  repeat (destruct E as [-> | E]; [reflexivity|]). subst d. reflexivity.
Qed.

Lemma pton4_digit_first (d : Z) (rest : str) (done : list Z) (octets : Z) :
  0 <= d <= 9 -> octets <= 3 ->
  inet_pton4_loop (digit_char d :: rest) done 0 false octets
  = inet_pton4_loop rest done d true (octets + 1).
Proof.
  intros Hd Ho. cbn [inet_pton4_loop]. rewrite (digit_val_digit_char d Hd).
  cbn [andb negb Z.mul Z.add].
  replace (255 <? d) with false by (symmetry; apply Z.ltb_ge; lia).
  replace (4 <? octets + 1) with false by (symmetry; apply Z.ltb_ge; lia).
  reflexivity.
Qed.

Lemma pton4_digit_next (d cur : Z) (rest : str) (done : list Z) (octets : Z) :
  0 <= d <= 9 -> 0 < cur -> cur * 10 + d <= 255 ->
  inet_pton4_loop (digit_char d :: rest) done cur true octets
  = inet_pton4_loop rest done (cur * 10 + d) true octets.
Proof.
  intros Hd Hc Hm. cbn [inet_pton4_loop]. rewrite (digit_val_digit_char d Hd).
  replace (cur =? 0) with false by (symmetry; apply Z.eqb_neq; lia).
  replace (255 <? cur * 10 + d) with false by (symmetry; apply Z.ltb_ge; lia).
  reflexivity.
Qed.

Lemma pton4_octet (a : Z) (rest : str) (done : list Z) (octets : Z) :
  0 <= a < 256 -> octets <= 3 ->
  inet_pton4_loop (fmt_u a ++ rest) done 0 false octets
  = inet_pton4_loop rest done a true (octets + 1).
Proof.
  intros Ha Ho. rewrite (fmt_u_octet a Ha). unfold octet_digits.
  destruct (a <? 10) eqn:E1; [apply Z.ltb_lt in E1 | apply Z.ltb_ge in E1].
  - cbn [app]. apply pton4_digit_first; lia.
  - assert (Hr : 0 <= a mod 10 <= 9) by (Z.div_mod_to_equations; lia).
    assert (He : a / 10 * 10 + a mod 10 = a) by (Z.div_mod_to_equations; lia).
    destruct (a <? 100) eqn:E2; [apply Z.ltb_lt in E2 | apply Z.ltb_ge in E2]; cbn [app].
    + assert (Hq : 1 <= a / 10 <= 9) by (Z.div_mod_to_equations; lia).
      rewrite pton4_digit_first by lia.
      rewrite pton4_digit_next by lia.
      rewrite He. reflexivity.
    + assert (Hq : 10 <= a / 10 <= 25) by (Z.div_mod_to_equations; lia).
      assert (Hh : 1 <= a / 100 <= 2) by (Z.div_mod_to_equations; lia).
      assert (Hm : 0 <= a / 10 mod 10 <= 9) by (Z.div_mod_to_equations; lia).
      assert (Hs : a / 100 * 10 + a / 10 mod 10 = a / 10) by (Z.div_mod_to_equations; lia).
      rewrite pton4_digit_first by lia.
      rewrite pton4_digit_next by lia.
      rewrite Hs.
      rewrite pton4_digit_next by lia.
      rewrite He. reflexivity.
Qed.

Lemma pton4_dot (cur : Z) (rest : str) (done : list Z) (octets : Z) :
  octets <> 4 ->
  inet_pton4_loop ("."%char :: rest) done cur true octets
  = inet_pton4_loop rest (done ++ [cur]) 0 false octets.
Proof.
  intros Ho. cbn [inet_pton4_loop].
  change (digit_val ".") with (@None Z). cbn [Ascii.eqb Bool.eqb andb].
  replace (octets =? 4) with false by (symmetry; apply Z.eqb_neq; exact Ho).
  reflexivity.
Qed.

Lemma fmt_u_no_nul (a : Z) : 0 <= a < 256 -> Forall (fun c => c <> zero) (fmt_u a).
Proof.
  intros H. apply Forall_forall. intros c Hc.
  assert (E : forallb (fun c => negb (Ascii.eqb c zero)) (fmt_u a) = true).
  { apply (forallb_bytes (fun b => forallb (fun c => negb (Ascii.eqb c zero)) (fmt_u b)));
      [vm_compute; reflexivity | exact H]. }
  rewrite forallb_forall in E. specialize (E c Hc).
  apply negb_true_iff, Ascii.eqb_neq in E. exact E.
Qed.

Lemma inet_pton4_dotted_quad (a b c d : Z) :
  0 <= a < 256 -> 0 <= b < 256 -> 0 <= c < 256 -> 0 <= d < 256 ->
  inet_pton4 (c_str (dotted_quad a b c d)) = Some [a; b; c; d].
Proof.
  intros Ha Hb Hc Hd.
  assert (Hs : c_str (dotted_quad a b c d) = dotted_quad a b c d).
  { apply c_str_fixed. unfold dotted_quad.
    repeat (apply Forall_app; split);
      try (apply fmt_u_no_nul; assumption); repeat constructor; discriminate. }
  unfold inet_pton4. rewrite Hs, Hs. unfold dotted_quad.
  rewrite pton4_octet by lia. cbn [app L list_ascii_of_string Z.add]. rewrite pton4_dot by lia.
  rewrite pton4_octet by lia. cbn [app Z.add]. rewrite pton4_dot by lia.
  rewrite pton4_octet by lia. cbn [app Z.add]. rewrite pton4_dot by lia.
  rewrite <- (app_nil_r (fmt_u d)). rewrite pton4_octet by lia. reflexivity.
Qed.

Lemma LookupHost_numeric (env : Env) (name : str) (a4 : list Z) (nMax : Z) (fAllow : bool) :
  inet_pton4 (c_str name) = Some a4 ->
  LookupHost env name nMax fAllow
  = (true, [CNetAddr_in_addr a4], [Call_inet_pton4 (c_str name)]).
Proof.
  intros H. destruct (inet_pton4_last _ _ H) as [Hne Hd]. rewrite c_str_idem in Hne, Hd.
  unfold LookupHost.
  assert (Hnil : is_nil (c_str name) = false)
    by (destruct (c_str name); [contradiction | reflexivity]).
  assert (Hb : ends_with (c_str name) (L "]") = false).
  { destruct (ends_with (c_str name) (L "]")) eqn:Eb; [|reflexivity].
    apply ends_with_last in Eb; [|discriminate]. rewrite Eb in Hd. exfalso. apply Hd.
    reflexivity. }
  rewrite Hnil, Hb, andb_false_r.
  pose proof (LookupIntern_numeric env (c_str name) a4 nMax fAllow) as Hn.
  rewrite c_str_idem in Hn. apply Hn. exact H.
Qed.

Lemma ipv4_text_roundtrip_aux :
  forall (env : Env) (a b c d : Z) (fAllowLookup : bool),
    0 <= a < 256 -> 0 <= b < 256 -> 0 <= c < 256 -> 0 <= d < 256 ->
    CNetAddr_of_string env (dotted_quad a b c d) fAllowLookup = CNetAddr_in_addr [a; b; c; d]
    /\ (getnameinfo env (sockaddr_in [a; b; c; d] 0) = None
        \/ getnameinfo env (sockaddr_in [a; b; c; d] 0) = Some (dotted_quad a b c d) ->
        ToStringIP env (CNetAddr_in_addr [a; b; c; d]) = dotted_quad a b c d).
Proof.
  intros env a b c d f Ha Hb Hc Hd. split.
  - unfold CNetAddr_of_string.
    rewrite (LookupHost_numeric env _ [a; b; c; d] 1 f
               (inet_pton4_dotted_quad a b c d Ha Hb Hc Hd)).
    reflexivity.
  - intros Hg. unfold ToStringIP.
    change (IsI2P (CNetAddr_in_addr [a; b; c; d])) with false.
    change (IsTor (CNetAddr_in_addr [a; b; c; d])) with false.
    change (GetSockAddr (CService_of (CNetAddr_in_addr [a; b; c; d]) 0)
              sizeof_sockaddr_storage)
      with (Some (sockaddr_in [a; b; c; d] 0, sizeof_sockaddr_in)).
    destruct Hg as [-> | ->]; reflexivity.
Qed.

(** X27. A dotted quad goes from text to address and back. The string
    written from four octets parses, with or without name lookup, to the
    IPv4-mapped address of those octets; and that address is displayed as
    the same string, by the [%u.%u.%u.%u] fallback when [getnameinfo] gives
    nothing, or by [getnameinfo] when it gives the numeric form. *)
Theorem ipv4_text_roundtrip :
  forall (env : Env) (a b c d : Z) (fAllowLookup : bool),
    0 <= a < 256 -> 0 <= b < 256 -> 0 <= c < 256 -> 0 <= d < 256 ->
    CNetAddr_of_string env (dotted_quad a b c d) fAllowLookup = CNetAddr_in_addr [a; b; c; d]
    /\ (getnameinfo env (sockaddr_in [a; b; c; d] 0) = None
        \/ getnameinfo env (sockaddr_in [a; b; c; d] 0) = Some (dotted_quad a b c d) ->
        ToStringIP env (CNetAddr_in_addr [a; b; c; d]) = dotted_quad a b c d).
Proof. exact ipv4_text_roundtrip_aux. Qed.

Lemma ipv4_text_roundtrip_witness :
  CNetAddr_of_string offline_env (dotted_quad 192 168 1 5) true
  = CNetAddr_in_addr [192; 168; 1; 5]
  /\ ToStringIP offline_env (CNetAddr_in_addr [192; 168; 1; 5]) = L "192.168.1.5".
Proof.
  destruct (ipv4_text_roundtrip offline_env 192 168 1 5 true
              ltac:(lia) ltac:(lia) ltac:(lia) ltac:(lia)) as [H1 H2].
  split; [exact H1 | apply H2; left; reflexivity].
Defined.

(** ** Endpoint text *)

Lemma fmt_digits_decimal (fuel : nat) :
  forall (n : Z) (acc : str),
    0 <= n -> Forall is_decimal_char acc -> Forall is_decimal_char (fmt_digits fuel 10 n acc).
Proof.
  induction fuel as [|f IH]; intros n acc Hn Hacc; [exact Hacc|].
  cbn [fmt_digits].
  assert (Hd : is_decimal_char (digit_char (n mod 10))).
  { exists (n mod 10). split; [|reflexivity]. pose proof (Z.mod_pos_bound n 10 ltac:(lia)). lia. }
  destruct (n / 10 =? 0); [constructor; assumption|].
  apply IH; [apply Z.div_pos; lia | constructor; assumption].
Qed.

Lemma is_decimal_char_plain (c : ascii) :
  is_decimal_char c -> c <> zero /\ c <> ":"%char /\ c <> "["%char /\ digit_val c <> None.
Proof.
  intros (d & Hd & ->).
  assert (E : d = 0 \/ d = 1 \/ d = 2 \/ d = 3 \/ d = 4 \/ d = 5 \/ d = 6 \/ d = 7
              \/ d = 8 \/ d = 9) by lia.
  repeat (destruct E as [-> | E]; [repeat split; discriminate|]). subst d.
  repeat split; discriminate.
Qed.

Lemma dotted_quad_chars (a b c d : Z) :
  0 <= a -> 0 <= b -> 0 <= c -> 0 <= d -> Forall is_quad_char (dotted_quad a b c d).
Proof.
  intros Ha Hb Hc Hd. unfold dotted_quad, fmt_u.
  assert (Hf : forall n, 0 <= n -> Forall is_quad_char (fmt_digits 20 10 n [])).
  { intros n Hn. eapply Forall_impl; [|apply fmt_digits_decimal; [exact Hn | constructor]].
    intros x Hx. left. exact Hx. }
  repeat (apply Forall_app; split); try (apply Hf; assumption);
    repeat constructor; right; reflexivity.
Qed.

Lemma quad_chars_plain (s : str) :
  Forall is_quad_char s ->
  Forall (fun c => c <> zero) s /\ ~ In ":"%char s /\ at_ s 0 <> "["%char.
Proof.
  intros H.
  assert (Hc : forall c, is_quad_char c -> c <> zero /\ c <> ":"%char /\ c <> "["%char).
  { intros c [Hd | ->]; [destruct (is_decimal_char_plain c Hd) as (A & B & C & _); auto|].
    repeat split; discriminate. }
  split; [|split].
  - eapply Forall_impl; [|exact H]. intros c Hq. exact (proj1 (Hc c Hq)).
  - intros Hin. rewrite Forall_forall in H. exact (proj1 (proj2 (Hc _ (H _ Hin))) eq_refl).
  - destruct s as [|c0 r]; [discriminate|]. inversion H; subst.
    exact (proj2 (proj2 (Hc _ H2))).
Qed.

(** The text [a.b.c.d:n] is split into the dotted quad and the port. *)
Lemma SplitHostPort_endpoint_text (a b c d n p : Z) :
  0 <= a < 256 -> 0 <= b < 256 -> 0 <= c < 256 -> 0 <= d < 256 -> 0 < n < 65536 ->
  c_str (dotted_quad a b c d ++ L ":" ++ fmt_u n) = dotted_quad a b c d ++ L ":" ++ fmt_u n
  /\ at_ (dotted_quad a b c d ++ L ":" ++ fmt_u n) 0 <> zero
  /\ SplitHostPort (dotted_quad a b c d ++ L ":" ++ fmt_u n) p = (n, dotted_quad a b c d).
Proof.
  intros Ha Hb Hc Hd Hn.
  pose proof (dotted_quad_chars a b c d ltac:(lia) ltac:(lia) ltac:(lia) ltac:(lia)) as Hq.
  destruct (quad_chars_plain _ Hq) as (Hnz & Hno & H0).
  assert (Hnn : Forall (fun c => c <> zero) (fmt_u n)).
  { eapply Forall_impl; [|apply (fmt_digits_decimal 20 n []); [lia | constructor]].
    intros x Hx. exact (proj1 (is_decimal_char_plain x Hx)). }
  assert (Hlen : (length (dotted_quad a b c d) <= 15)%nat).
  { unfold dotted_quad. rewrite !length_app.
    rewrite !fmt_u_octet by assumption. unfold octet_digits.
    destruct (a <? 10), (a <? 100), (b <? 10), (b <? 100), (c <? 10), (c <? 100),
      (d <? 10), (d <? 100); cbn [length L list_ascii_of_string]; lia. }
  split; [|split].
  - apply c_str_fixed. apply Forall_app. split; [exact Hnz|].
    apply Forall_app. split; [repeat constructor; discriminate | exact Hnn].
  - destruct (dotted_quad a b c d) as [|c0 r] eqn:E.
    + exfalso. unfold dotted_quad in E. apply app_eq_nil in E. destruct E as [_ E].
      discriminate E.
    + inversion Hnz; subst. exact H2.
  - destruct (SplitHostPort_join_aux (dotted_quad a b c d) n p ltac:(lia)) as [Hj _].
    + unfold size, SIZE_MAX. change (2 ^ 64) with 18446744073709551616. lia.
    + rewrite (Hj Hno H0).
      replace (n =? 0) with false by (symmetry; apply Z.eqb_neq; lia). reflexivity.
Qed.

(** X28. An IPv4 endpoint written as [a.b.c.d:port] is read back by
    [Lookup] as the same endpoint: the IPv4-mapped address of the four
    octets with that port, for every port from 1 to 65535, whatever the
    default port, and without a call to the name resolver. *)
Theorem Lookup_endpoint_text :
  forall (env : Env) (a b c d n portDefault : Z) (fAllowLookup : bool),
    0 <= a < 256 -> 0 <= b < 256 -> 0 <= c < 256 -> 0 <= d < 256 -> 0 < n < 65536 ->
    Lookup env (dotted_quad a b c d ++ L ":" ++ fmt_u n) portDefault fAllowLookup 1
    = (true, [{| addr := CNetAddr_in_addr [a; b; c; d]; port := n |}],
       [Call_inet_pton4 (dotted_quad a b c d)])
    /\ CService_of_string_port env (dotted_quad a b c d ++ L ":" ++ fmt_u n)
         portDefault fAllowLookup
       = {| addr := CNetAddr_in_addr [a; b; c; d]; port := n |}.
Proof.
  intros env a b c d n pd f Ha Hb Hc Hd Hn.
  destruct (SplitHostPort_endpoint_text a b c d n pd Ha Hb Hc Hd Hn) as (Hcs & H0 & Hsp).
  assert (Hq : c_str (dotted_quad a b c d) = dotted_quad a b c d).
  { apply c_str_fixed.
    exact (proj1 (quad_chars_plain _ (dotted_quad_chars a b c d ltac:(lia) ltac:(lia)
                                        ltac:(lia) ltac:(lia)))). }
  assert (HL : Lookup env (dotted_quad a b c d ++ L ":" ++ fmt_u n) pd f 1
               = (true, [{| addr := CNetAddr_in_addr [a; b; c; d]; port := n |}],
                  [Call_inet_pton4 (dotted_quad a b c d)])).
  { unfold Lookup.
    replace (Ascii.eqb (at_ (dotted_quad a b c d ++ L ":" ++ fmt_u n) 0) zero) with false
      by (symmetry; apply Ascii.eqb_neq; exact H0).
    rewrite Hcs, Hsp.
    rewrite (LookupIntern_numeric env (dotted_quad a b c d) [a; b; c; d] 1 f
               (inet_pton4_dotted_quad a b c d Ha Hb Hc Hd)).
    rewrite Hq. cbn [negb map]. unfold CService_of, to_ushort.
    change (2 ^ 16) with 65536. rewrite Z.mod_small by lia. reflexivity. }
  split; [exact HL|].
  unfold CService_of_string_port, Lookup1. rewrite HL. reflexivity.
Qed.

Lemma Lookup_endpoint_text_witness :
  CService_of_string_port offline_env (dotted_quad 10 0 0 1 ++ L ":" ++ fmt_u 8333) 9377 false
  = {| addr := CNetAddr_in_addr [10; 0; 0; 1]; port := 8333 |}.
Proof.
  apply (Lookup_endpoint_text offline_env 10 0 0 1 8333 9377 false); lia.
Defined.

(** X29. Given the text [a.b.c.d:port] of a valid IPv4 endpoint,
    [ConnectSocketByName] leaves exactly that endpoint in [addr] and
    returns what [ConnectSocket] returns for it; the name proxy, set or
    not, is not used. *)
Theorem ConnectSocketByName_numeric :
  forall (env : Env) (net : NetEnv) (a b c d n portDefault nTimeout : Z),
    0 <= a < 256 -> 0 <= b < 256 -> 0 <= c < 256 -> 0 <= d < 256 -> 0 < n < 65536 ->
    IsValid (CNetAddr_in_addr [a; b; c; d]) = true ->
    ConnectSocketByName env net (dotted_quad a b c d ++ L ":" ++ fmt_u n) portDefault nTimeout
    = (ConnectSocket env net {| addr := CNetAddr_in_addr [a; b; c; d]; port := n |} nTimeout,
       {| addr := CNetAddr_in_addr [a; b; c; d]; port := n |}).
Proof.
  intros env net a b c d n pd t Ha Hb Hc Hd Hn Hv.
  destruct (SplitHostPort_endpoint_text a b c d n pd Ha Hb Hc Hd Hn) as (Hcs & _ & Hsp).
  unfold ConnectSocketByName. rewrite Hcs, Hsp.
  rewrite (proj1 (ipv4_text_roundtrip_aux env a b c d _ Ha Hb Hc Hd)).
  unfold CService_of, to_ushort. change (2 ^ 16) with 65536. rewrite Z.mod_small by lia.
  cbn [addr]. rewrite Hv. reflexivity.
Qed.

Lemma ConnectSocketByName_numeric_witness :
  snd (ConnectSocketByName offline_env name_proxy_net
         (dotted_quad 8 8 8 8 ++ L ":" ++ fmt_u 53) 9377 20000)
  = {| addr := addr_8_8_8_8; port := 53 |}.
Proof.
  rewrite (ConnectSocketByName_numeric offline_env name_proxy_net 8 8 8 8 53 9377 20000);
    try lia; reflexivity.
Defined.


